(** * PDF_FILLER_NEW: the collaborative annotation model and the PDF
    recomposition pipeline, embedded from

      - frontend/src/components/PdfEditor.jsx  (client session)
      - the socket server (express + socket.io + multer)

    JavaScript numbers are modelled by exact rationals [Q] (the geometry
    is given on IEEE doubles as well); strings by [string] (where characters
    beyond ASCII matter, in the white space [trim] strips, a text is read
    as the bytes of its UTF-8 encoding); objects used as
    page-indexed maps and the server's [Map] by [gmap]; a value that may be
    [undefined] by [option].  The zoom scale is never zero (the toolbar
    keeps it between 0.5 and 2). *)

From Stdlib Require Import ZArith QArith Qminmax Qabs Lia Lqa PrimFloat.
From Stdlib Require Import String Ascii List Decimal DecimalString DecimalPos.
From Stdlib Require Hexadecimal HexadecimalString DecimalN.
From Stdlib Require Import Qround.
From Stdlib.Strings Require Import Byte.
From stdpp Require Import gmap strings list sorting.
Import ListNotations.

Set Default Proof Using "Type".

(* ================================================================== *)
(** * Part I. The embedding                                            *)
(* ================================================================== *)

(** ** JavaScript helpers *)

Module Js.

(** [!s] is true of the empty string only. *)
Definition truthy_string (s : string) : bool := negb (String.eqb s "").

(** [!n] is true of [0] (and of [NaN], which is [None] where it can occur). *)
Definition truthy_num (q : Q) : bool := negb (Qeq_bool q 0).

(** Truthiness of a possibly undefined value. *)
Definition truthy_opt {A} (t : A -> bool) (o : option A) : bool :=
  match o with Some a => t a | None => false end.

(** [a || b] on possibly undefined values. *)
Definition or_else {A} (t : A -> bool) (a : option A) (b : A) : A :=
  match a with
  | Some v => if t v then v else b
  | None => b
  end.

(** [Array.prototype.findIndex]: the first index whose element satisfies
    [p], or [-1]. *)
Fixpoint findIndex_from {A} (p : A -> bool) (l : list A) (i : Z) : Z :=
  match l with
  | [] => (-1)%Z
  | x :: r => if p x then i else findIndex_from p r (i + 1)%Z
  end.

Definition findIndex {A} (p : A -> bool) (l : list A) : Z :=
  findIndex_from p l 0%Z.

(** [Array.prototype.slice(0, e)]: a negative [e] counts from the end. *)
Definition slice0 {A} (e : Z) (l : list A) : list A :=
  if (e <? 0)%Z
  then firstn (Z.to_nat (Z.max (Z.of_nat (length l) + e) 0)) l
  else firstn (Z.to_nat e) l.

(** [arr[i]] for a number [i]: [undefined] out of range. *)
Definition index {A} (l : list A) (i : Z) : option A :=
  if (i <? 0)%Z then None else l !! Z.to_nat i.

(** The white space and line terminators of ECMAScript, which
    [String.prototype.trim] strips, as they stand in UTF-8:
    U+0009..U+000D and U+0020 (one byte); U+00A0 (C2 A0);
    U+1680 (E1 9A 80); U+2000..U+200A, U+2028, U+2029 and U+202F
    (E2 80 80..8A, A8, A9, AF); U+205F (E2 81 9F); U+3000 (E3 80 80);
    U+FEFF (EF BB BF). *)
Definition white1 (a : ascii) : bool :=
  let n := nat_of_ascii a in
  (n =? 32)%nat || ((9 <=? n)%nat && (n <=? 13)%nat).

Definition white2 (a b : ascii) : bool :=
  (nat_of_ascii a =? 194)%nat && (nat_of_ascii b =? 160)%nat.

Definition white3 (a b c : ascii) : bool :=
  let x := nat_of_ascii a in
  let y := nat_of_ascii b in
  let z := nat_of_ascii c in
  ((x =? 225) && (y =? 154) && (z =? 128)
   || (x =? 226) && (y =? 128)
      && ((128 <=? z) && (z <=? 138) || (z =? 168) || (z =? 169) || (z =? 175))
   || (x =? 226) && (y =? 129) && (z =? 159)
   || (x =? 227) && (y =? 128) && (z =? 128)
   || (x =? 239) && (y =? 187) && (z =? 191))%nat.

(** What follows one leading white-space character, when the string
    starts with one. *)
Definition white (s : string) : option string :=
  match s with
  | String a r =>
      if white1 a then Some r
      else match r with
           | String b r2 =>
               if white2 a b then Some r2
               else match r2 with
                    | String c r3 => if white3 a b c then Some r3 else None
                    | EmptyString => None
                    end
           | EmptyString => None
           end
  | EmptyString => None
  end.

(** [trimStart]: leading white space is dropped, one character after the
    other; [n] bounds the number of characters. *)
Fixpoint trimStart_from (n : nat) (s : string) : string :=
  match n with
  | O => s
  | S n' =>
      match white s with
      | Some r => trimStart_from n' r
      | None => s
      end
  end.

Definition trimStart (s : string) : string :=
  trimStart_from (String.length s) s.

(** [trimEnd]: the longest end of the string that is white space only is
    dropped. *)
Fixpoint trimEnd (s : string) : string :=
  match s with
  | String c r =>
      if String.eqb (trimStart (String c r)) "" then EmptyString
      else String c (trimEnd r)
  | EmptyString => EmptyString
  end.

Definition trim (s : string) : string := trimEnd (trimStart s).

(** A string of white space only. *)
Inductive Blank : string -> Prop :=
| Blank_nil : Blank EmptyString
| Blank_cons (s r : string) : white s = Some r -> Blank r -> Blank s.

(** [String.prototype.toLowerCase] on ASCII letters. *)
Definition toLower (c : ascii) : ascii :=
  let n := nat_of_ascii c in
  if (65 <=? n)%nat && (n <=? 90)%nat then ascii_of_nat (n + 32) else c.

Fixpoint toLowerCase (s : string) : string :=
  match s with
  | String c r => String (toLower c) (toLowerCase r)
  | EmptyString => EmptyString
  end.

(** [/pat/i.test(s)] for a pattern that is a plain lower-case word. *)
Definition test_ci (pat s : string) : bool :=
  match String.index 0 pat (toLowerCase s) with
  | Some _ => true
  | None => false
  end.

(** The value of a hexadecimal digit, [[a-f\d]] under the [i] flag. *)
Definition hexDigit (c : ascii) : option Z :=
  let n := Z.of_nat (nat_of_ascii c) in
  if (48 <=? n)%Z && (n <=? 57)%Z then Some (n - 48)%Z
  else if (97 <=? n)%Z && (n <=? 102)%Z then Some (n - 87)%Z
  else if (65 <=? n)%Z && (n <=? 70)%Z then Some (n - 55)%Z
  else None.

(** [parseInt(m, 16)] of a two-digit group. *)
Definition hexPair (a b : ascii) : option Z :=
  match hexDigit a, hexDigit b with
  | Some h, Some l => Some (16 * h + l)%Z
  | _, _ => None
  end.

(** [Math.max] and [Math.min] on numbers. *)
Definition Math_max (a b : Q) : Q := Qmax a b.
Definition Math_min (a b : Q) : Q := Qmin a b.

End Js.

(** ** Geometry: screen pixels and PDF points *)

Module Geometry.
Local Open Scope Q_scope.

(** embedAllContent, [const pdfX = box.left / scale]. *)
Definition pdfX (left scale : Q) : Q := left / scale.

(** embedAllContent,
    [const pdfY = pageHeight - (box.top / scale) - (box.height / scale)]. *)
Definition pdfY (pageHeight top height scale : Q) : Q :=
  pageHeight - (top / scale) - (height / scale).

(** Overlay positioning, [const leftPx = item.x * scale]. *)
Definition leftPx (x scale : Q) : Q := x * scale.

(** Overlay positioning, [const topPx = (pageSize.height - item.y) * scale]. *)
Definition topPx (pageHeight y scale : Q) : Q := (pageHeight - y) * scale.

(** A screen rectangle: what a box or an image carries. *)
Record ScreenPos := { sLeft : Q; sTop : Q; sHeight : Q }.
Record PdfPos := { pX : Q; pY : Q }.

Definition toPdfSpace (p : ScreenPos) (pageHeight scale : Q) : PdfPos :=
  {| pX := pdfX (sLeft p) scale;
     pY := pdfY pageHeight (sTop p) (sHeight p) scale |}.

(** The screen position (left, top) the overlay gives to a PDF point. *)
Definition toScreenSpace (q : PdfPos) (pageHeight scale : Q) : Q * Q :=
  (leftPx (pX q) scale, topPx pageHeight (pY q) scale).

(** The same four expressions on IEEE 754 doubles, the numbers the
    browser computes with. *)
Module Double.

Definition pdfX (left scale : float) : float := (left / scale)%float.

Definition pdfY (pageHeight top height scale : float) : float :=
  (pageHeight - (top / scale) - (height / scale))%float.

Definition leftPx (x scale : float) : float := (x * scale)%float.

Definition topPx (pageHeight y scale : float) : float :=
  ((pageHeight - y) * scale)%float.

End Double.

End Geometry.

(** ** The annotation model *)

Module Box.
(** A text box as the client creates it in [addTextBox]; the style fields
    and [locked] may be missing on a box that came over the wire. *)
Record t := {
  id : string;
  left : Q;
  top : Q;
  width : Q;
  height : Q;
  text : option string;
  fontSize : option Q;
  color : option string;
  isBold : option bool;
  locked : option bool
}.
End Box.

Module Patch.
(** The shape-free partial object of [update_box]: the fields it carries. *)
Record t := {
  id : option string;
  left : option Q;
  top : option Q;
  width : option Q;
  height : option Q;
  text : option string;
  fontSize : option Q;
  color : option string;
  isBold : option bool;
  locked : option bool
}.

Definition over {A} (new : option A) (old : A) : A :=
  match new with Some v => v | None => old end.

Definition over_opt {A} (new : option A) (old : option A) : option A :=
  match new with Some v => Some v | None => old end.

(** [{ ...b, ...patch }]; spreading an undefined patch adds nothing. *)
Definition spread (b : Box.t) (patch : option t) : Box.t :=
  match patch with
  | None => b
  | Some p =>
      {| Box.id := over (id p) (Box.id b);
         Box.left := over (left p) (Box.left b);
         Box.top := over (top p) (Box.top b);
         Box.width := over (width p) (Box.width b);
         Box.height := over (height p) (Box.height b);
         Box.text := over_opt (text p) (Box.text b);
         Box.fontSize := over_opt (fontSize p) (Box.fontSize b);
         Box.color := over_opt (color p) (Box.color b);
         Box.isBold := over_opt (isBold p) (Box.isBold b);
         Box.locked := over_opt (locked p) (Box.locked b) |}
  end.

(** [{ ...b, locked: v }]. *)
Definition lock (v : bool) (b : Box.t) : Box.t :=
  {| Box.id := Box.id b; Box.left := Box.left b; Box.top := Box.top b;
     Box.width := Box.width b; Box.height := Box.height b;
     Box.text := Box.text b; Box.fontSize := Box.fontSize b;
     Box.color := Box.color b; Box.isBold := Box.isBold b;
     Box.locked := Some v |}.
End Patch.

Module Image.
(** An image annotation as [addImage] creates it. *)
Record t := {
  id : string;
  left : Q;
  top : Q;
  width : Q;
  height : Q;
  imageUrl : string;
  imageBytes : list byte;
  imageType : option string
}.
End Image.

(** Page-indexed annotation lists: [{ [pageNumber]: Box[] }]. *)
Abbreviation BoxMap := (gmap Z (list Box.t)).
Abbreviation ImageMap := (gmap Z (list Image.t)).

(** [prev[pageNumber] || []]. *)
Definition page_list {A} (m : gmap Z (list A)) (pageNumber : Z) : list A :=
  default [] (m !! pageNumber).

(** [b => b.id === boxId]. *)
Definition has_id (boxId : string) (b : Box.t) : bool :=
  String.eqb (Box.id b) boxId.

(** ** The document codec (pdf-lib and pdf.js), seen from the editor *)

Module Pdf.

(** [StandardFonts], the four the editor embeds. *)
Inductive StandardFonts :=
| Helvetica | HelveticaBold | HelveticaOblique | HelveticaBoldOblique.

(** [rgb(r, g, b)]. *)
Record Color := rgb { red : Q; green : Q; blue : Q }.

Inductive ImageFormat := Png | Jpg.

(** The draw instructions the editor issues on a page. *)
Inductive DrawOp :=
| drawText (text : string) (x y size : Q) (font : StandardFonts) (color : Color)
| drawRectangle (x y width height : Q) (color : Color) (opacity : Q)
| drawImage (format : ImageFormat) (data : list byte) (x y width height : Q).

(** A page of a loaded document: its height in points and the draw
    instructions of its content, in the order they were issued. *)
Record PDFPage := { getHeight : Q; content : list DrawOp }.

(** A document handle, [pdfDoc.getPages()]. *)
Abbreviation PDFDocument := (list PDFPage).

Definition getPageCount (pdfDoc : PDFDocument) : Z := Z.of_nat (length pdfDoc).

(** [page.drawX(...)] on [pdfDoc.getPages()[pageIndex]]: the instruction is
    appended to that page's content. *)
Definition draw (pageIndex : nat) (op : DrawOp) (pdfDoc : PDFDocument)
  : PDFDocument :=
  alter (fun pg => {| getHeight := getHeight pg;
                      content := content pg ++ [op] |}) pageIndex pdfDoc.

(** pdf.js operator codes the extraction looks at. *)
Inductive OPS := setFillRGBColor | setFillGrayColor | setFillColorSpace | otherOp.

(** A pdf.js text item: [str], [transform = [a, b, c, d, e, f]], [width],
    [height], [fontName]. *)
Record RawItem := {
  raw_str : string;
  raw_d : Q;
  raw_e : Q;
  raw_f : Q;
  raw_width : Q;
  raw_height : Q;
  raw_fontName : option string
}.

(** What pdf.js reports for one page: the viewport at scale 1, the text
    content, and the operator list ([fnArray] zipped with [argsArray];
    an argument that does not parse as a number is [None]). *)
Record TextPage := {
  viewport : Q * Q;
  items : list RawItem;
  operators : list (OPS * option (list (option Q)))
}.

(** The external capability: parsing and writing documents, decoding
    images, measuring text.  [None] stands for a thrown exception or a
    rejected promise. *)
Class DocumentCodec := {
  PdfBytes : Type;
  (** the bytes of a buffer *)
  contents : PdfBytes -> list byte;
  (** an array whose buffer has been transferred to a worker: it is still
      there, with no bytes *)
  detached : PdfBytes;
  detached_empty : contents detached = [];
  (** [PDFDocument.load(bytes)] *)
  load : PdfBytes -> option PDFDocument;
  (** [pdfDoc.save()] *)
  save : PDFDocument -> PdfBytes;
  (** whether [pdfDoc.embedPng(bytes)] and [pdfDoc.embedJpg(bytes)] decode *)
  decodesPng : list byte -> bool;
  decodesJpg : list byte -> bool;
  (** whether the standard fonts can encode a string *)
  encodes : string -> bool;
  (** [font.widthOfTextAtSize(text, size)] *)
  widthOfTextAtSize : StandardFonts -> string -> Q -> Q;
  (** [pdfjsLib.getDocument({data}).promise] then [getPage(pageNum)] *)
  getPage : PdfBytes -> Z -> option TextPage
}.

(** Where a text instruction is anchored. *)
Definition text_anchor (op : DrawOp) : option (Q * Q) :=
  match op with
  | drawText _ x y _ _ _ => Some (x, y)
  | _ => None
  end.

End Pdf.
Import Pdf.

Module TextItem.
(** An extracted text block, as [extractTextItems] builds it. *)
Record t := {
  str : string;
  x : Q;
  y : Q;
  fontSize : Q;
  width : Q;
  height : Q;
  fontName : string;
  isBold : bool;
  isItalic : bool;
  color : Color
}.
End TextItem.

(** [hexToRgb01]: [#RRGGBB] to rgb in 0..1, black when the text does not
    match [/^#?([a-f\d]{2})([a-f\d]{2})([a-f\d]{2})$/i]. *)
Definition hexToRgb01 (hex : string) : Color :=
  let h := if Js.truthy_string hex then hex else "#000000"%string in
  let body := match h with String "#" r => r | _ => h end in
  match body with
  | String r1 (String r2 (String g1 (String g2 (String b1 (String b2 EmptyString))))) =>
      match Js.hexPair r1 r2, Js.hexPair g1 g2, Js.hexPair b1 b2 with
      | Some r, Some g, Some b =>
          rgb (inject_Z r / 255) (inject_Z g / 255) (inject_Z b / 255)
      | _, _, _ => rgb 0 0 0
      end
  | _ => rgb 0 0 0
  end.

(** ** The sync channel's wire protocol *)

Module Wire.

(** Events a client emits. *)
Inductive ClientEvent :=
| join | add_box | update_box | delete_box
| add_image | update_image | delete_image
| lock_box | unlock_box.

(** The object a client event carries; a field that is missing (or not
    of the expected type) is [None]. *)
Record Payload := {
  docId : option string;
  pageNumber : option Z;
  boxId : option string;
  box : option Box.t;
  patch : option Patch.t;
  imageId : option string;
  image : option Image.t
}.

(** The object of [init_state], as the client destructures it:
    [({ boxes, images })]. *)
Record InitState := {
  boxes : option BoxMap;
  images : option ImageMap
}.

(** Events the server emits. *)
Inductive ServerEvent :=
| init_state (st : InitState)
| box_added (pageNumber : Z) (box : Box.t)
| box_updated (pageNumber : Z) (boxId : string) (patch : option Patch.t)
| box_deleted (pageNumber : Z) (boxId : string)
| box_locked (boxId : string)
| box_unlocked (boxId : string).

End Wire.

(** How a handler ends: it returns, or an exception leaves it; either way
    with the state it had reached. *)
Inductive Completion (A : Type) :=
| Returned (a : A)
| Thrown (a : A).
Arguments Returned {A} a.
Arguments Thrown {A} a.

(** The state a handler has left, however it ended. *)
Definition settled {A} (c : Completion A) : A :=
  match c with
  | Returned a => a
  | Thrown a => a
  end.

(** [for (const x of l) { ... }] where the body may throw. *)
Fixpoint forEach {A S : Type} (body : S -> A -> option S) (l : list A) (s : S)
  : option S :=
  match l with
  | [] => Some s
  | a :: r =>
      match body s a with
      | Some s' => forEach body r s'
      | None => None
      end
  end.

(** [Object.keys(o)] of a page-indexed object: integer keys come in
    ascending order. *)
Definition Object_keys {A} (o : gmap Z A) : list Z :=
  merge_sort Z.le (map fst (map_to_list o)).

(** ** The client session (the state of [PdfEditor]) *)

Module Client.
Section WithCodec.
Context `{Codec : DocumentCodec}.

(** Where a document can be fetched from: a URL handed to the editor
    (the [fileUrl] prop or a persisted [pdfUrl]), the URL of an upload
    ([`${SOCKET_URL}${url}?v=${Date.now()}`]), or a blob URL
    ([URL.createObjectURL(blob)]). *)
Inductive Url :=
| PropUrl (s : string)
| ServerUrl (ts : N)
| BlobUrl (n : N).

#[global] Instance Url_eq_dec : EqDecision Url.
Proof. solve_decision. Defined.

(** The environment of the session: what [fetch] returns, the clock that
    names uploads and blob URLs, whether the upload and the persistence
    endpoints answer, and the console. *)
Record World := {
  resources : list (Url * PdfBytes);
  clock : N;
  uploadOk : bool;
  saveDocOk : bool;
  console : list string
}.

(** [fetch(src).then(r => r.arrayBuffer())]. *)
Fixpoint lookup_url (src : Url) (l : list (Url * PdfBytes)) : option PdfBytes :=
  match l with
  | [] => None
  | (u, b) :: r => if decide (u = src) then Some b else lookup_url src r
  end.

Definition fetch (w : World) (src : Url) : option PdfBytes :=
  lookup_url src (resources w).

Definition console_error (msg : string) (w : World) : World :=
  {| resources := resources w; clock := clock w; uploadOk := uploadOk w;
     saveDocOk := saveDocOk w; console := console w ++ [msg] |}.

Definition publish_at (u : Url) (b : PdfBytes) (w : World) : World :=
  {| resources := (u, b) :: resources w; clock := N.succ (clock w);
     uploadOk := uploadOk w; saveDocOk := saveDocOk w; console := console w |}.

(** [URL.createObjectURL(new Blob([bytes]))]. *)
Definition createObjectURL (b : PdfBytes) (w : World) : Url * World :=
  (BlobUrl (clock w), publish_at (BlobUrl (clock w)) b w).

(** [uploadPdfBlob(blob)]: the URL of the stored copy, or [None] when the
    request fails. *)
Definition uploadPdfBlob (b : PdfBytes) (w : World) : option Url * World :=
  if uploadOk w
  then (Some (ServerUrl (clock w)), publish_at (ServerUrl (clock w)) b w)
  else (None, w).

(** An entry of the undo history: [{ bytes, url }]. *)
Record HistoryEntry := { bytes : PdfBytes; url : option Url }.

(** The props of the component; [None] for a missing or empty value. *)
Record Props := { fileUrl : option Url; docId : option string }.

(** The toolbar state; [fontSizeInput] holds [Number(fontSizeInput)],
    [None] when that is [NaN]. *)
Record Controls := {
  scale : Q;
  fontSizeInput : option Q;
  fontColorHex : string;
  boldToggle : bool
}.

(** The state the document handlers write. *)
Record DocState := mkDoc {
  pdfBuffer : option PdfBytes;
  editedUrl : option Url;
  history : list HistoryEntry;
  historyIndex : Z;
  docVersion : N;
  pdfTextItems : list TextItem.t;
  pageSize : Q * Q;
  editBlock : option TextItem.t
}.

Record Session := {
  props : Props;
  controls : Controls;
  boxes : BoxMap;
  images : ImageMap;
  doc : DocState
}.

Definition setPdfBuffer (v : option PdfBytes) (d : DocState) : DocState :=
  mkDoc v (editedUrl d) (history d) (historyIndex d) (docVersion d)
        (pdfTextItems d) (pageSize d) (editBlock d).

Definition setEditedUrl (v : option Url) (d : DocState) : DocState :=
  mkDoc (pdfBuffer d) v (history d) (historyIndex d) (docVersion d)
        (pdfTextItems d) (pageSize d) (editBlock d).

Definition setHistory (v : list HistoryEntry) (d : DocState) : DocState :=
  mkDoc (pdfBuffer d) (editedUrl d) v (historyIndex d) (docVersion d)
        (pdfTextItems d) (pageSize d) (editBlock d).

Definition setHistoryIndex (v : Z) (d : DocState) : DocState :=
  mkDoc (pdfBuffer d) (editedUrl d) (history d) v (docVersion d)
        (pdfTextItems d) (pageSize d) (editBlock d).

(** [setDocVersion(v => v + 1)]. *)
Definition bumpDocVersion (d : DocState) : DocState :=
  mkDoc (pdfBuffer d) (editedUrl d) (history d) (historyIndex d)
        (N.succ (docVersion d)) (pdfTextItems d) (pageSize d) (editBlock d).

Definition setExtracted (sz : Q * Q) (v : list TextItem.t) (d : DocState)
  : DocState :=
  mkDoc (pdfBuffer d) (editedUrl d) (history d) (historyIndex d)
        (docVersion d) v sz (editBlock d).

Definition setEditBlock (v : option TextItem.t) (d : DocState) : DocState :=
  mkDoc (pdfBuffer d) (editedUrl d) (history d) (historyIndex d)
        (docVersion d) (pdfTextItems d) (pageSize d) v.

Definition with_doc (s : Session) (d : DocState) : Session :=
  {| props := props s; controls := controls s; boxes := boxes s;
     images := images s; doc := d |}.

Definition with_boxes (s : Session) (b : BoxMap) : Session :=
  {| props := props s; controls := controls s; boxes := b;
     images := images s; doc := doc s |}.

(** *** Text extraction *)

(** [normalizeColorValue]: clamp to 0..1, [0] for [NaN]. *)
Definition normalizeColorValue (val : option Q) : Q :=
  match val with
  | None => 0
  | Some num => Js.Math_max 0 (Js.Math_min 1 num)
  end.

(** One turn of the loop over the operator list. *)
Definition colorStep (currentColor : Color)
    (o : OPS * option (list (option Q))) : Color :=
  match o with
  | (setFillRGBColor, Some (a0 :: a1 :: a2 :: _)) =>
      rgb (normalizeColorValue a0) (normalizeColorValue a1)
          (normalizeColorValue a2)
  | (setFillGrayColor, Some (a0 :: _)) =>
      let gray := normalizeColorValue a0 in rgb gray gray gray
  | (setFillColorSpace, Some _) => rgb 0 0 0
  | _ => currentColor
  end.

Definition toTextItem (currentColor : Color) (item : RawItem) : TextItem.t :=
  let fontName :=
    Js.or_else Js.truthy_string (raw_fontName item) "Helvetica"%string in
  {| TextItem.str := raw_str item;
     TextItem.x := raw_e item;
     TextItem.y := raw_f item;
     TextItem.fontSize := Qabs (raw_d item);
     TextItem.width := raw_width item;
     TextItem.height := raw_height item;
     TextItem.fontName := fontName;
     TextItem.isBold :=
       Js.test_ci "bold" fontName || Js.test_ci "semibold" fontName
       || Js.test_ci "medium" fontName;
     TextItem.isItalic :=
       Js.test_ci "italic" fontName || Js.test_ci "oblique" fontName;
     TextItem.color := currentColor |}.

(** [extractTextItems(pdfArrayBuffer, pageNum)].  The array goes to
    [pdfjsLib.getDocument({ data })], which transfers its buffer to the
    worker; at every call it is the array the caller has just stored with
    [setPdfBuffer], so the state is left holding an array without bytes.
    The page size and the items are set when pdf.js resolves; the promise
    is rejected otherwise. *)
Definition extractTextItems (b : PdfBytes) (pageNum : Z) (d : DocState)
  : Completion DocState :=
  let handedOver := setPdfBuffer (Some detached) d in
  match getPage b pageNum with
  | None => Thrown handedOver
  | Some pg =>
      let currentColor := fold_left colorStep (operators pg) (rgb 0 0 0) in
      Returned (setExtracted (viewport pg)
                             (map (toTextItem currentColor) (items pg))
                             handedOver)
  end.

(** *** The history stack *)

(** [pushHistory(bytes, url)].  [historyIndex] is the value the calling
    handler closed over; the list is the latest one ([setHistory(prev => ...)]). *)
Definition pushHistory (historyIndex0 : Z) (newBytes : PdfBytes)
    (u : option Url) (d : DocState) : DocState :=
  let trimmed := Js.slice0 (historyIndex0 + 1) (history d) in
  let next := trimmed ++ [{| bytes := newBytes; url := u |}] in
  setHistoryIndex (Z.of_nat (length next) - 1) (setHistory next d).

Definition canUndo (d : DocState) : bool := (0 <? historyIndex d)%Z.

Definition canRedo (d : DocState) : bool :=
  (0 <=? historyIndex d)%Z
  && (historyIndex d <? Z.of_nat (length (history d)) - 1)%Z.

(** The common tail of [handleUndo] and [handleRedo]: move the cursor to
    [idx] and show that entry; reading [entry.bytes] throws when
    [history[idx]] is undefined.  The text blocks are extracted again
    from the clone (not awaited: a rejection is not the handler's). *)
Definition showEntry (idx : Z) (d : DocState) (w : World)
  : Completion (DocState * World) :=
  match Js.index (history d) idx with
  | None => Thrown (setHistoryIndex idx d, w)
  | Some entry =>
      let clonedBytes := bytes entry in
      let '(u, w1) := createObjectURL clonedBytes w in
      Returned (settled
                  (extractTextItems clonedBytes 1
                     (bumpDocVersion
                        (setEditedUrl (Some u)
                           (setPdfBuffer (Some clonedBytes)
                              (setHistoryIndex idx d))))),
                w1)
  end.

Definition handleUndo (d : DocState) (w : World)
  : Completion (DocState * World) :=
  if negb (canUndo d) then Returned (d, w)
  else showEntry (historyIndex d - 1) d w.

Definition handleRedo (d : DocState) (w : World)
  : Completion (DocState * World) :=
  if negb (canRedo d) then Returned (d, w)
  else showEntry (historyIndex d + 1) d w.

(** *** Recomposition *)

(** [!box.text || box.text.trim() === "" || box.text === "Type..."]. *)
Definition skipBox (box : Box.t) : bool :=
  match Box.text box with
  | None => true
  | Some t =>
      negb (Js.truthy_string t) || String.eqb (Js.trim t) ""
      || String.eqb t "Type..."
  end.

(** The body of [for (const box of pageBoxes)]. *)
Definition embedBox (c : Controls) (pageIndex : nat) (pageHeight : Q)
    (pdfDoc : PDFDocument) (box : Box.t) : option PDFDocument :=
  if skipBox box then Some pdfDoc
  else
    let boxFontSize :=
      Js.or_else Js.truthy_num (Box.fontSize box)
                 (Js.or_else Js.truthy_num (fontSizeInput c) 12%Q) in
    let boxColor :=
      Js.or_else Js.truthy_string (Box.color box) (fontColorHex c) in
    let boxIsBold := default (boldToggle c) (Box.isBold box) in
    let textColor := hexToRgb01 boxColor in
    let font := if boxIsBold then HelveticaBold else Helvetica in
    let pdfX := Geometry.pdfX (Box.left box) (scale c) in
    let pdfY :=
      Geometry.pdfY pageHeight (Box.top box) (Box.height box) (scale c) in
    let t := default ""%string (Box.text box) in
    if encodes t
    then Some (draw pageIndex
                    (drawText t pdfX (pdfY + boxFontSize)%Q boxFontSize font
                              textColor)
                    pdfDoc)
    else None.

(** The body of [for (const pageNum of allPages)], given what is done
    for each annotation of the page. *)
Definition onPage {A : Type}
    (body : nat -> Q -> PDFDocument -> A -> option PDFDocument)
    (byPage : gmap Z (list A)) (pdfDoc : PDFDocument) (pageNum : Z)
  : option PDFDocument :=
  let pageIndex := (pageNum - 1)%Z in
  if (0 <=? pageIndex)%Z && (pageIndex <? getPageCount pdfDoc)%Z
  then
    match pdfDoc !! Z.to_nat pageIndex with
    | Some page =>
        forEach (body (Z.to_nat pageIndex) (getHeight page))
                (page_list byPage pageNum) pdfDoc
    | None => None
    end
  else Some pdfDoc.

(** The decoder an image ends up with: the one its declared type selects
    and, in the [catch], PNG; [None] when that throws as well. *)
Definition embedImage (img : Image.t) : option ImageFormat :=
  let embedPng :=
    if decodesPng (Image.imageBytes img) then Some Png else None in
  let embedJpg :=
    if decodesJpg (Image.imageBytes img) then Some Jpg else None in
  let declared ty := match Image.imageType img with
                     | Some ty' => String.eqb ty' ty
                     | None => false
                     end in
  let first :=
    if declared "image/png"%string then embedPng
    else if declared "image/jpeg"%string || declared "image/jpg"%string
    then embedJpg
    else embedPng in
  match first with
  | Some f => Some f
  | None => embedPng
  end.

(** The body of [for (const img of imagesOnPage)]. *)
Definition embedImageOn (c : Controls) (pageIndex : nat) (pageHeight : Q)
    (pdfDoc : PDFDocument) (img : Image.t) : option PDFDocument :=
  let pdfX := Geometry.pdfX (Image.left img) (scale c) in
  let pdfY :=
    Geometry.pdfY pageHeight (Image.top img) (Image.height img) (scale c) in
  let pdfWidth := (Image.width img / scale c)%Q in
  let pdfHeight := (Image.height img / scale c)%Q in
  match embedImage img with
  | Some fmt =>
      Some (draw pageIndex
                 (drawImage fmt (Image.imageBytes img) (Js.Math_max 0 pdfX)
                            (Js.Math_max 0 pdfY) pdfWidth pdfHeight)
                 pdfDoc)
  | None => None
  end.

(** The two loops of [embedAllContent]: text boxes first, then images. *)
Definition drawAll (c : Controls) (boxesToEmbed : BoxMap)
    (imagesToEmbed : ImageMap) (pdfDoc : PDFDocument) : option PDFDocument :=
  match forEach (onPage (embedBox c) boxesToEmbed)
                (Object_keys boxesToEmbed) pdfDoc with
  | Some withBoxes =>
      forEach (onPage (embedImageOn c) imagesToEmbed)
              (Object_keys imagesToEmbed) withBoxes
  | None => None
  end.

(** What every handler does with the bytes it has saved: upload them,
    show them, push them on the history; when the upload or the
    persistence of the session throws, the same with a blob URL. *)
Definition publish (p : Props) (historyIndex0 : Z) (newBytes : PdfBytes)
    (d : DocState) (w : World) : DocState * World :=
  let local (d : DocState) (w : World) :=
    let '(u, w1) := createObjectURL newBytes w in
    (bumpDocVersion
       (pushHistory historyIndex0 newBytes (Some u)
          (setPdfBuffer (Some newBytes) (setEditedUrl (Some u) d))),
     w1) in
  match uploadPdfBlob newBytes w with
  | (Some absolute, w1) =>
      let d1 :=
        pushHistory historyIndex0 newBytes (Some absolute)
          (setPdfBuffer (Some newBytes) (setEditedUrl (Some absolute) d)) in
      if Js.truthy_opt Js.truthy_string (docId p) && negb (saveDocOk w1)
      then local d1 w1
      else (bumpDocVersion d1, w1)
  | (None, w1) => local d w1
  end.

(** [embedAllContent(pdfDoc, boxesToEmbed, imagesToEmbed)], called from a
    render whose state is [s]. *)
Definition embedAllContent (s : Session) (pdfDoc : PDFDocument)
    (boxesToEmbed : BoxMap) (imagesToEmbed : ImageMap)
    (d : DocState) (w : World) : DocState * World :=
  let failed := "Failed to embed all content:"%string in
  match drawAll (controls s) boxesToEmbed imagesToEmbed pdfDoc with
  | None => (d, console_error failed w)
  | Some drawn =>
      let newBytes := save drawn in
      let '(d1, w1) :=
        publish (props s) (historyIndex (doc s)) newBytes d w in
      match extractTextItems newBytes 1 d1 with
      | Returned d2 => (d2, w1)
      | Thrown d2 => (d2, console_error failed w1)
      end
  end.

(** [rebuildPdfWithAllContent(boxesToUse, imagesToUse)]; an argument that
    is [null] stands for the session's own map. *)
Definition rebuildPdfWithAllContent (s : Session)
    (boxesToUse : option BoxMap) (imagesToUse : option ImageMap)
    (w : World) : DocState * World :=
  let failed := "Failed to rebuild PDF with all content:"%string in
  let boxesToEmbed := default (boxes s) boxesToUse in
  let imagesToEmbed := default (images s) imagesToUse in
  let from (src : Url) :=
    match fetch w src with
    | None => (doc s, console_error failed w)
    | Some b =>
        match load b with
        | None => (doc s, console_error failed w)
        | Some pdfDoc =>
            embedAllContent s pdfDoc boxesToEmbed imagesToEmbed (doc s) w
        end
    end in
  match fileUrl (props s) with
  | Some src => from src
  | None =>
      match editedUrl (doc s) with
      | Some fallbackSrc => from fallbackSrc
      | None => (doc s, w)
      end
  end.

(** *** Inline edit of an extracted text block *)

(** [pdfBuffer.length > 6] and the first four bytes spell [%PDF]. *)
Definition hasPdfHeader (b : PdfBytes) : bool :=
  (6 <? length (contents b))%nat
  && match contents b with
     | x25 :: x50 :: x44 :: x46 :: _ => true
     | _ => false
     end.

(** [ensurePdfBytes()]: the current buffer when it looks like a PDF,
    otherwise what [editedUrl || fileUrl] serves (kept as the buffer);
    [None] when there is no source or the fetch fails. *)
Definition ensurePdfBytes (p : Props) (d : DocState) (w : World)
  : option (PdfBytes * DocState) :=
  let refetch :=
    match (match editedUrl d with Some u => Some u | None => fileUrl p end)
    with
    | None => None
    | Some src =>
        match fetch w src with
        | None => None
        | Some b => Some (b, setPdfBuffer (Some b) d)
        end
    end in
  match pdfBuffer d with
  | Some b => if hasPdfHeader b then Some (b, d) else refetch
  | None => refetch
  end.

(** The font the block's weight and style select. *)
Definition originalFont (item : TextItem.t) : StandardFonts :=
  if TextItem.isBold item && TextItem.isItalic item then HelveticaBoldOblique
  else if TextItem.isBold item then HelveticaBold
  else if TextItem.isItalic item then HelveticaOblique
  else Helvetica.

(** [normalizeColor] followed by the clamp to 0..1. *)
Definition normalizeColor (val : Q) : Q :=
  if Qle_bool val 1 then val else (val / 255)%Q.

Definition clamp01 (val : Q) : Q := Js.Math_max 0 (Js.Math_min 1 val).

Definition originalColor (item : TextItem.t) : Color :=
  rgb (clamp01 (normalizeColor (red (TextItem.color item))))
      (clamp01 (normalizeColor (green (TextItem.color item))))
      (clamp01 (normalizeColor (blue (TextItem.color item)))).

(** [item.height || (fontSizeToUse * 0.7)]. *)
Definition actualHeight (item : TextItem.t) : Q :=
  if Js.truthy_num (TextItem.height item) then TextItem.height item
  else (TextItem.fontSize item * (7 # 10))%Q.

(** The white rectangle painted over the old glyphs. *)
Definition coverRectangle (item : TextItem.t) (newStr : string) : DrawOp :=
  let font := originalFont item in
  let fontSizeToUse := TextItem.fontSize item in
  let oldTextWidth := widthOfTextAtSize font (TextItem.str item) fontSizeToUse in
  let newTextWidth := widthOfTextAtSize font newStr fontSizeToUse in
  let textWidth := (Js.Math_max oldTextWidth newTextWidth + 2)%Q in
  let baselineY := TextItem.y item in
  let coverY := (baselineY - actualHeight item * (2 # 10))%Q in
  let coverHeight := (actualHeight item * (11 # 10))%Q in
  drawRectangle (TextItem.x item - 1)%Q coverY textWidth coverHeight
                (rgb 1 1 1) 1.

(** The replacement text. *)
Definition replacementText (item : TextItem.t) (newStr : string) : DrawOp :=
  drawText newStr (TextItem.x item) (TextItem.y item) (TextItem.fontSize item)
           (originalFont item) (originalColor item).

(** [handleSaveTextEditInline(newStr)], called from a render whose state
    is [s]. *)
Definition handleSaveTextEditInline (s : Session) (newStr : string)
    (w : World) : Completion (DocState * World) :=
  match editBlock (doc s) with
  | None => Returned (doc s, w)
  | Some item =>
      match ensurePdfBytes (props s) (doc s) w with
      | None => Thrown (doc s, w)
      | Some (b, d1) =>
          match load b with
          | None => Thrown (d1, w)
          | Some pdfDoc =>
              if encodes (TextItem.str item) && encodes newStr
                 && (0 <? getPageCount pdfDoc)%Z
              then
                let edited :=
                  draw 0 (replacementText item newStr)
                       (draw 0 (coverRectangle item newStr) pdfDoc) in
                let newBytes := save edited in
                let '(d2, w2) :=
                  publish (props s) (historyIndex (doc s)) newBytes d1 w in
                let d3 := setEditBlock None d2 in
                match extractTextItems newBytes 1 d3 with
                | Returned d4 => Returned (d4, w2)
                | Thrown d4 => Thrown (d4, w2)
                end
              else Thrown (d1, w)
          end
      end
  end.

(** *** The annotation store *)

(** The state update of [updateBox] and of the [box_updated] listener. *)
Definition patchBox (pageNumber : Z) (boxId : string)
    (patch : option Patch.t) (prev : BoxMap) : BoxMap :=
  let arr := page_list prev pageNumber in
  let i := Js.findIndex (has_id boxId) arr in
  if (i <? 0)%Z then prev
  else
    let clone := alter (fun b => Patch.spread b patch) (Z.to_nat i) arr in
    <[pageNumber := clone]> prev.

(** [updateBox(pageNumber, boxId, patch)] (the throttled function): the
    session it leaves and what it emits, when a socket is connected. *)
Definition updateBox (connected : bool) (pageNumber : Z) (boxId : string)
    (patch : option Patch.t) (s : Session)
  : Session * list (Wire.ClientEvent * Wire.Payload) :=
  (with_boxes s (patchBox pageNumber boxId patch (boxes s)),
   if connected
   then [(Wire.update_box,
          {| Wire.docId := docId (props s);
             Wire.pageNumber := Some pageNumber;
             Wire.boxId := Some boxId;
             Wire.box := None;
             Wire.patch := patch;
             Wire.imageId := None;
             Wire.image := None |})]
   else []).

(** The listeners of the socket. *)
Definition listen (ev : Wire.ServerEvent) (s : Session) : Session :=
  match ev with
  | Wire.init_state st =>
      {| props := props s; controls := controls s;
         boxes := default ∅ (Wire.boxes st);
         images := default ∅ (Wire.images st);
         doc := doc s |}
  | Wire.box_added pageNumber box =>
      with_boxes s
        (<[pageNumber := page_list (boxes s) pageNumber ++ [box]]> (boxes s))
  | Wire.box_updated pageNumber boxId patch =>
      with_boxes s (patchBox pageNumber boxId patch (boxes s))
  | Wire.box_deleted pageNumber boxId =>
      with_boxes s
        (<[pageNumber :=
             List.filter (fun b => negb (has_id boxId b))
                         (page_list (boxes s) pageNumber)]> (boxes s))
  | Wire.box_locked boxId =>
      with_boxes s
        (fmap (M := gmap Z)
              (map (fun b => if has_id boxId b
                             then Patch.lock true b else b))
              (boxes s))
  | Wire.box_unlocked boxId =>
      with_boxes s
        (fmap (M := gmap Z)
              (map (fun b => if has_id boxId b
                             then Patch.lock false b else b))
              (boxes s))
  end.

(** *** Notions used to state the properties *)

(** A call of [pushHistory]: the cursor the calling handler closed over,
    the bytes and the URL. *)
Record Push := { closedOver : Z; pushed : PdfBytes; pushedUrl : option Url }.

Definition entry_of (e : Push) : HistoryEntry :=
  {| bytes := pushed e; url := pushedUrl e |}.

(** [pushHistory] called once for each element of a list, in order. *)
Definition pushes (es : list Push) (d : DocState) : DocState :=
  fold_left (fun d e => pushHistory (closedOver e) (pushed e) (pushedUrl e) d)
            es d.

(** Every push is made by a handler of a render that has seen the pushes
    before it: the cursor it closed over is the state's. *)
Fixpoint upToDate (es : list Push) (d : DocState) : Prop :=
  match es with
  | [] => True
  | e :: r =>
      closedOver e = historyIndex d
      /\ upToDate r (pushHistory (closedOver e) (pushed e) (pushedUrl e) d)
  end.

(** The document on screen: [<Document file={editedUrl || fileUrl}>]. *)
Definition shown (p : Props) (d : DocState) (w : World) : option PdfBytes :=
  match editedUrl d with
  | Some u => fetch w u
  | None =>
      match fileUrl p with
      | Some u => fetch w u
      | None => None
      end
  end.

(** The document on screen is the entry under the cursor. *)
Definition showsEntry (d : DocState) (w : World) : Prop :=
  exists e u, Js.index (history d) (historyIndex d) = Some e
              /\ editedUrl d = Some u
              /\ fetch w u = Some (bytes e).

(** The cursor is a valid index, or [-1] on an empty history. *)
Definition valid (d : DocState) : Prop :=
  (-1 <= historyIndex d < Z.of_nat (length (history d)))%Z.

(** The document a recomposition from [src] draws, when every step
    succeeds. *)
Definition recomposed (s : Session) (boxesToUse : option BoxMap)
    (imagesToUse : option ImageMap) (w : World) (src : Url)
  : option PDFDocument :=
  match fetch w src with
  | Some b =>
      match load b with
      | Some pdfDoc =>
          drawAll (controls s) (default (boxes s) boxesToUse)
                  (default (images s) imagesToUse) pdfDoc
      | None => None
      end
  | None => None
  end.

(** A colour whose components lie in 0..1. *)
Definition in_unit (q : Q) : Prop := (0 <= q /\ q <= 1)%Q.

Definition unit_color (c : Color) : Prop :=
  in_unit (red c) /\ in_unit (green c) /\ in_unit (blue c).

(** The session with other toolbar settings. *)
Definition with_controls (s : Session) (c : Controls) : Session :=
  {| props := props s; controls := c; boxes := boxes s; images := images s;
     doc := doc s |}.

End WithCodec.
End Client.

(** ** The socket server *)

Module Server.

(** An entry of [docs]: [{ boxes, pdfUrl? }]. *)
Record RoomState := { boxes : BoxMap; pdfUrl : option string }.

(** The server: the [docs] map and who has joined which room (socket,
    room). *)
Record t := {
  docs : gmap string RoomState;
  rooms : gset (nat * string)
}.

(** What a handler sends: [socket.emit] goes to the sender,
    [socket.to(room).emit] to everyone in the room but the sender. *)
Inductive Emission :=
| emit (ev : Wire.ServerEvent)
| to_room (room : string) (ev : Wire.ServerEvent).

(** The fields behind the guards [if (!docId || !pageNumber || ...) return]:
    the value when it is truthy. *)
Definition str (o : option string) : option string :=
  match o with
  | Some v => if Js.truthy_string v then Some v else None
  | None => None
  end.

Definition num (o : option Z) : option Z :=
  match o with
  | Some n => if (n =? 0)%Z then None else Some n
  | None => None
  end.

(** [docs.get(docId) || { boxes: {} }]. *)
Definition state_of (ds : gmap string RoomState) (docId : string) : RoomState :=
  default {| boxes := ∅; pdfUrl := None |} (ds !! docId).

Definition set_boxes (st : RoomState) (b : BoxMap) : RoomState :=
  {| boxes := b; pdfUrl := pdfUrl st |}.

Definition set_docs (sv : t) (ds : gmap string RoomState) : t :=
  {| docs := ds; rooms := rooms sv |}.

(** The body of each listener, on the object it destructures. *)
Definition handler (socket : nat) (ev : Wire.ClientEvent) (m : Wire.Payload)
    (sv : t) : t * list Emission :=
  match ev with
  | Wire.join =>
      match str (Wire.docId m) with
      | Some docId =>
          let ds :=
            match docs sv !! docId with
            | Some _ => docs sv
            | None => <[docId := {| boxes := ∅; pdfUrl := None |}]> (docs sv)
            end in
          ({| docs := ds; rooms := {[ (socket, docId) ]} ∪ rooms sv |},
           [emit (Wire.init_state
                    {| Wire.boxes := Some (boxes (state_of ds docId));
                       Wire.images := None |})])
      | None => (sv, [])
      end
  | Wire.add_box =>
      match str (Wire.docId m), num (Wire.pageNumber m), Wire.box m with
      | Some docId, Some pageNumber, Some box =>
          let state := state_of (docs sv) docId in
          let arr := page_list (boxes state) pageNumber in
          (set_docs sv
             (<[docId := set_boxes state
                           (<[pageNumber := arr ++ [box]]> (boxes state))]>
                (docs sv)),
           [to_room docId (Wire.box_added pageNumber box)])
      | _, _, _ => (sv, [])
      end
  | Wire.update_box =>
      match str (Wire.docId m), num (Wire.pageNumber m), str (Wire.boxId m) with
      | Some docId, Some pageNumber, Some boxId =>
          let state := state_of (docs sv) docId in
          let arr := page_list (boxes state) pageNumber in
          let i := Js.findIndex (has_id boxId) arr in
          if (i <? 0)%Z then (sv, [])
          else
            let arr' :=
              alter (fun b => Patch.spread b (Wire.patch m)) (Z.to_nat i) arr in
            (set_docs sv
               (<[docId := set_boxes state (<[pageNumber := arr']> (boxes state))]>
                  (docs sv)),
             [to_room docId
                (Wire.box_updated pageNumber boxId (Wire.patch m))])
      | _, _, _ => (sv, [])
      end
  | Wire.delete_box =>
      match str (Wire.docId m), num (Wire.pageNumber m), str (Wire.boxId m) with
      | Some docId, Some pageNumber, Some boxId =>
          let state := state_of (docs sv) docId in
          let remaining :=
            List.filter (fun b => negb (has_id boxId b))
                        (page_list (boxes state) pageNumber) in
          (set_docs sv
             (<[docId := set_boxes state
                           (<[pageNumber := remaining]> (boxes state))]>
                (docs sv)),
           [to_room docId (Wire.box_deleted pageNumber boxId)])
      | _, _, _ => (sv, [])
      end
  | Wire.lock_box =>
      match str (Wire.docId m), str (Wire.boxId m) with
      | Some docId, Some boxId => (sv, [to_room docId (Wire.box_locked boxId)])
      | _, _ => (sv, [])
      end
  | Wire.unlock_box =>
      match str (Wire.docId m), str (Wire.boxId m) with
      | Some docId, Some boxId => (sv, [to_room docId (Wire.box_unlocked boxId)])
      | _, _ => (sv, [])
      end
  | Wire.add_image | Wire.update_image | Wire.delete_image => (sv, [])
  end.

(** Whether the server registers a listener for the event. *)
Definition listens (ev : Wire.ClientEvent) : bool :=
  match ev with
  | Wire.add_image | Wire.update_image | Wire.delete_image => false
  | _ => true
  end.

(** An incoming event.  Every listener destructures its first argument
    in its parameter list, [({ docId, ... }) => ...], which throws a
    TypeError when the event carries no argument or [null] ([arg = None]);
    an event without listener is ignored. *)
Definition receive (socket : nat) (ev : Wire.ClientEvent)
    (arg : option Wire.Payload) (sv : t) : Completion (t * list Emission) :=
  if listens ev
  then match arg with
       | Some m => Returned (handler socket ev m sv)
       | None => Thrown (sv, [])
       end
  else Returned (sv, []).

(** A server that has just started: [const docs = new Map()]. *)
Definition start : t := {| docs := ∅; rooms := ∅ |}.

(** A run of the server over a sequence of incoming events, up to the
    first exception.  Nothing catches an exception of a listener: the
    Node process exits, and the [docs] map and the rooms go with it.
    [Thrown] then carries the state of a server started anew and what
    had been emitted before. *)
Fixpoint run (evs : list (nat * Wire.ClientEvent * option Wire.Payload))
    (sv : t) : Completion (t * list Emission) :=
  match evs with
  | [] => Returned (sv, [])
  | (socket, ev, arg) :: rest =>
      match receive socket ev arg sv with
      | Returned (sv1, out1) =>
          match run rest sv1 with
          | Returned (sv2, out2) => Returned (sv2, out1 ++ out2)
          | Thrown (sv2, out2) => Thrown (sv2, out1 ++ out2)
          end
      | Thrown _ => Thrown (start, [])
      end
  end.

(** The object of an [update_box] event. *)
Definition update_box_msg (docId : option string) (pageNumber : Z)
    (boxId : string) (patch : option Patch.t) : Wire.Payload :=
  {| Wire.docId := docId; Wire.pageNumber := Some pageNumber;
     Wire.boxId := Some boxId; Wire.box := None; Wire.patch := patch;
     Wire.imageId := None; Wire.image := None |}.

(** The fields a listener insists on. *)
Definition needs_docId (ev : Wire.ClientEvent) : bool := listens ev.

Definition needs_pageNumber (ev : Wire.ClientEvent) : bool :=
  match ev with
  | Wire.add_box | Wire.update_box | Wire.delete_box => true
  | _ => false
  end.

Definition needs_boxId (ev : Wire.ClientEvent) : bool :=
  match ev with
  | Wire.update_box | Wire.delete_box | Wire.lock_box | Wire.unlock_box => true
  | _ => false
  end.

(** An object that lacks a field its listener insists on. *)
Definition lacks_field (ev : Wire.ClientEvent) (m : Wire.Payload) : Prop :=
  (needs_docId ev = true /\ Wire.docId m = None)
  \/ (needs_pageNumber ev = true /\ Wire.pageNumber m = None)
  \/ (needs_boxId ev = true /\ Wire.boxId m = None)
  \/ (ev = Wire.add_box /\ Wire.box m = None).

(** *** The upload endpoint (multer) *)

(** [file.originalname], [file.mimetype] and the size of the body. *)
Record File := { originalname : string; mimetype : option string; size : N }.

(** [[a-zA-Z0-9_.-]]. *)
Definition safe_char (c : ascii) : bool :=
  let n := nat_of_ascii c in
  ((97 <=? n) && (n <=? 122) || (65 <=? n) && (n <=? 90)
   || (48 <=? n) && (n <=? 57) || (n =? 95) || (n =? 46) || (n =? 45))%nat.

(** [s.replace(/[^a-zA-Z0-9_.-]/g, "_")]. *)
Fixpoint replace_unsafe (s : string) : string :=
  match s with
  | String c r => String (if safe_char c then c else "_"%char) (replace_unsafe r)
  | EmptyString => EmptyString
  end.

(** The [filename] callback of the disk storage, at [Date.now() = ts]. *)
Definition filename (ts : N) (file : File) : string :=
  let safe := replace_unsafe (originalname file) in
  (NilEmpty.string_of_uint (N.to_uint ts) ++ "-" ++ safe)%string.

(** [fileFilter]: only PDFs. *)
Definition fileFilter (file : File) : bool :=
  String.eqb (Js.toLowerCase (default ""%string (mimetype file)))
             "application/pdf".

(** [limits: { fileSize: 100 * 1024 * 1024 }]. *)
Definition fileSize : N := 100 * 1024 * 1024.

(** [upload.single("file")]: the name the file is stored under, or [None]
    when it is refused. *)
Definition upload (ts : N) (file : File) : option string :=
  if fileFilter file && (size file <=? fileSize)%N
  then Some (filename ts file)
  else None.

(** [path.join(destination, filename)] for a normalised directory and a
    name that is a single path segment. *)
Definition stored_path (uploadsDir name : string) : string :=
  (uploadsDir ++ "/" ++ name)%string.

(** Whether a name contains a path separator ([/], or [\] on Windows). *)
Definition is_sep (c : ascii) : bool :=
  Ascii.eqb c "/" || Ascii.eqb c "\".

Fixpoint has_sep (s : string) : bool :=
  match s with
  | String c r => is_sep c || has_sep r
  | EmptyString => false
  end.

(** [path.dirname] of a path with a directory part: what precedes the
    last separator. *)
Fixpoint dirname (p : string) : string :=
  match p with
  | EmptyString => EmptyString
  | String c r => if has_sep r then String c (dirname r) else EmptyString
  end.

Fixpoint all_chars (p : ascii -> bool) (s : string) : bool :=
  match s with
  | String c r => p c && all_chars p r
  | EmptyString => true
  end.

(** [[0-9]]. *)
Definition is_digit (c : ascii) : bool :=
  let n := nat_of_ascii c in ((48 <=? n) && (n <=? 57))%nat.

End Server.

(** ** A reference codec and sample data

    A codec in which a buffer is the document it holds: what is saved
    loads back unchanged.  It is used to run the handlers on concrete
    sessions. *)

Module Sample.

(** [%PDF-1.7]. *)
Definition header : list byte := [x25; x50; x44; x46; x2d; x31; x2e; x37].

Fixpoint startsWith (sig data : list byte) : bool :=
  match sig, data with
  | [], _ => true
  | s :: sig', d :: data' => Byte.eqb s d && startsWith sig' data'
  | _ :: _, [] => false
  end.

(** The reference codec: a buffer is the document itself; the document
    without pages stands for an array without bytes, which pdf-lib does
    not load. *)
#[export] Instance codec : DocumentCodec := {|
  PdfBytes := PDFDocument;
  contents := fun b => match b with [] => [] | _ :: _ => header end;
  detached := [];
  detached_empty := eq_refl;
  load := fun b => match b with [] => None | _ :: _ => Some b end;
  save := fun d => d;
  decodesPng := startsWith [x89; x50; x4e; x47];
  decodesJpg := startsWith [xff; xd8];
  encodes := fun s =>
    forallb (fun c => (32 <=? nat_of_ascii c)%nat) (list_ascii_of_string s);
  widthOfTextAtSize := fun _ s sz =>
    (inject_Z (Z.of_nat (String.length s)) * sz * (1 # 2))%Q;
  getPage := fun b n =>
    match b with
    | pg :: _ =>
        if (n =? 1)%Z
        then Some {| viewport := (595%Q, getHeight pg); items := [];
                     operators := [] |}
        else None
    | [] => None
    end
|}.

(** A one-page document, 842 points tall, with nothing drawn on it. *)
Definition onePage : PDFDocument := [{| getHeight := 842; content := [] |}].

(** The box of the place-and-recompose scenario. *)
Definition hello : Box.t :=
  {| Box.id := "b1"; Box.left := 50; Box.top := 100; Box.width := 180;
     Box.height := 20; Box.text := Some "Hello"%string;
     Box.fontSize := Some 12%Q; Box.color := None; Box.isBold := None;
     Box.locked := None |}.

Definition toolbar : Client.Controls :=
  {| Client.scale := 1; Client.fontSizeInput := Some 12%Q;
     Client.fontColorHex := "#000000"; Client.boldToggle := false |}.

Definition original : Client.Url := Client.PropUrl "/uploads/1-form.pdf".

Definition online : Client.World :=
  {| Client.resources := [(original, onePage)]; Client.clock := 1000;
     Client.uploadOk := true; Client.saveDocOk := true;
     Client.console := [] |}.

(** The session state when the original has just been fetched: the
    buffer holds its bytes, the history its copy. *)
Definition fresh : Client.DocState :=
  Client.mkDoc (Some onePage) None
               [{| Client.bytes := onePage; Client.url := Some original |}]
               0 0 [] (595%Q, 842%Q) None.

(** The same once the text of the original has been extracted: the
    buffer has gone to pdf.js. *)
Definition loaded : Client.DocState :=
  Client.setPdfBuffer (Some detached) fresh.

Definition session (fileUrl : option Client.Url) (b : BoxMap) (i : ImageMap)
    (d : Client.DocState) : Client.Session :=
  {| Client.props := {| Client.fileUrl := fileUrl; Client.docId := None |};
     Client.controls := toolbar;
     Client.boxes := b; Client.images := i; Client.doc := d |}.

(** A box and an image to send around. *)
Definition note : Box.t :=
  {| Box.id := "b1"; Box.left := 10; Box.top := 20; Box.width := 180;
     Box.height := 20; Box.text := Some "note"%string;
     Box.fontSize := Some 12%Q; Box.color := Some "#000000"%string;
     Box.isBold := Some false; Box.locked := None |}.

Definition stamp : Image.t :=
  {| Image.id := "i1"; Image.left := 10; Image.top := 20; Image.width := 150;
     Image.height := 100; Image.imageUrl := "blob:1";
     Image.imageBytes := [x89; x50; x4e; x47];
     Image.imageType := Some "image/png"%string |}.

Definition msg (docId : string) : Wire.Payload :=
  {| Wire.docId := Some docId; Wire.pageNumber := Some 1%Z;
     Wire.boxId := None; Wire.box := None; Wire.patch := None;
     Wire.imageId := None; Wire.image := None |}.

Definition add_box_msg (docId : string) (b : Box.t) : Wire.Payload :=
  {| Wire.docId := Some docId; Wire.pageNumber := Some 1%Z;
     Wire.boxId := None; Wire.box := Some b; Wire.patch := None;
     Wire.imageId := None; Wire.image := None |}.

Definition add_image_msg (docId : string) (i : Image.t) : Wire.Payload :=
  {| Wire.docId := Some docId; Wire.pageNumber := Some 1%Z;
     Wire.boxId := None; Wire.box := None; Wire.patch := None;
     Wire.imageId := None; Wire.image := Some i |}.

(** The server after socket 1 joined room [doc-1] and added [note]. *)
Definition after_add : Server.t :=
  match Server.run [(1%nat, Wire.join, Some (msg "doc-1"));
                    (1%nat, Wire.add_box, Some (add_box_msg "doc-1" note))]
                   Server.start with
  | Returned (sv, _) => sv
  | Thrown (sv, _) => sv
  end.

(** An image declared as GIF whose bytes are not a PNG. *)
Definition gif : Image.t :=
  {| Image.id := "i0"; Image.left := 30; Image.top := 40; Image.width := 60;
     Image.height := 60; Image.imageUrl := "blob:0";
     Image.imageBytes := [x47; x49; x46; x38];
     Image.imageType := Some "image/gif"%string |}.

(** An extracted bold block in red. *)
Definition total : TextItem.t :=
  {| TextItem.str := "Total:"; TextItem.x := 100; TextItem.y := 700;
     TextItem.fontSize := 12; TextItem.width := 36; TextItem.height := 12;
     TextItem.fontName := "Helvetica-Bold"; TextItem.isBold := true;
     TextItem.isItalic := false; TextItem.color := rgb 1 0 0 |}.

End Sample.

(** ** Colours of the overlay editor *)

Module Colour.

(** [Math.round]: the nearest integer, halves upwards. *)
Definition Math_round (q : Q) : Z := Qfloor (q + (1 # 2)).

(** [n.toString(16)] for an integer [n >= 0]. *)
Definition toString16 (n : Z) : string :=
  HexadecimalString.NilEmpty.string_of_uint (N.to_hex_uint (Z.to_N n)).

(** [toHex] inside [rgbToHex]. *)
Definition toHex (n : Q) : string :=
  let hex :=
    toString16 (Math_round (Js.Math_max 0 (Js.Math_min 255 (n * 255)%Q))) in
  if (String.length hex =? 1)%nat then String "0" hex else hex.

(** [rgbToHex(r, g, b)]. *)
Definition rgbToHex (r g b : Q) : string :=
  String "#" (toHex r ++ toHex g ++ toHex b)%string.

(** The two hexadecimal digits [toHex] prints for a byte, read back. *)
Definition reads_back (v : Z) : bool :=
  match toHex (v # 255) with
  | String a (String b EmptyString) =>
      match Js.hexPair a b with
      | Some v' => (v' =? v)%Z
      | None => false
      end
  | _ => false
  end.

End Colour.

(** ** Gestures of the editor *)

Module Gesture.

(** The zoom buttons: [setScale(s => Math.max(0.5, s - 0.1))] and
    [setScale(s => Math.min(2.0, s + 0.1))]. *)
Inductive Zoom := ZoomOut | ZoomIn.

Definition zoom (s : Q) (z : Zoom) : Q :=
  match z with
  | ZoomOut => Js.Math_max (5 # 10) (s - (1 # 10))%Q
  | ZoomIn => Js.Math_min 2 (s + (1 # 10))%Q
  end.

(** [useState(1.2)]. *)
Definition initialScale : Q := 12 # 10.

(** The scale after a sequence of clicks on the zoom buttons. *)
Definition zoomed (clicks : list Zoom) : Q := fold_left zoom clicks initialScale.


(** The resize handle of an image, dragged by [dx]: the new width and
    height. *)
Definition resized (startWidth startHeight dx : Q) : Q * Q :=
  let aspectRatio := (startWidth / startHeight)%Q in
  let newWidth := Js.Math_max 50 (startWidth + dx)%Q in
  let newHeight := (newWidth / aspectRatio)%Q in
  (newWidth, newHeight).

(** The tool of the toolbar. *)
Inductive Tool := select | text | image | delete.

(** [wrap.getBoundingClientRect()] and the click. *)
Record Rect := { rect_left : Q; rect_top : Q }.
Record Click := { clientX : Q; clientY : Q }.

(** The patch of [update_image]. *)
Record ImagePatch := {
  ip_left : option Q;
  ip_top : option Q;
  ip_width : option Q;
  ip_height : option Q
}.

(** [{ ...img, ...patch }]. *)
Definition spreadImage (img : Image.t) (patch : ImagePatch) : Image.t :=
  {| Image.id := Image.id img;
     Image.left := Patch.over (ip_left patch) (Image.left img);
     Image.top := Patch.over (ip_top patch) (Image.top img);
     Image.width := Patch.over (ip_width patch) (Image.width img);
     Image.height := Patch.over (ip_height patch) (Image.height img);
     Image.imageUrl := Image.imageUrl img;
     Image.imageBytes := Image.imageBytes img;
     Image.imageType := Image.imageType img |}.

(** The state update of [updateImage]. *)
Definition patchImage (pageNumber : Z) (imageId : string)
    (patch : ImagePatch) (prev : ImageMap) : ImageMap :=
  let arr := page_list prev pageNumber in
  let i := Js.findIndex (fun img => String.eqb (Image.id img) imageId) arr in
  if (i <? 0)%Z then prev
  else
    let clone := alter (fun img => spreadImage img patch) (Z.to_nat i) arr in
    <[pageNumber := clone]> prev.

(** The state update of [deleteBox]. *)
Definition removeBox (pageNumber : Z) (boxId : string) (prev : BoxMap)
  : BoxMap :=
  let remaining :=
    List.filter (fun b => negb (has_id boxId b)) (page_list prev pageNumber) in
  <[pageNumber := remaining]> prev.

Section WithCodec.
Context `{Codec : DocumentCodec}.

(** The box [addTextBox] creates at a click. *)
Definition newTextBox (c : Client.Controls) (uuid : string) (rect : Rect)
    (e : Click) : Box.t :=
  let left := (clientX e - rect_left rect)%Q in
  let top := (clientY e - rect_top rect)%Q in
  let fontSize := Js.or_else Js.truthy_num (Client.fontSizeInput c) 12%Q in
  {| Box.id := uuid;
     Box.left := left;
     Box.top := top;
     Box.width := 180;
     Box.height := (fontSize + 8)%Q;
     Box.text := Some "Type..."%string;
     Box.fontSize := Some fontSize;
     Box.color := Some (Client.fontColorHex c);
     Box.isBold := Some (Client.boldToggle c);
     Box.locked := None |}.

(** [addTextBox(pageNumber, e, containerEl)]: nothing unless the tool is
    the text tool and the page has a wrapper element; otherwise the box
    is appended to its page and announced, when a socket is connected. *)
Definition addTextBox (tool : Tool) (wrap : option Rect) (uuid : string)
    (connected : bool) (pageNumber : Z) (e : Click) (s : Client.Session)
  : Client.Session * list (Wire.ClientEvent * Wire.Payload) :=
  match tool, wrap with
  | text, Some rect =>
      let box := newTextBox (Client.controls s) uuid rect e in
      (Client.with_boxes s
         (<[pageNumber := page_list (Client.boxes s) pageNumber ++ [box]]>
            (Client.boxes s)),
       if connected
       then [(Wire.add_box,
              {| Wire.docId := Client.docId (Client.props s);
                 Wire.pageNumber := Some pageNumber;
                 Wire.boxId := None;
                 Wire.box := Some box;
                 Wire.patch := None;
                 Wire.imageId := None;
                 Wire.image := None |})]
       else [])
  | _, _ => (s, [])
  end.

(** [deleteBox(pageNumber, boxId)]: the session it leaves and what it
    emits, before the document is rebuilt. *)
Definition deleteBox (connected : bool) (pageNumber : Z) (boxId : string)
    (s : Client.Session)
  : Client.Session * list (Wire.ClientEvent * Wire.Payload) :=
  (Client.with_boxes s (removeBox pageNumber boxId (Client.boxes s)),
   if connected
   then [(Wire.delete_box,
          {| Wire.docId := Client.docId (Client.props s);
             Wire.pageNumber := Some pageNumber;
             Wire.boxId := Some boxId;
             Wire.box := None;
             Wire.patch := None;
             Wire.imageId := None;
             Wire.image := None |})]
   else []).

End WithCodec.
End Gesture.

(** ** What a recomposition draws *)

Module Render.
Import Client.
Section WithCodec.
Context `{Codec : DocumentCodec}.

(** A page with further instructions at the end of its content. *)
Definition addOps (ops : list DrawOp) (pg : PDFPage) : PDFPage :=
  {| getHeight := getHeight pg; content := content pg ++ ops |}.

(** The instruction [embedBox] issues for a box it does not skip. *)
Definition textOf (c : Controls) (pageHeight : Q) (box : Box.t) : DrawOp :=
  let boxFontSize :=
    Js.or_else Js.truthy_num (Box.fontSize box)
               (Js.or_else Js.truthy_num (fontSizeInput c) 12%Q) in
  let boxColor :=
    Js.or_else Js.truthy_string (Box.color box) (fontColorHex c) in
  let boxIsBold := default (boldToggle c) (Box.isBold box) in
  drawText (default ""%string (Box.text box))
           (Geometry.pdfX (Box.left box) (scale c))
           (Geometry.pdfY pageHeight (Box.top box) (Box.height box) (scale c)
            + boxFontSize)%Q
           boxFontSize
           (if boxIsBold then HelveticaBold else Helvetica)
           (hexToRgb01 boxColor).

(** The instruction [embedImageOn] issues for an image embedded as [fmt]. *)
Definition imageOf (c : Controls) (pageHeight : Q) (img : Image.t)
    (fmt : ImageFormat) : DrawOp :=
  drawImage fmt (Image.imageBytes img)
            (Js.Math_max 0 (Geometry.pdfX (Image.left img) (scale c)))
            (Js.Math_max 0 (Geometry.pdfY pageHeight (Image.top img)
                                          (Image.height img) (scale c)))
            (Image.width img / scale c)%Q
            (Image.height img / scale c)%Q.

(** The text instructions of a page's boxes: the boxes that are not
    skipped, in order. *)
Definition boxOps (c : Controls) (pageHeight : Q) (l : list Box.t)
  : list DrawOp :=
  map (textOf c pageHeight) (List.filter (fun b => negb (skipBox b)) l).

(** The image instructions of a page's images, in order. *)
Definition imageOps (c : Controls) (pageHeight : Q) (l : list Image.t)
  : list DrawOp :=
  flat_map (fun img => match embedImage img with
                       | Some fmt => [imageOf c pageHeight img fmt]
                       | None => []
                       end) l.

(** The document with, on every page, the page's text instructions and
    then its image instructions after what the page had. *)
Definition recomposition (c : Controls) (boxesToEmbed : BoxMap)
    (imagesToEmbed : ImageMap) (pdfDoc : PDFDocument) : PDFDocument :=
  imap (fun i pg =>
          let pageNum := (Z.of_nat i + 1)%Z in
          addOps (boxOps c (getHeight pg) (page_list boxesToEmbed pageNum)
                  ++ imageOps c (getHeight pg)
                              (page_list imagesToEmbed pageNum)) pg)
       pdfDoc.

(** Every annotation on a page of the document can be drawn: the text of
    each box that is not skipped can be encoded and each image decodes. *)
Definition drawable (boxesToEmbed : BoxMap) (imagesToEmbed : ImageMap)
    (pdfDoc : PDFDocument) : Prop :=
  forall pageNum : Z,
    (1 <= pageNum <= getPageCount pdfDoc)%Z ->
    (forall box, In box (page_list boxesToEmbed pageNum) ->
                 skipBox box = false ->
                 encodes (default ""%string (Box.text box)) = true)
    /\ (forall img, In img (page_list imagesToEmbed pageNum) ->
                    embedImage img <> None).

(** The buffer holds the bytes of the entry under the cursor. *)
Definition showsCursor (d : DocState) : Prop :=
  exists e, Js.index (history d) (historyIndex d) = Some e
            /\ pdfBuffer d = Some (bytes e).

End WithCodec.
End Render.

(** ** The REST endpoints of the socket server *)

Module Rest.

(** The body of [POST /doc/:docId]. *)
Record DocBody := {
  body_boxes : option BoxMap;
  body_images : option ImageMap;
  body_pdfUrl : option string
}.

(** [GET /doc/:docId]: [docs.get(docId) || { boxes: {}, pdfUrl: undefined }]. *)
Definition get_doc (docId : string) (sv : Server.t) : Server.RoomState :=
  Server.state_of (Server.docs sv) docId.

(** [POST /doc/:docId]:
    [{ boxes: payload.boxes || prev.boxes || {}, pdfUrl: payload.pdfUrl ?? prev.pdfUrl }]. *)
Definition post_doc (docId : string) (payload : DocBody) (sv : Server.t)
  : Server.t :=
  let prev := Server.state_of (Server.docs sv) docId in
  let next :=
    {| Server.boxes :=
         match body_boxes payload with
         | Some b => b
         | None => Server.boxes prev
         end;
       Server.pdfUrl :=
         match body_pdfUrl payload with
         | Some u => Some u
         | None => Server.pdfUrl prev
         end |} in
  Server.set_docs sv (<[docId := next]> (Server.docs sv)).

(** What the peers of room [docId] receive of a handler's emissions. *)
Definition relayed (docId : string) (out : list Server.Emission)
  : list Wire.ServerEvent :=
  flat_map (fun e => match e with
                     | Server.to_room room ev =>
                         if String.eqb room docId then [ev] else []
                     | Server.emit _ => []
                     end) out.

(** The server handling the events a client emitted, in order. *)
Definition deliver (socket : nat)
    (msgs : list (Wire.ClientEvent * Wire.Payload)) (sv : Server.t)
  : Server.t * list Server.Emission :=
  fold_left (fun acc m =>
               let r := Server.handler socket (fst m) (snd m) (fst acc) in
               (fst r, snd acc ++ snd r))
            msgs (sv, []).



(** The boxes the server caches for a document. *)
Definition cache (docId : string) (sv : Server.t) : BoxMap :=
  Server.boxes (Server.state_of (Server.docs sv) docId).

Section WithCodec.
Context `{Codec : DocumentCodec}.

(** A peer of room [docId] listening to what a handler emitted. *)
Definition hears (docId : string) (out : list Server.Emission)
    (peer : Client.Session) : Client.Session :=
  fold_left (fun s ev => Client.listen ev s) (relayed docId out) peer.

(** The body the [beforeunload] handler posts:
    [saveDoc(docId, { boxes, images })]. *)
Definition unloadBody (s : Client.Session) : DocBody :=
  {| body_boxes := Some (Client.boxes s);
     body_images := Some (Client.images s);
     body_pdfUrl := None |}.

(** What the editor does with the answer of [loadDoc(docId)]:
    [if (state.boxes) setBoxes(state.boxes); if (state.images) ...;
     if (state.pdfUrl) setEditedUrl(`${SOCKET_URL}${state.pdfUrl}`)].
    The answer of the server has [boxes] and never has [images]. *)
Definition opened (SOCKET_URL : string) (state : Server.RoomState)
    (s : Client.Session) : Client.Session :=
  let s1 := Client.with_boxes s (Server.boxes state) in
  match Server.str (Server.pdfUrl state) with
  | Some u =>
      Client.with_doc s1
        (Client.setEditedUrl (Some (Client.PropUrl (SOCKET_URL ++ u)))
                             (Client.doc s1))
  | None => s1
  end.

End WithCodec.
End Rest.

(** ** Further sample data *)

Module Fixture.

(** A box whose text has a line break, which the reference codec cannot
    encode. *)
Definition twoLines : Box.t :=
  {| Box.id := "b3"; Box.left := 10; Box.top := 10; Box.width := 180;
     Box.height := 20;
     Box.text := Some (String "a" (String (ascii_of_nat 10) "b"));
     Box.fontSize := Some 12%Q; Box.color := None; Box.isBold := None;
     Box.locked := None |}.

(** A click at (70, 130) on a page whose wrapper starts at (20, 30). *)
Definition wrapper : Gesture.Rect :=
  {| Gesture.rect_left := 20; Gesture.rect_top := 30 |}.

Definition click : Gesture.Click :=
  {| Gesture.clientX := 70; Gesture.clientY := 130 |}.

(** A session of document [doc-1] with [Sample.note] on page 1. *)
Definition editing : Client.Session :=
  {| Client.props := {| Client.fileUrl := Some Sample.original;
                        Client.docId := Some "doc-1"%string |};
     Client.controls := Sample.toolbar;
     Client.boxes := {[ 1%Z := [Sample.note] ]};
     Client.images := ∅;
     Client.doc := Sample.fresh |}.

(** A codec that reads [page1] on page 1 of every document. *)
(** What a reader finds on a page: two items, the first in a bold font
    and written upside down, after a gray and then an out-of-range RGB
    fill colour. *)
Definition page1 : TextPage :=
  {| viewport := (595%Q, 842%Q);
     items :=
       [{| raw_str := "Total:"; raw_d := (-12)%Q; raw_e := 100;
           raw_f := 700; raw_width := 36; raw_height := 12;
           raw_fontName := Some "Helvetica-Bold"%string |};
        {| raw_str := "42"; raw_d := 12; raw_e := 140;
           raw_f := 700; raw_width := 14; raw_height := 12;
           raw_fontName := None |}];
     operators :=
       [(setFillGrayColor, Some [Some (1 # 2)]);
        (setFillRGBColor, Some [Some 1%Q; Some 0%Q; Some (3 # 2)])] |}.

Definition reader : DocumentCodec := {|
  PdfBytes := PDFDocument;
  contents := fun b => match b with [] => [] | _ :: _ => Sample.header end;
  detached := [];
  detached_empty := eq_refl;
  load := fun b => match b with [] => None | _ :: _ => Some b end;
  save := fun d => d;
  decodesPng := Sample.startsWith [x89; x50; x4e; x47];
  decodesJpg := Sample.startsWith [xff; xd8];
  encodes := fun _ => true;
  widthOfTextAtSize := fun _ _ sz => sz;
  getPage := fun b n =>
    if (n =? 1)%Z then Some page1 else None
|}.

(** A patch that moves a box. *)
Definition moveTo (x y : Q) : Patch.t :=
  {| Patch.id := None; Patch.left := Some x; Patch.top := Some y;
     Patch.width := None; Patch.height := None; Patch.text := None;
     Patch.fontSize := None; Patch.color := None; Patch.isBold := None;
     Patch.locked := None |}.

End Fixture.

(* ================================================================== *)
(** * Part II. Properties                                              *)
(* ================================================================== *)

(** ** Geometry *)

Module GeometryFacts.
Import Geometry.
Local Open Scope Q_scope.

Lemma leftPx_pdfX (left scale : Q) : ~ scale == 0 ->
  leftPx (pdfX left scale) scale == left.
Proof. intros Hs. unfold leftPx, pdfX. field. exact Hs. Qed.

Lemma topPx_pdfY (pageHeight top height scale : Q) : ~ scale == 0 ->
  topPx pageHeight (pdfY pageHeight top height scale) scale == top + height.
Proof. intros Hs. unfold topPx, pdfY. field. exact Hs. Qed.

(** C3, as the code has it: mapping a screen rectangle to PDF space and
    the result back through the overlay's transform gives its left edge
    again, and its top edge plus its height, that is its bottom edge; the
    rectangle's own top is recovered exactly when its height is zero. *)
Theorem screen_pdf_screen_is_bottom_edge (p : ScreenPos) (pageHeight scale : Q) :
  0 < scale ->
  let back := toScreenSpace (toPdfSpace p pageHeight scale) pageHeight scale in
  fst back == sLeft p
  /\ snd back == sTop p + sHeight p
  /\ (snd back == sTop p <-> sHeight p == 0).
Proof.
  intros Hpos back.
  assert (Hs : ~ scale == 0) by (intros E; rewrite E in Hpos; discriminate).
  assert (Hl : fst back == sLeft p) by (apply leftPx_pdfX, Hs).
  assert (Ht : snd back == sTop p + sHeight p) by (apply topPx_pdfY, Hs).
  repeat split; try assumption.
  - intros E. rewrite E in Ht. lra.
  - intros E. rewrite Ht, E. ring.
Qed.

Lemma screen_pdf_screen_witness :
  let p := {| sLeft := 50; sTop := 100; sHeight := 20 |} in
  let back := toScreenSpace (toPdfSpace p 842 (12 # 10)) 842 (12 # 10) in
  fst back == 50 /\ snd back == 100 + 20 /\ (snd back == 100 <-> 20 == 0).
Proof.
  apply (screen_pdf_screen_is_bottom_edge
           {| sLeft := 50; sTop := 100; sHeight := 20 |} 842 (12 # 10)).
  reflexivity.
Defined.

(** C3, as stated, fails: at scale 1 on an 842 point page the rectangle
    at (50, 100) of height 20 comes back at (50, 120); on doubles as well,
    where at the default scale 1.2 its top comes back more than 19 pixels
    off. *)
Lemma screen_pdf_screen_not_identity :
  let scale12 := 0x1.3333333333333p+0%float in
  let p := {| sLeft := 50; sTop := 100; sHeight := 20 |} in
  let back := toScreenSpace (toPdfSpace p 842 1) 842 1 in
  (fst back == 50 /\ snd back == 120 /\ ~ snd back == sTop p)
  /\ Double.topPx 842 (Double.pdfY 842 100 20 1) 1 = 120%float
  /\ PrimFloat.ltb 19 (PrimFloat.abs
                         (Double.topPx 842 (Double.pdfY 842 100 20 scale12)
                                       scale12
                          - 100)%float) = true.
Proof.
  split; [vm_compute; repeat split; discriminate|].
  split; reflexivity.
Qed.

End GeometryFacts.

(** ** The history stack *)

Module HistoryFacts.
Import Client.
Section WithCodec.
Context `{Codec : DocumentCodec}.

Lemma slice0_firstn {A} (e : Z) (l : list A) :
  (0 <= e)%Z -> Js.slice0 e l = firstn (Z.to_nat e) l.
Proof. intros He. unfold Js.slice0. destruct (Z.ltb_spec e 0); [lia | done]. Qed.

Lemma history_pushHistory (historyIndex0 : Z) (b : PdfBytes) (u : option Url)
    (d : DocState) :
  (-1 <= historyIndex0)%Z ->
  history (pushHistory historyIndex0 b u d)
  = firstn (Z.to_nat (historyIndex0 + 1)) (history d)
    ++ [{| bytes := b; url := u |}].
Proof. intros H. unfold pushHistory. simpl. rewrite slice0_firstn by lia. done. Qed.

Lemma historyIndex_pushHistory (historyIndex0 : Z) (b : PdfBytes)
    (u : option Url) (d : DocState) :
  historyIndex (pushHistory historyIndex0 b u d)
  = (Z.of_nat (length (history (pushHistory historyIndex0 b u d))) - 1)%Z.
Proof. reflexivity. Qed.

Lemma push_at_end (b : PdfBytes) (u : option Url) (d : DocState) :
  historyIndex d = (Z.of_nat (length (history d)) - 1)%Z ->
  history (pushHistory (historyIndex d) b u d)
  = history d ++ [{| bytes := b; url := u |}].
Proof.
  intros H. rewrite history_pushHistory by lia. rewrite H.
  replace (Z.to_nat _) with (length (history d)) by lia.
  by rewrite firstn_all.
Qed.

Lemma pushes_at_end (es : list Push) (d : DocState) :
  historyIndex d = (Z.of_nat (length (history d)) - 1)%Z ->
  upToDate es d ->
  history (pushes es d) = history d ++ map entry_of es
  /\ historyIndex (pushes es d)
     = (Z.of_nat (length (history (pushes es d))) - 1)%Z.
Proof.
  revert d. induction es as [|e es IH]; intros d H Hup.
  - simpl. by rewrite app_nil_r.
  - destruct Hup as [Hc Hup].
    change (pushes (e :: es) d)
      with (pushes es (pushHistory (closedOver e) (pushed e) (pushedUrl e) d)).
    destruct (IH (pushHistory (closedOver e) (pushed e) (pushedUrl e) d))
      as [Hh Hi]; [apply historyIndex_pushHistory | exact Hup |].
    split; [|exact Hi].
    rewrite Hh, Hc, push_at_end by exact H.
    simpl. by rewrite <- app_assoc.
Qed.

(** Two pushes by one handler: the second trims at the same cursor and
    drops what the first appended. *)
Lemma pushHistory_twice (historyIndex0 : Z) (b b2 : PdfBytes)
    (u u2 : option Url) (d : DocState) :
  (-1 <= historyIndex0 < Z.of_nat (length (history d)))%Z ->
  history (pushHistory historyIndex0 b2 u2 (pushHistory historyIndex0 b u d))
  = firstn (Z.to_nat (historyIndex0 + 1)) (history d)
    ++ [{| bytes := b2; url := u2 |}].
Proof.
  intros H. rewrite !history_pushHistory by lia.
  rewrite firstn_app, firstn_firstn, Nat.min_id, length_firstn.
  replace (Z.to_nat (historyIndex0 + 1) - _)%nat with 0%nat by lia.
  simpl. by rewrite app_nil_r.
Qed.

Lemma index_lookup {A} (l : list A) (i : Z) :
  (0 <= i < Z.of_nat (length l))%Z -> exists a, Js.index l i = Some a.
Proof.
  intros H. unfold Js.index. destruct (Z.ltb_spec i 0); [lia|].
  destruct (lookup_lt_is_Some_2 l (Z.to_nat i)) as [a Ha]; [lia|]. eauto.
Qed.

(** What the text extraction leaves of the state, however it ends. *)
Lemma extractTextItems_keeps (b : PdfBytes) (pageNum : Z) (d : DocState) :
  let d' := settled (extractTextItems b pageNum d) in
  pdfBuffer d' = Some detached
  /\ editedUrl d' = editedUrl d
  /\ history d' = history d
  /\ historyIndex d' = historyIndex d
  /\ docVersion d' = docVersion d
  /\ editBlock d' = editBlock d.
Proof.
  unfold extractTextItems. by destruct (getPage b pageNum).
Qed.

(** What [showEntry] leaves, whatever the text extraction finds: the
    cursor on the entry, the entry's bytes at a new blob URL, which is
    the one shown, and a buffer that has gone to pdf.js. *)
Lemma showEntry_found (idx : Z) (d : DocState) (w : World) (e : HistoryEntry) :
  Js.index (history d) idx = Some e ->
  exists d' w' u, showEntry idx d w = Returned (d', w')
    /\ historyIndex d' = idx /\ history d' = history d
    /\ editedUrl d' = Some u /\ fetch w' u = Some (bytes e)
    /\ pdfBuffer d' = Some detached.
Proof.
  intros H. unfold showEntry, createObjectURL. rewrite H.
  eexists _, _, _. split; [reflexivity|].
  match goal with
  | |- context [extractTextItems ?b ?n ?d0] =>
      destruct (extractTextItems_keeps b n d0) as (Hb & Hu & Hh & Hi & _)
  end.
  rewrite Hb, Hu, Hh, Hi. repeat split.
  unfold fetch, publish_at. simpl. by rewrite decide_True.
Qed.

(** C4, as the code has it.  From an empty history, N pushes, each made
    by a handler whose render has seen the pushes before it, leave the
    cursor at N-1 with nothing to redo; a push keeps the entries up to the
    cursor its handler closed over, drops the rest and appends, so that
    two pushes by one handler leave one new entry; undo at the first entry
    and redo at the last change nothing; and after an undo, redo then undo
    puts the bytes of the entry before the cursor on screen again. *)
Theorem history_contract (p : Props) (d0 d : DocState) (w : World)
    (es : list Push) (historyIndex0 : Z) (b b2 : PdfBytes)
    (u u2 : option Url) :
  let empty := setHistoryIndex (-1) (setHistory [] d0) in
  let atFirst := setHistoryIndex 0 d0 in
  let atLast := setHistoryIndex (Z.of_nat (length (history d0)) - 1) d0 in
  (upToDate es empty ->
     historyIndex (pushes es empty) = (Z.of_nat (length es) - 1)%Z
     /\ history (pushes es empty) = map entry_of es
     /\ canRedo (pushes es empty) = false)
  /\ ((-1 <= historyIndex0)%Z ->
        history (pushHistory historyIndex0 b u d)
        = firstn (Z.to_nat (historyIndex0 + 1)) (history d)
          ++ [{| bytes := b; url := u |}]
        /\ historyIndex (pushHistory historyIndex0 b u d)
           = (Z.of_nat (length (history (pushHistory historyIndex0 b u d))) - 1)%Z
        /\ canRedo (pushHistory historyIndex0 b u d) = false)
  /\ ((-1 <= historyIndex0 < Z.of_nat (length (history d)))%Z ->
        history (pushHistory historyIndex0 b2 u2
                             (pushHistory historyIndex0 b u d))
        = firstn (Z.to_nat (historyIndex0 + 1)) (history d)
          ++ [{| bytes := b2; url := u2 |}])
  /\ handleUndo atFirst w = Returned (atFirst, w)
  /\ handleRedo atLast w = Returned (atLast, w)
  /\ (valid d -> canUndo d = true ->
        exists prior d1 w1 d2 w2 d3 w3,
          Js.index (history d) (historyIndex d - 1) = Some prior
          /\ handleUndo d w = Returned (d1, w1)
          /\ handleRedo d1 w1 = Returned (d2, w2)
          /\ handleUndo d2 w2 = Returned (d3, w3)
          /\ historyIndex d2 = historyIndex d
          /\ historyIndex d3 = (historyIndex d - 1)%Z
          /\ history d3 = history d
          /\ shown p d1 w1 = Some (bytes prior)
          /\ shown p d3 w3 = Some (bytes prior)).
Proof.
  intros empty atFirst atLast.
  repeat apply conj.
  - intros Hup. destruct (pushes_at_end es empty) as [H1 H2]; [done|done|].
    simpl in H1. split; [|split].
    + rewrite H2, H1, length_map. done.
    + exact H1.
    + unfold canRedo. rewrite H2. apply andb_false_iff. right. lia.
  - intros H0. split; [|split].
    + apply history_pushHistory. exact H0.
    + apply historyIndex_pushHistory.
    + unfold canRedo. rewrite historyIndex_pushHistory.
      apply andb_false_iff. right. lia.
  - apply pushHistory_twice.
  - reflexivity.
  - unfold handleRedo, canRedo. simpl.
    replace (_ - 1 <? _)%Z with false by lia.
    by rewrite andb_false_r.
  - intros Hv Hu. unfold valid in Hv. unfold canUndo in Hu.
    assert (Hpos : (0 < historyIndex d)%Z) by lia.
    destruct (index_lookup (history d) (historyIndex d - 1)) as [prior Hp]; [lia|].
    destruct (index_lookup (history d) (historyIndex d)) as [cur Hc]; [lia|].
    destruct (showEntry_found _ d w prior Hp)
      as (d1 & w1 & v1 & E1 & I1 & H1 & U1 & F1 & _).
    assert (Hc1 : Js.index (history d1) (historyIndex d1 + 1) = Some cur).
    { rewrite H1, I1. replace (_ - 1 + 1)%Z with (historyIndex d) by lia. done. }
    destruct (showEntry_found _ d1 w1 cur Hc1)
      as (d2 & w2 & v2 & E2 & I2 & H2 & _).
    assert (Hp2 : Js.index (history d2) (historyIndex d2 - 1) = Some prior).
    { rewrite H2, H1, I2, I1.
      replace (_ - 1 + 1 - 1)%Z with (historyIndex d - 1)%Z by lia. done. }
    destruct (showEntry_found _ d2 w2 prior Hp2)
      as (d3 & w3 & v3 & E3 & I3 & H3 & U3 & F3 & _).
    exists prior, d1, w1, d2, w2, d3, w3.
    split; [done|]. split.
    { unfold handleUndo, canUndo. replace (0 <? _)%Z with true by lia. done. }
    split.
    { unfold handleRedo, canRedo. rewrite I1, H1.
      replace (0 <=? _)%Z with true by lia.
      replace (_ <? _)%Z with true by lia. simpl. rewrite <- I1. done. }
    split.
    { unfold handleUndo, canUndo. rewrite I2, I1.
      replace (0 <? _)%Z with true by lia. simpl.
      rewrite <- I1, <- I2. done. }
    unfold shown. rewrite U1, U3.
    repeat split; try done; try lia.
    by rewrite H3, H2, H1.
Qed.

End WithCodec.

#[local] Existing Instance Sample.codec.

(** The contract on three pushes, each from a new render, and on the
    history of three entries they leave. *)
Lemma history_contract_witness :
  let p := {| fileUrl := Some Sample.original; docId := None |} in
  let empty := setHistoryIndex (-1) (setHistory [] Sample.loaded) in
  let es := [{| closedOver := (-1)%Z; pushed := Sample.onePage;
                pushedUrl := Some Sample.original |};
             {| closedOver := 0%Z; pushed := Sample.onePage ++ Sample.onePage;
                pushedUrl := None |};
             {| closedOver := 1%Z; pushed := Sample.onePage;
                pushedUrl := None |}] in
  let d := pushes es empty in
  (historyIndex d = 2%Z /\ history d = map entry_of es /\ canRedo d = false)
  /\ (history (pushHistory 0 (Sample.onePage : @PdfBytes Sample.codec) None d)
      = firstn 1 (history d) ++ [{| bytes := Sample.onePage; url := None |}]
      /\ historyIndex (pushHistory 0 (Sample.onePage : @PdfBytes Sample.codec)
                                   None d) = 1%Z
      /\ length (history
                   (pushHistory 0 (Sample.onePage ++ Sample.onePage
                                   : @PdfBytes Sample.codec)
                                (Some (BlobUrl 7))
                                (pushHistory 0 Sample.onePage None d)))
         = 2%nat)
  /\ exists prior d1 w1 d2 w2 d3 w3,
       Js.index (history d) (historyIndex d - 1) = Some prior
       /\ handleUndo d Sample.online = Returned (d1, w1)
       /\ handleRedo d1 w1 = Returned (d2, w2)
       /\ handleUndo d2 w2 = Returned (d3, w3)
       /\ historyIndex d2 = historyIndex d
       /\ historyIndex d3 = (historyIndex d - 1)%Z
       /\ history d3 = history d
       /\ shown p d1 w1 = Some (bytes prior)
       /\ shown p d3 w3 = Some (bytes prior).
Proof.
  intros p empty es d.
  assert (Hup : upToDate es empty) by (repeat split).
  assert (Hv : valid d) by (unfold valid; simpl; lia).
  assert (Hu : canUndo d = true) by reflexivity.
  pose proof (history_contract p Sample.loaded d Sample.online es 0
                               Sample.onePage (Sample.onePage ++ Sample.onePage)
                               None (Some (BlobUrl 7))) as H.
  cbv zeta in H. fold empty in H.
  split; [exact (proj1 H Hup)|]. split.
  - destruct (proj1 (proj2 H)) as (Hh & Hi & _); [lia|].
    split; [exact Hh|]. split; [reflexivity|].
    rewrite (proj1 (proj2 (proj2 H))) by (simpl; lia). reflexivity.
  - exact (proj2 (proj2 (proj2 (proj2 (proj2 H)))) Hv Hu).
Defined.

(** C4, as stated, fails.  Two pushes by one handler trim at the same
    cursor, so the second drops what the first appended: from an empty
    history the cursor is 0 after two pushes, not 1.  The handlers do
    this when the upload succeeds and persisting the session then
    fails. *)
Lemma two_pushes_from_one_handler :
  let empty := setHistoryIndex (-1) (setHistory [] Sample.loaded) in
  let es := [{| closedOver := (-1)%Z; pushed := Sample.onePage;
                pushedUrl := Some (ServerUrl 5) |};
             {| closedOver := (-1)%Z; pushed := Sample.onePage;
                pushedUrl := Some (BlobUrl 6) |}] in
  let r := publish {| fileUrl := Some Sample.original;
                      docId := Some "doc-1"%string |}
                   (-1) Sample.onePage empty
                   {| resources := []; clock := 5; uploadOk := true;
                      saveDocOk := false; console := [] |} in
  historyIndex (pushes es empty) = 0%Z
  /\ length (history (pushes es empty)) = 1%nat
  /\ historyIndex (pushes es empty) <> (Z.of_nat (length es) - 1)%Z
  /\ history (fst r) = history (pushes es empty).
Proof. vm_compute. repeat split. discriminate. Qed.

End HistoryFacts.

(** ** The upload endpoint *)

Module UploadFacts.
Import Server.

Lemma all_chars_app (p : ascii -> bool) (s t : string) :
  all_chars p (s ++ t)%string = all_chars p s && all_chars p t.
Proof. induction s as [|c s IH]; simpl; [done|]. by rewrite IH, andb_assoc. Qed.

Lemma all_chars_weaken (p q : ascii -> bool) (s : string) :
  (forall c, p c = true -> q c = true) ->
  all_chars p s = true -> all_chars q s = true.
Proof.
  intros Hpq. induction s as [|c s IH]; simpl; [done|].
  intros [Hc Hs]%andb_true_iff. rewrite (Hpq c Hc). simpl. auto.
Qed.

Lemma digits_of_uint (u : uint) :
  all_chars is_digit (NilEmpty.string_of_uint u) = true.
Proof. induction u; simpl; auto. Qed.

Lemma N_to_uint_nonnil (n : N) : N.to_uint n <> Nil.
Proof. destruct n; simpl; [discriminate|]. apply Unsigned.to_uint_nonnil. Qed.

Lemma string_of_uint_nonempty (u : uint) :
  u <> Nil -> NilEmpty.string_of_uint u <> EmptyString.
Proof. destruct u; simpl; congruence. Qed.

Lemma digit_is_safe (c : ascii) : is_digit c = true -> safe_char c = true.
Proof.
  unfold is_digit, safe_char. cbv zeta. intros ->.
  rewrite !orb_true_r. by rewrite ?orb_true_l.
Qed.

Lemma replace_unsafe_safe (s : string) :
  all_chars safe_char (replace_unsafe s) = true.
Proof.
  induction s as [|c s IH]; simpl; [done|].
  rewrite IH, andb_true_r. destruct (safe_char c) eqn:E; [exact E | reflexivity].
Qed.

Lemma replace_unsafe_length (s : string) :
  String.length (replace_unsafe s) = String.length s.
Proof. induction s as [|c s IH]; simpl; congruence. Qed.

Lemma replace_unsafe_get (s : string) (i : nat) :
  String.get i (replace_unsafe s)
  = option_map (fun c => if safe_char c then c else "_"%char) (String.get i s).
Proof.
  revert i. induction s as [|c s IH]; intros i; simpl; [done|].
  destruct i; [done | apply IH].
Qed.

Lemma safe_is_not_sep (c : ascii) : safe_char c = true -> is_sep c = false.
Proof.
  intros H. unfold is_sep.
  destruct (Ascii.eqb_spec c "/") as [->|_]; [discriminate H|].
  destruct (Ascii.eqb_spec c "\") as [->|_]; [discriminate H|]. done.
Qed.

Lemma safe_has_no_sep (s : string) :
  all_chars safe_char s = true -> has_sep s = false.
Proof.
  induction s as [|c s IH]; simpl; [done|].
  intros [Hc Hs]%andb_true_iff. by rewrite (safe_is_not_sep c Hc), IH.
Qed.

Lemma has_sep_app_slash (s t : string) : has_sep (s ++ "/" ++ t)%string = true.
Proof. induction s as [|c s IH]; simpl; [done|]. rewrite IH. apply orb_true_r. Qed.

Lemma dirname_stored_path (dir name : string) :
  has_sep name = false -> dirname (stored_path dir name) = dir.
Proof.
  intros Hn. unfold stored_path.
  induction dir as [|c dir IH].
  - change (dirname (String "/" name) = ""%string). simpl. by rewrite Hn.
  - change (dirname (String c (dir ++ "/" ++ name)%string) = String c dir).
    simpl dirname. rewrite has_sep_app_slash. by rewrite IH.
Qed.

(** C10.  A file the endpoint accepts is stored under the decimal
    timestamp, a hyphen, and the original name in which every character
    outside [[a-zA-Z0-9_.-]] is an underscore; that name has no path
    separator, so the stored path lies directly in the uploads directory. *)
Theorem stored_name_stays_in_uploads (ts : N) (file : File) (name : string) :
  upload ts file = Some name ->
  let stamp := NilEmpty.string_of_uint (N.to_uint ts) in
  let safe := replace_unsafe (originalname file) in
  name = (stamp ++ "-" ++ safe)%string
  /\ stamp <> EmptyString
  /\ all_chars is_digit stamp = true
  /\ String.length safe = String.length (originalname file)
  /\ (forall i, String.get i safe
                = option_map (fun c => if safe_char c then c else "_"%char)
                             (String.get i (originalname file)))
  /\ all_chars safe_char name = true
  /\ has_sep name = false
  /\ forall uploadsDir, dirname (stored_path uploadsDir name) = uploadsDir.
Proof.
  intros Hup stamp safe.
  unfold upload in Hup. destruct (_ && _); [|discriminate].
  injection Hup as <-. fold stamp. unfold filename. fold safe. fold stamp.
  assert (Hall : all_chars safe_char (stamp ++ "-" ++ safe)%string = true).
  { rewrite !all_chars_app. unfold safe. rewrite replace_unsafe_safe.
    rewrite (all_chars_weaken is_digit safe_char stamp digit_is_safe)
      by apply digits_of_uint.
    reflexivity. }
  repeat split.
  - apply string_of_uint_nonempty, N_to_uint_nonnil.
  - apply digits_of_uint.
  - apply replace_unsafe_length.
  - intros i. apply replace_unsafe_get.
  - exact Hall.
  - by apply safe_has_no_sep.
  - intros uploadsDir. by apply dirname_stored_path, safe_has_no_sep.
Qed.

Lemma stored_name_witness :
  let file := {| originalname := "../../etc/pass wd.pdf";
                 mimetype := Some "application/PDF"%string; size := 2048 |} in
  upload 1700000000000 file = Some "1700000000000-.._.._etc_pass_wd.pdf"%string
  /\ has_sep "1700000000000-.._.._etc_pass_wd.pdf" = false
  /\ dirname (stored_path "/srv/uploads" "1700000000000-.._.._etc_pass_wd.pdf")
     = "/srv/uploads"%string.
Proof.
  intros file.
  assert (Hup : upload 1700000000000 file
                = Some "1700000000000-.._.._etc_pass_wd.pdf"%string)
    by reflexivity.
  destruct (stored_name_stays_in_uploads _ _ _ Hup)
    as (_ & _ & _ & _ & _ & _ & Hsep & Hdir).
  split; [exact Hup|]. split; [exact Hsep | apply Hdir].
Defined.

End UploadFacts.

(** ** The sync channel *)

Module SyncFacts.

Lemma findIndex_from_absent {A} (p : A -> bool) (l : list A) (i : Z) :
  (forall a, In a l -> p a = false) -> Js.findIndex_from p l i = (-1)%Z.
Proof.
  revert i. induction l as [|x l IH]; intros i H; simpl; [done|].
  rewrite (H x) by (left; done). apply IH. intros a Ha. apply H. by right.
Qed.

Lemma findIndex_unknown_id (boxId : string) (l : list Box.t) :
  (forall b, In b l -> Box.id b <> boxId) ->
  Js.findIndex (has_id boxId) l = (-1)%Z.
Proof.
  intros H. apply findIndex_from_absent. intros b Hb. unfold has_id.
  apply String.eqb_neq. by apply H.
Qed.

(** An event whose object lacks a required field is dropped: the server
    keeps its state and emits nothing. *)
Lemma incomplete_object_is_dropped (socket : nat) (ev : Wire.ClientEvent)
    (m : Wire.Payload) (sv : Server.t) :
  Server.lacks_field ev m ->
  Server.receive socket ev (Some m) sv = Returned (sv, []).
Proof.
  unfold Server.lacks_field, Server.receive.
  intros [[Hn H]|[[Hn H]|[[Hn H]|[E H]]]];
    [destruct ev; try discriminate Hn ..| subst ev];
    simpl; rewrite ?H; simpl; try reflexivity;
    repeat (match goal with
            | |- context [match ?x with _ => _ end] => destruct x
            end; try reflexivity).
Qed.

Section WithCodec.
Context `{Codec : DocumentCodec}.

(** C7, as the code has it.  Updating a box by an identifier that no
    box of the page has: the lookup gives [-1]; the client's updater and
    its [box_updated] listener return the map they were given, the
    server's handler leaves its state as it is and relays nothing, and
    nothing is raised or reported on either side.  The client's
    [updateBox] sends its [update_box] event all the same, whenever a
    socket is connected. *)
Theorem update_of_unknown_box_is_noop (pageNumber : Z) (boxId : string)
    (patch : option Patch.t) (s : Client.Session) (connected : bool)
    (sv : Server.t) (socket : nat) (docId : string) :
  (forall b, In b (page_list (Client.boxes s) pageNumber) -> Box.id b <> boxId) ->
  (forall b,
      In b (page_list (Server.boxes (Server.state_of (Server.docs sv) docId))
                      pageNumber) ->
      Box.id b <> boxId) ->
  Js.findIndex (has_id boxId) (page_list (Client.boxes s) pageNumber) = (-1)%Z
  /\ Client.patchBox pageNumber boxId patch (Client.boxes s) = Client.boxes s
  /\ fst (Client.updateBox connected pageNumber boxId patch s) = s
  /\ Client.listen (Wire.box_updated pageNumber boxId patch) s = s
  /\ Server.receive socket Wire.update_box
       (Some (Server.update_box_msg (Some docId) pageNumber boxId patch)) sv
     = Returned (sv, [])
  /\ snd (Client.updateBox connected pageNumber boxId patch s)
     = (if connected
        then [(Wire.update_box,
               Server.update_box_msg (Client.docId (Client.props s))
                                     pageNumber boxId patch)]
        else [])
  /\ (forall (other : Server.t),
        docId <> EmptyString -> pageNumber <> 0%Z -> boxId <> EmptyString ->
        let arr := page_list (Rest.cache docId other) pageNumber in
        let i := Js.findIndex (has_id boxId) arr in
        (0 <= i)%Z ->
        let r := Server.handler socket Wire.update_box
                   (Server.update_box_msg (Some docId) pageNumber boxId patch)
                   other in
        page_list (Rest.cache docId (fst r)) pageNumber
        = alter (fun b => Patch.spread b patch) (Z.to_nat i) arr
        /\ snd r = [Server.to_room docId
                      (Wire.box_updated pageNumber boxId patch)]).
Proof.
  intros Hc Hs.
  pose proof (findIndex_unknown_id _ _ Hc) as Ic.
  pose proof (findIndex_unknown_id _ _ Hs) as Is.
  assert (Hp : Client.patchBox pageNumber boxId patch (Client.boxes s)
               = Client.boxes s)
    by (unfold Client.patchBox; rewrite Ic; reflexivity).
  split; [exact Ic|]. split; [exact Hp|]. split; [|split; [|split; [|split]]].
  - unfold Client.updateBox. simpl. rewrite Hp. by destruct s.
  - simpl. rewrite Hp. by destruct s.
  - unfold Server.receive. simpl.
    destruct (Js.truthy_string docId); [|reflexivity].
    destruct (pageNumber =? 0)%Z; [reflexivity|].
    destruct (Js.truthy_string boxId); [|reflexivity].
    rewrite Is. reflexivity.
  - reflexivity.
  - intros other Hd Hpg Hid arr i Hi r. subst r.
    unfold Server.handler, Server.update_box_msg.
    cbn [Wire.docId Wire.pageNumber Wire.boxId Wire.patch].
    unfold Server.str, Server.num, Js.truthy_string.
    rewrite (proj2 (String.eqb_neq docId "") Hd).
    rewrite (proj2 (String.eqb_neq boxId "") Hid).
    rewrite (proj2 (Z.eqb_neq pageNumber 0) Hpg). cbn [negb].
    fold (Rest.cache docId other). fold arr. fold i.
    destruct (Z.ltb_spec i 0); [lia|].
    cbn [fst snd Server.set_docs Server.docs]. split; [|reflexivity].
    unfold Rest.cache, Server.set_docs. cbn [Server.docs].
    unfold Server.state_of at 1.
    rewrite lookup_insert_eq. cbn [default Server.set_boxes Server.boxes].
    unfold id, page_list. simpl. by rewrite lookup_insert_eq.
Qed.

(** C5, as the code has it.  A join with a non-empty document identifier
    enrols the socket in that room, creates the cache entry when there is
    none, and answers the sender with [init_state] carrying the cached
    boxes and no images field; the client then takes the boxes and an
    empty image map. *)
Theorem join_replies_with_cached_boxes (socket : nat) (m : Wire.Payload)
    (docId : string) (sv : Server.t) (s : Client.Session) :
  Server.str (Wire.docId m) = Some docId ->
  exists (sv' : Server.t) (st : Server.RoomState),
    let reply := Wire.init_state {| Wire.boxes := Some (Server.boxes st);
                                    Wire.images := None |} in
    Server.receive socket Wire.join (Some m) sv
    = Returned (sv', [Server.emit reply])
    /\ Server.rooms sv' = {[ (socket, docId) ]} ∪ Server.rooms sv
    /\ (socket, docId) ∈ Server.rooms sv'
    /\ Server.docs sv' !! docId = Some st
    /\ (is_Some (Server.docs sv !! docId) -> Server.docs sv' = Server.docs sv)
    /\ (Server.docs sv !! docId = None ->
          st = {| Server.boxes := ∅; Server.pdfUrl := None |}
          /\ Server.docs sv' = <[docId := st]> (Server.docs sv))
    /\ Client.boxes (Client.listen reply s) = Server.boxes st
    /\ Client.images (Client.listen reply s) = ∅.
Proof.
  intros Hd. unfold Server.receive. simpl. rewrite Hd.
  destruct (Server.docs sv !! docId) as [st|] eqn:E.
  - exists {| Server.docs := Server.docs sv;
              Server.rooms := {[ (socket, docId) ]} ∪ Server.rooms sv |}, st.
    simpl. unfold Server.state_of. rewrite E. simpl.
    repeat split; try done. set_solver.
  - eexists _, {| Server.boxes := ∅; Server.pdfUrl := None |}.
    simpl. unfold Server.state_of. rewrite lookup_insert_eq. simpl.
    repeat split; try done; try set_solver.
    all: try apply lookup_insert_eq.
    all: try by intros [? ?].
Qed.

End WithCodec.

Lemma update_of_unknown_box_witness :
  let s := Sample.session (Some Sample.original) {[ 1%Z := [Sample.note] ]} ∅
                          Sample.fresh in
  Js.findIndex (has_id "b2") (page_list (Client.boxes s) 1) = (-1)%Z
  /\ Client.patchBox 1 "b2" None (Client.boxes s) = Client.boxes s
  /\ fst (Client.updateBox true 1 "b2" None s) = s
  /\ Client.listen (Wire.box_updated 1 "b2" None) s = s
  /\ Server.receive 2 Wire.update_box
       (Some (Server.update_box_msg (Some "doc-1"%string) 1 "b2" None)) Sample.after_add
     = Returned (Sample.after_add, [])
  /\ snd (Client.updateBox true 1 "b2" None s)
     = [(Wire.update_box, Server.update_box_msg None 1 "b2" None)].
Proof.
  intros s.
  destruct (update_of_unknown_box_is_noop 1 "b2" None s true Sample.after_add
                                          2 "doc-1")
    as (H1 & H2 & H3 & H4 & H5 & H6 & _).
  - vm_compute. intros b [<-|[]]. discriminate.
  - vm_compute. intros b [<-|[]]. discriminate.
  - repeat split; assumption.
Defined.

(** C7, as stated, fails.  A client of [doc-1] that does not have the
    box [b1] updates it: its own boxes stay as they are and nothing is
    reported, but the [update_box] event goes out, and the server, whose
    cache has the box, moves it and relays the update to the room.  The
    update of a box the client does not know is not a no-op. *)
Lemma update_of_unknown_box_is_sent :
  let s := Client.with_boxes Fixture.editing ∅ in
  let patch := Some (Fixture.moveTo 30 40) in
  let r := Client.updateBox true 1 "b1" patch s in
  let r' := Rest.deliver 2 (snd r) Sample.after_add in
  fst r = s
  /\ snd r = [(Wire.update_box,
               Server.update_box_msg (Some "doc-1"%string) 1 "b1" patch)]
  /\ map Box.left (page_list (Rest.cache "doc-1" Sample.after_add) 1) = [10%Q]
  /\ map Box.left (page_list (Rest.cache "doc-1" (fst r')) 1) = [30%Q]
  /\ fst r' <> Sample.after_add
  /\ snd r' = [Server.to_room "doc-1" (Wire.box_updated 1 "b1" patch)].
Proof.
  intros s patch r r'.
  assert (H10 : map Box.left (page_list (Rest.cache "doc-1" Sample.after_add) 1)
                = [10%Q]) by (vm_compute; reflexivity).
  assert (H30 : map Box.left (page_list (Rest.cache "doc-1" (fst r')) 1)
                = [30%Q]) by (vm_compute; reflexivity).
  repeat split; try assumption; try (vm_compute; reflexivity).
  intros E. rewrite E, H10 in H30. discriminate.
Qed.

Lemma join_replies_witness :
  exists (sv' : Server.t) (st : Server.RoomState),
    Server.receive 2 Wire.join (Some (Sample.msg "doc-1")) Sample.after_add
    = Returned (sv', [Server.emit
                        (Wire.init_state
                           {| Wire.boxes := Some (Server.boxes st);
                              Wire.images := None |})])
    /\ (2%nat, "doc-1"%string) ∈ Server.rooms sv'
    /\ Server.docs sv' !! "doc-1"%string = Some st
    /\ Server.boxes st = {[ 1%Z := [Sample.note] ]}.
Proof.
  destruct (join_replies_with_cached_boxes
              2 (Sample.msg "doc-1") "doc-1" Sample.after_add
              (Sample.session None ∅ ∅ Sample.fresh) eq_refl)
    as (sv' & st & Hr & _ & Hin & Hst & Hsame & _).
  exists sv', st. repeat split; try assumption.
  assert (Hd : Server.docs Sample.after_add !! "doc-1"%string
               = Some {| Server.boxes := {[ 1%Z := [Sample.note] ]};
                         Server.pdfUrl := None |}) by (vm_compute; reflexivity).
  rewrite Hsame, Hd in Hst by (rewrite Hd; eauto). by injection Hst as <-.
Defined.

(** C5, as stated, fails.  Socket 1 joins [doc-1] and adds an image;
    socket 2 then joins: its [init_state] has no images field, and its
    session ends up with an empty image map. *)
Lemma init_state_carries_no_images :
  match Server.run [(1%nat, Wire.join, Some (Sample.msg "doc-1"));
                    (1%nat, Wire.add_image, Some (Sample.add_image_msg "doc-1" Sample.stamp));
                    (2%nat, Wire.join, Some (Sample.msg "doc-1"))]
                   Server.start with
  | Returned (_, [_; Server.emit (Wire.init_state st)]) =>
      Wire.images st = None
      /\ ~ is_Some (Wire.images st)
      /\ Client.images
           (Client.listen (Wire.init_state st)
                          (Sample.session None ∅ {[ 1%Z := [Sample.stamp] ]} Sample.fresh))
         = ∅
  | _ => False
  end.
Proof.
  vm_compute. repeat split. intros [x Hx]. discriminate Hx.
Qed.

(** An [add_image] event leaves the server as it was: no listener is
    registered for it. *)
Lemma add_image_is_ignored (socket : nat) (m : option Wire.Payload)
    (sv : Server.t) :
  Server.receive socket Wire.add_image m sv = Returned (sv, []).
Proof. reflexivity. Qed.

(** C8 at the failing input.  A [delete_box] event that carries no object
    (or [null]) makes its listener throw, where one whose object merely
    lacks [boxId] is dropped. *)
Theorem delete_box_without_object_throws (socket : nat) (sv : Server.t)
    (docId : option string) (pageNumber : option Z) :
  Server.receive socket Wire.delete_box None sv = Thrown (sv, [])
  /\ Server.receive socket Wire.delete_box
       (Some {| Wire.docId := docId; Wire.pageNumber := pageNumber;
                Wire.boxId := None; Wire.box := None; Wire.patch := None;
                Wire.imageId := None; Wire.image := None |}) sv
     = Returned (sv, []).
Proof.
  split; [reflexivity|].
  apply incomplete_object_is_dropped. right. right. left. done.
Qed.

End SyncFacts.

(** ** Recomposition *)

Module RecomposeFacts.
Import Client.
Section WithCodec.
Context `{Codec : DocumentCodec}.

(** *** Loops *)

Lemma forEach_invariant {A S : Type} (inv : S -> Prop)
    (body : S -> A -> option S) (l : list A) (s s' : S) :
  (forall s a s', inv s -> body s a = Some s' -> inv s') ->
  inv s -> forEach body l s = Some s' -> inv s'.
Proof.
  intros Hstep. revert s. induction l as [|a l IH]; intros s Hs; simpl.
  - by intros [= <-].
  - destruct (body s a) as [s1|] eqn:E; [|discriminate].
    apply IH. by eapply Hstep.
Qed.

(** A loop whose body throws at one of its elements throws. *)
Lemma forEach_throws {A S : Type} (inv : S -> Prop)
    (body : S -> A -> option S) (l : list A) (a : A) (s : S) :
  (forall s a s', inv s -> body s a = Some s' -> inv s') ->
  (forall s, inv s -> body s a = None) ->
  In a l -> inv s -> forEach body l s = None.
Proof.
  intros Hstep Hbad. revert s. induction l as [|x l IH]; intros s [].
  - subst x. intros Hs. simpl. by rewrite Hbad.
  - intros Hs. simpl. destruct (body s x) as [s1|] eqn:E; [|done].
    apply IH; [done|]. by eapply Hstep.
Qed.

Lemma length_draw (i : nat) (op : DrawOp) (pdfDoc : PDFDocument) :
  length (draw i op pdfDoc) = length pdfDoc.
Proof. unfold draw. apply length_alter. Qed.

Lemma onPage_length {A : Type}
    (body : nat -> Q -> PDFDocument -> A -> option PDFDocument)
    (byPage : gmap Z (list A)) (pdfDoc pdfDoc' : PDFDocument) (pageNum : Z) :
  (forall i h doc a doc', body i h doc a = Some doc' -> length doc' = length doc) ->
  onPage body byPage pdfDoc pageNum = Some pdfDoc' ->
  length pdfDoc' = length pdfDoc.
Proof.
  intros Hbody. unfold onPage.
  destruct (_ && _); [|by intros [= <-]].
  destruct (pdfDoc !! _) as [page|]; [|discriminate].
  apply (forEach_invariant (fun doc => length doc = length pdfDoc)); [|done].
  intros doc a doc' Hl E. rewrite <- Hl. by eapply Hbody.
Qed.

Lemma embedBox_length (c : Controls) (i : nat) (h : Q)
    (doc : PDFDocument) (box : Box.t) (doc' : PDFDocument) :
  embedBox c i h doc box = Some doc' -> length doc' = length doc.
Proof.
  unfold embedBox. destruct (skipBox box); [by intros [= <-]|].
  destruct (encodes _); [|discriminate]. intros [= <-]. apply length_draw.
Qed.

Lemma embedImageOn_length (c : Controls) (i : nat) (h : Q)
    (doc : PDFDocument) (img : Image.t) (doc' : PDFDocument) :
  embedImageOn c i h doc img = Some doc' -> length doc' = length doc.
Proof.
  unfold embedImageOn. destruct (embedImage img); [|discriminate].
  intros [= <-]. apply length_draw.
Qed.

(** The keys of a page-indexed object are the pages it has a list for. *)
Lemma Object_keys_spec {A} (o : gmap Z A) (k : Z) :
  In k (Object_keys o) <-> is_Some (o !! k).
Proof.
  unfold Object_keys. rewrite <- list_elem_of_In.
  rewrite merge_sort_Permutation. rewrite list_elem_of_fmap. split.
  - intros [[k' a] [-> H]]. apply elem_of_map_to_list in H. eauto.
  - intros [a H]. exists (k, a). split; [done|]. by apply elem_of_map_to_list.
Qed.

(** *** Images that do not decode *)

(** An image is embedded unless it fails the decoder its declared type
    selects and the PNG decoder. *)
Lemma embedImage_None (img : Image.t) :
  embedImage img = None -> decodesPng (Image.imageBytes img) = false.
Proof.
  unfold embedImage. destruct (decodesPng _); [|done].
  repeat (match goal with
          | |- context [if ?x then _ else _] => destruct x
          | |- context [match ?x with _ => _ end] => destruct x
          end; try discriminate).
Qed.

Lemma embedImage_other_type (img : Image.t) (ty : string) :
  Image.imageType img = Some ty ->
  ty <> "image/png"%string -> ty <> "image/jpeg"%string ->
  ty <> "image/jpg"%string ->
  decodesPng (Image.imageBytes img) = false ->
  embedImage img = None.
Proof.
  intros Ht H1 H2 H3 Hp. unfold embedImage. rewrite Ht, Hp.
  apply String.eqb_neq in H1, H2, H3. by rewrite H1, H2, H3.
Qed.

Lemma drawImages_throw (c : Controls) (imagesToEmbed : ImageMap)
    (pdfDoc : PDFDocument) (pageNum : Z) (img : Image.t) :
  In img (page_list imagesToEmbed pageNum) ->
  (1 <= pageNum <= getPageCount pdfDoc)%Z ->
  embedImage img = None ->
  forEach (onPage (embedImageOn c) imagesToEmbed)
          (Object_keys imagesToEmbed) pdfDoc = None.
Proof.
  intros Hin Hrange Hbad.
  apply (forEach_throws (fun doc => length doc = length pdfDoc)) with pageNum;
    [| | |done].
  - intros doc k doc' Hl E. rewrite <- Hl.
    eapply onPage_length; [|exact E]. apply embedImageOn_length.
  - intros doc Hl. unfold onPage, getPageCount in *. rewrite Hl.
    replace (0 <=? pageNum - 1)%Z with true by lia.
    replace (pageNum - 1 <? _)%Z with true by lia. cbn [andb].
    destruct (lookup_lt_is_Some_2 doc (Z.to_nat (pageNum - 1))) as [pg ->];
      [lia|].
    apply (forEach_throws (fun _ => True)) with img; try done.
    intros doc0 _. unfold embedImageOn. by rewrite Hbad.
  - apply Object_keys_spec. unfold page_list in Hin.
    destruct (imagesToEmbed !! pageNum); [eauto | destruct Hin].
Qed.

(** An image that decodes as PNG is embedded, whatever type it declares
    and whichever decoder was tried first. *)
Lemma embedImage_retry (img : Image.t) :
  decodesPng (Image.imageBytes img) = true -> embedImage img <> None.
Proof.
  intros Hp. unfold embedImage. rewrite Hp.
  repeat (match goal with
          | |- context [if ?x then _ else _] => destruct x
          | |- context [match ?x with _ => _ end] => destruct x
          end; try discriminate).
Qed.

Lemma embedImage_jpeg (img : Image.t) :
  Image.imageType img = Some "image/jpeg"%string
  \/ Image.imageType img = Some "image/jpg"%string ->
  embedImage img
  = if decodesJpg (Image.imageBytes img) then Some Jpg
    else if decodesPng (Image.imageBytes img) then Some Png else None.
Proof.
  intros [H|H]; unfold embedImage; rewrite H;
    destruct (decodesJpg (Image.imageBytes img));
    destruct (decodesPng (Image.imageBytes img)); reflexivity.
Qed.

Lemma embedImage_fails (img : Image.t) :
  decodesPng (Image.imageBytes img) = false ->
  (Image.imageType img = Some "image/jpeg"%string
   \/ Image.imageType img = Some "image/jpg"%string ->
   decodesJpg (Image.imageBytes img) = false) ->
  embedImage img = None.
Proof.
  intros Hp Hj. unfold embedImage. rewrite Hp.
  destruct (Image.imageType img) as [ty|]; [|done].
  destruct (String.eqb_spec ty "image/png"); [done|].
  destruct (String.eqb_spec ty "image/jpeg") as [->|].
  { simpl. by rewrite Hj by (by left). }
  destruct (String.eqb_spec ty "image/jpg") as [->|]; [|done].
  simpl. by rewrite Hj by (by right).
Qed.

(** C6, as the code has it.  One image of an existing page that decodes
    neither with the decoder its declared type selects nor as PNG makes
    the whole recomposition stop: nothing is drawn or saved, the failure
    is logged once, and the session and what the server serves are left
    as they were.  An image that is declared a JPEG, fails the JPEG
    decoder and decodes as PNG is drawn, as a PNG. *)
Theorem undecodable_image_aborts_recomposition (s : Session)
    (pdfDoc : PDFDocument) (boxesToEmbed : BoxMap) (imagesToEmbed : ImageMap)
    (d : DocState) (w : World) (pageNum : Z) (img : Image.t) :
  In img (page_list imagesToEmbed pageNum) ->
  (1 <= pageNum <= getPageCount pdfDoc)%Z ->
  decodesPng (Image.imageBytes img) = false ->
  (Image.imageType img = Some "image/jpeg"%string
   \/ Image.imageType img = Some "image/jpg"%string ->
   decodesJpg (Image.imageBytes img) = false) ->
  (drawAll (controls s) boxesToEmbed imagesToEmbed pdfDoc = None
   /\ embedAllContent s pdfDoc boxesToEmbed imagesToEmbed d w
      = (d, console_error "Failed to embed all content:" w)
   /\ resources (console_error "Failed to embed all content:" w) = resources w)
  /\ (forall (other : Image.t) (c : Controls) (pageIndex : nat)
             (pageHeight : Q) (doc : PDFDocument),
        Image.imageType other = Some "image/jpeg"%string
        \/ Image.imageType other = Some "image/jpg"%string ->
        decodesJpg (Image.imageBytes other) = false ->
        decodesPng (Image.imageBytes other) = true ->
        embedImageOn c pageIndex pageHeight doc other
        = Some (draw pageIndex
                     (drawImage Png (Image.imageBytes other)
                        (Js.Math_max 0 (Geometry.pdfX (Image.left other) (scale c)))
                        (Js.Math_max 0
                           (Geometry.pdfY pageHeight (Image.top other)
                                          (Image.height other) (scale c)))
                        (Image.width other / scale c)
                        (Image.height other / scale c))
                     doc)).
Proof.
  intros Hin Hrange Hpng Hjpg.
  pose proof (embedImage_fails img Hpng Hjpg) as Hbad.
  assert (Hd : drawAll (controls s) boxesToEmbed imagesToEmbed pdfDoc = None).
  { unfold drawAll.
    destruct (forEach (onPage (embedBox (controls s)) boxesToEmbed) _ pdfDoc)
      as [withBoxes|] eqn:E; [|done].
    apply drawImages_throw with pageNum img; try done.
    assert (Hl : length withBoxes = length pdfDoc).
    { revert E. apply (forEach_invariant (fun doc => length doc = length pdfDoc));
        [|done].
      intros doc k doc' Hl E. rewrite <- Hl.
      eapply onPage_length; [|exact E]. apply embedBox_length. }
    unfold getPageCount in *. lia. }
  split.
  - split; [exact Hd|]. split; [|done]. unfold embedAllContent. by rewrite Hd.
  - intros other c pageIndex pageHeight doc Hty Hj Hp.
    unfold embedImageOn. rewrite (embedImage_jpeg other Hty), Hj, Hp.
    reflexivity.
Qed.

(** *** The place-and-recompose scenario *)

(** C2, as the code has it.  On a one-page document 842 points tall, at
    scale 1, the box at (50, 100) of height 20 with text "Hello" and font
    size 12 is drawn at x = 50 and y = 734: the bottom edge 722 plus the
    font size. *)
Theorem hello_is_drawn_at_734 (c : Controls) (before : list DrawOp) :
  scale c = 1%Q ->
  encodes "Hello" = true ->
  drawAll c {[ 1%Z := [Sample.hello] ]} ∅
          [{| getHeight := 842; content := before |}]
  = Some [{| getHeight := 842;
             content :=
               before
               ++ [drawText "Hello" 50 734 12
                            (if boldToggle c then HelveticaBold else Helvetica)
                            (hexToRgb01 (fontColorHex c))] |}]
  /\ (Geometry.pdfY 842 100 20 1 == 722)%Q
  /\ (Geometry.pdfY 842 100 20 1 + 12 == 734)%Q.
Proof.
  intros Hs He. split; [|split; reflexivity].
  unfold drawAll.
  replace (Object_keys ({[ 1%Z := [Sample.hello] ]} : BoxMap)) with [1%Z]
    by (vm_compute; reflexivity).
  replace (Object_keys (∅ : ImageMap)) with (@nil Z) by (vm_compute; reflexivity).
  cbn [forEach]. unfold onPage. cbn -[embedBox page_list].
  replace (page_list ({[ 1%Z := [Sample.hello] ]} : BoxMap) 1) with [Sample.hello]
    by (vm_compute; reflexivity).
  cbn [forEach]. unfold embedBox.
  replace (skipBox Sample.hello) with false by reflexivity.
  cbn [Sample.hello Box.text Box.fontSize Box.color Box.isBold Box.left
       Box.top Box.height default Js.or_else].
  unfold id. rewrite He, Hs. destruct (boldToggle c); reflexivity.
Qed.

End WithCodec.

#[local] Existing Instance Sample.codec.

Lemma hello_is_drawn_at_734_witness :
  drawAll Sample.toolbar {[ 1%Z := [Sample.hello] ]} ∅ Sample.onePage
  = Some [{| getHeight := 842;
             content := [drawText "Hello" 50 734 12 Helvetica
                                  (hexToRgb01 "#000000")] |}].
Proof.
  exact (proj1 (hello_is_drawn_at_734 Sample.toolbar [] eq_refl eq_refl)).
Defined.

(** C2, as stated, fails: the recomposed page carries one instruction,
    the text anchored at (50, 734), not at (50, 722). *)
Lemma hello_is_not_drawn_at_722 :
  let s := Sample.session (Some Sample.original) {[ 1%Z := [Sample.hello] ]} ∅
                          Sample.fresh in
  let r := rebuildPdfWithAllContent s None None Sample.online in
  option_map (map (fun pg => map text_anchor (content pg)))
             (shown (props s) (fst r) (snd r))
  = Some [[Some (50%Q, 734%Q)]]
  /\ ~ (734 == 722)%Q.
Proof. split; [vm_compute; reflexivity | discriminate]. Qed.

(** *** One image that does not decode *)

Lemma undecodable_image_witness :
  let s := Sample.session (Some Sample.original) {[ 1%Z := [Sample.hello] ]}
                          {[ 1%Z := [Sample.gif; Sample.stamp] ]} Sample.fresh in
  let mislabelled :=
    {| Image.id := "i2"; Image.left := 10; Image.top := 20; Image.width := 150;
       Image.height := 100; Image.imageUrl := "blob:2";
       Image.imageBytes := [x89; x50; x4e; x47];
       Image.imageType := Some "image/jpeg"%string |} in
  (drawAll (controls s) (boxes s) (images s) Sample.onePage = None
   /\ embedAllContent s Sample.onePage (boxes s) (images s) (doc s) Sample.online
      = (doc s, console_error "Failed to embed all content:" Sample.online))
  /\ embedImageOn Sample.toolbar 0 842 Sample.onePage mislabelled
     = Some [{| getHeight := 842;
                content := [drawImage Png [x89; x50; x4e; x47] 10 722 150 100] |}].
Proof.
  intros s mislabelled.
  destruct (undecodable_image_aborts_recomposition
              s Sample.onePage (boxes s) (images s) (doc s) Sample.online
              1 Sample.gif) as [(Hd & He & _) Hr].
  - vm_compute. left. reflexivity.
  - vm_compute. split; discriminate.
  - reflexivity.
  - intros [H|H]; discriminate H.
  - split; [by split|].
    rewrite (Hr mislabelled Sample.toolbar 0%nat 842%Q Sample.onePage);
      [vm_compute; reflexivity | by left | reflexivity | reflexivity].
Defined.

(** C6, as stated, fails.  With a text box, a GIF that is no PNG and a
    good PNG on page 1, the recomposition saves nothing: the session and
    what the server serves stay as they were, and the console has one
    message. *)
Lemma one_bad_image_stops_everything :
  let s := Sample.session (Some Sample.original) {[ 1%Z := [Sample.hello] ]}
                          {[ 1%Z := [Sample.gif; Sample.stamp] ]} Sample.fresh in
  let r := rebuildPdfWithAllContent s None None Sample.online in
  fst r = Sample.fresh
  /\ pdfBuffer (fst r) = Some Sample.onePage
  /\ history (fst r) = history Sample.fresh
  /\ resources (snd r) = resources Sample.online
  /\ console (snd r) = ["Failed to embed all content:"%string].
Proof. vm_compute. repeat split. Qed.

End RecomposeFacts.

(** ** Publishing saved bytes *)

Module PublishFacts.
Import Client.
Section WithCodec.
Context `{Codec : DocumentCodec}.

Lemma publish_pdfBuffer (p : Props) (i : Z) (newBytes : PdfBytes)
    (d : DocState) (w : World) :
  pdfBuffer (fst (publish p i newBytes d w)) = Some newBytes.
Proof.
  unfold publish, uploadPdfBlob, createObjectURL.
  destruct (uploadOk w); [destruct (_ && _)|]; reflexivity.
Qed.

Lemma publish_editBlock (p : Props) (i : Z) (newBytes : PdfBytes)
    (d : DocState) (w : World) :
  editBlock (fst (publish p i newBytes d w)) = editBlock d.
Proof.
  unfold publish, uploadPdfBlob, createObjectURL.
  destruct (uploadOk w); [destruct (_ && _)|]; reflexivity.
Qed.

(** Publishing adds upload and blob URLs; what a URL handed to the
    editor serves stays. *)
Lemma publish_fetch (p : Props) (i : Z) (newBytes : PdfBytes)
    (d : DocState) (w : World) (name : string) :
  fetch (snd (publish p i newBytes d w)) (PropUrl name) = fetch w (PropUrl name).
Proof.
  unfold publish, uploadPdfBlob, createObjectURL.
  destruct (uploadOk w); [destruct (_ && _)|]; reflexivity.
Qed.

(** What is published is served at the URL shown. *)
Lemma publish_shown (p : Props) (i : Z) (newBytes : PdfBytes)
    (d : DocState) (w : World) :
  exists u, editedUrl (fst (publish p i newBytes d w)) = Some u
            /\ fetch (snd (publish p i newBytes d w)) u = Some newBytes.
Proof.
  unfold publish, uploadPdfBlob, createObjectURL, fetch.
  destruct (uploadOk w); [destruct (_ && _)|]; simpl;
    eexists; (split; [reflexivity|]); by rewrite decide_True.
Qed.

End WithCodec.
End PublishFacts.

(** ** Recomposing twice *)

Module IdempotenceFacts.
Import Client.
Section WithCodec.
Context `{Codec : DocumentCodec}.

(** What [embedAllContent] leaves when everything can be drawn: the
    saved document at the URL shown, whatever the text extraction finds;
    the buffer has gone to pdf.js. *)
Lemma embedAllContent_result (s : Session) (pdfDoc drawn : PDFDocument)
    (bx : BoxMap) (im : ImageMap) (d : DocState) (w : World) (name : string) :
  drawAll (controls s) bx im pdfDoc = Some drawn ->
  let r := embedAllContent s pdfDoc bx im d w in
  (exists u, editedUrl (fst r) = Some u
             /\ fetch (snd r) u = Some (save drawn))
  /\ fetch (snd r) (PropUrl name) = fetch w (PropUrl name)
  /\ pdfBuffer (fst r) = Some detached.
Proof.
  intros Hd. unfold embedAllContent. rewrite Hd.
  destruct (PublishFacts.publish_shown
              (props s) (historyIndex (doc s)) (save drawn) d w)
    as (u & Hu & Hf).
  pose proof (PublishFacts.publish_fetch
                (props s) (historyIndex (doc s)) (save drawn) d w name) as Hp.
  destruct (publish _ _ _ _ _) as [d1 w1]. simpl in Hu, Hf, Hp.
  destruct (HistoryFacts.extractTextItems_keeps (save drawn) 1 d1)
    as (Hb & He & _).
  destruct (extractTextItems (save drawn) 1 d1) as [d2|d2];
    simpl in *; rewrite He, Hb; (split; [by exists u|done]).
Qed.

(** What a recomposition from [fileUrl] leaves: the recomposed document
    on screen, or, when a step fails, the session as it was. *)
Lemma rebuild_result (s : Session) (boxesToUse : option BoxMap)
    (imagesToUse : option ImageMap) (w : World) (src : Url) (name : string) :
  fileUrl (props s) = Some src ->
  let r := rebuildPdfWithAllContent s boxesToUse imagesToUse w in
  match recomposed s boxesToUse imagesToUse w src with
  | Some drawn =>
      (exists u, editedUrl (fst r) = Some u
                 /\ fetch (snd r) u = Some (save drawn))
      /\ pdfBuffer (fst r) = Some detached
  | None => fst r = doc s /\ (forall u, fetch (snd r) u = fetch w u)
  end
  /\ fetch (snd r) (PropUrl name) = fetch w (PropUrl name).
Proof.
  intros Hf. unfold rebuildPdfWithAllContent, recomposed. rewrite Hf.
  destruct (fetch w src) as [b|]; [|done].
  destruct (load b) as [pdfDoc|]; [|done].
  destruct (drawAll _ _ _ pdfDoc) as [drawn|] eqn:Hd.
  - destruct (embedAllContent_result s pdfDoc drawn _ _ (doc s) w name Hd)
      as (Hu & Hp & Hb). done.
  - unfold embedAllContent. rewrite Hd. done.
Qed.

(** C1.  A session with an original document ([fileUrl]) recomposed
    twice in a row with the same annotation sets has the same document on
    screen after both runs: each run loads what [fileUrl] serves, which
    no run changes, so when every annotation can be drawn the document is
    the original with one pass of drawing, and otherwise what was on
    screen before. *)
Theorem recomposing_twice_from_original (s : Session)
    (boxesToUse : option BoxMap) (imagesToUse : option ImageMap)
    (w : World) (name : string) :
  fileUrl (props s) = Some (PropUrl name) ->
  let r1 := rebuildPdfWithAllContent s boxesToUse imagesToUse w in
  let r2 := rebuildPdfWithAllContent (with_doc s (fst r1)) boxesToUse
                                     imagesToUse (snd r1) in
  shown (props s) (fst r2) (snd r2) = shown (props s) (fst r1) (snd r1)
  /\ (forall (orig : PdfBytes) (pdfDoc drawn : PDFDocument),
        fetch w (PropUrl name) = Some orig ->
        load orig = Some pdfDoc ->
        drawAll (controls s) (default (boxes s) boxesToUse)
                (default (images s) imagesToUse) pdfDoc = Some drawn ->
        shown (props s) (fst r1) (snd r1) = Some (save drawn)
        /\ shown (props s) (fst r2) (snd r2) = Some (save drawn))
  /\ fetch (snd r1) (PropUrl name) = fetch w (PropUrl name)
  /\ fetch (snd r2) (PropUrl name) = fetch w (PropUrl name).
Proof.
  intros Hf r1 r2.
  destruct (rebuild_result s boxesToUse imagesToUse w _ name Hf) as [H1 F1].
  fold r1 in H1, F1.
  assert (Hf2 : fileUrl (props (with_doc s (fst r1))) = Some (PropUrl name))
    by exact Hf.
  destruct (rebuild_result (with_doc s (fst r1)) boxesToUse imagesToUse
                           (snd r1) _ name Hf2) as [H2 F2].
  fold r2 in H2, F2.
  assert (Hsame : recomposed (with_doc s (fst r1)) boxesToUse imagesToUse
                             (snd r1) (PropUrl name)
                  = recomposed s boxesToUse imagesToUse w (PropUrl name)).
  { unfold recomposed. rewrite F1. reflexivity. }
  rewrite Hsame in H2.
  assert (Hboth : forall drawn,
             recomposed s boxesToUse imagesToUse w (PropUrl name) = Some drawn ->
             shown (props s) (fst r1) (snd r1) = Some (save drawn)
             /\ shown (props s) (fst r2) (snd r2) = Some (save drawn)).
  { intros drawn Hr. rewrite Hr in H1, H2.
    destruct H1 as [(u1 & U1 & G1) _], H2 as [(u2 & U2 & G2) _].
    unfold shown. by rewrite U1, U2. }
  split; [|split; [|split]].
  - destruct (recomposed s boxesToUse imagesToUse w (PropUrl name))
      as [drawn|] eqn:Hr.
    + destruct (Hboth drawn eq_refl) as [-> ->]. reflexivity.
    + destruct H1 as [D1 G1], H2 as [D2 G2]. simpl in D2.
      unfold shown. rewrite D2, D1.
      destruct (editedUrl (doc s)) as [u|].
      * by rewrite G2, G1.
      * destruct (fileUrl (props s)) as [u|]; [|done]. by rewrite G2, G1.
  - intros orig pdfDoc drawn Ho Hl Hd. apply Hboth.
    unfold recomposed. rewrite Ho, Hl. exact Hd.
  - exact F1.
  - by rewrite F2, F1.
Qed.

End WithCodec.

#[local] Existing Instance Sample.codec.

Lemma recomposing_twice_witness :
  let s := Sample.session (Some Sample.original) {[ 1%Z := [Sample.hello] ]}
                          {[ 1%Z := [Sample.stamp] ]} Sample.loaded in
  let r1 := rebuildPdfWithAllContent s None None Sample.online in
  let r2 := rebuildPdfWithAllContent (with_doc s (fst r1)) None None (snd r1) in
  let hello := drawText "Hello" 50 734 12 Helvetica (hexToRgb01 "#000000") in
  let stamp := drawImage Png [x89; x50; x4e; x47] 10 722 150 100 in
  shown (props s) (fst r1) (snd r1)
  = Some [{| getHeight := 842; content := [hello; stamp] |}]
  /\ shown (props s) (fst r2) (snd r2)
     = Some [{| getHeight := 842; content := [hello; stamp] |}].
Proof.
  intros s r1 r2 hello stamp.
  apply (proj1 (proj2 (recomposing_twice_from_original
                         s None None Sample.online "/uploads/1-form.pdf"
                         eq_refl))
               Sample.onePage Sample.onePage
               [{| getHeight := 842; content := [hello; stamp] |}]).
  - reflexivity.
  - reflexivity.
  - vm_compute. reflexivity.
Defined.

End IdempotenceFacts.

(** ** Inline edit of an extracted text block *)

Module InlineEditFacts.
Import Client.
Section WithCodec.
Context `{Codec : DocumentCodec}.
Local Open Scope Q_scope.

Lemma clamp01_unit (q : Q) : in_unit q -> clamp01 (normalizeColor q) == q.
Proof.
  intros [H0 H1]. unfold normalizeColor, clamp01, Js.Math_max, Js.Math_min.
  apply Qle_bool_iff in H1 as H1'. rewrite H1'.
  rewrite (Q.min_r 1 q) by exact H1. apply Q.max_r. exact H0.
Qed.

Lemma normalizeColorValue_unit (v : option Q) : in_unit (normalizeColorValue v).
Proof.
  unfold normalizeColorValue, Js.Math_max, Js.Math_min.
  destruct v as [q|]; [|split; discriminate].
  split; [apply Q.le_max_l|].
  apply Q.max_lub; [discriminate | apply Q.le_min_l].
Qed.

Lemma colorStep_unit (c : Color) (o : OPS * option (list (option Q))) :
  unit_color c -> unit_color (colorStep c o).
Proof.
  intros Hc. destruct o as [op args]. unfold colorStep.
  destruct op; try exact Hc.
  - destruct args as [[|a0 [|a1 [|a2 r]]]|]; try exact Hc.
    repeat split; apply normalizeColorValue_unit.
  - destruct args as [[|a0 r]|]; try exact Hc.
    repeat split; apply normalizeColorValue_unit.
  - destruct args; [|exact Hc]. repeat split; discriminate.
Qed.

(** Every extracted block carries a colour with components in 0..1. *)
Lemma extracted_colors_unit (b : PdfBytes) (pageNum : Z) (d d' : DocState)
    (item : TextItem.t) :
  extractTextItems b pageNum d = Returned d' -> In item (pdfTextItems d') ->
  unit_color (TextItem.color item).
Proof.
  unfold extractTextItems. destruct (getPage b pageNum) as [pg|]; [|discriminate].
  intros [= <-] Hin. simpl in Hin.
  apply in_map_iff in Hin as [raw [<- _]]. simpl.
  assert (H : forall ops c, unit_color c -> unit_color (fold_left colorStep ops c)).
  { induction ops as [|o ops IH]; intros c Hc; simpl; [done|].
    apply IH, colorStep_unit, Hc. }
  apply H. repeat split; discriminate.
Qed.

(** C9.  Saving an inline edit of the block [item] with the text
    [newStr]: on the first page of the current bytes, a white opaque
    rectangle is painted first, as wide as the wider of the old and the new
    text at the block's font and size plus 2, and 1.1 times the block's
    measured height tall; then the new text is drawn at the block's
    baseline with the block's weight and style, size and colour.  The
    toolbar's size, colour and bold settings play no part. *)
Theorem inline_edit_keeps_original_style (s : Session) (newStr : string)
    (w : World) (item : TextItem.t) (b : PdfBytes) (d1 : DocState)
    (page : PDFPage) (rest : list PDFPage) :
  editBlock (doc s) = Some item ->
  ensurePdfBytes (props s) (doc s) w = Some (b, d1) ->
  load b = Some (page :: rest) ->
  encodes (TextItem.str item) = true ->
  encodes newStr = true ->
  let font :=
    match TextItem.isBold item, TextItem.isItalic item with
    | true, true => HelveticaBoldOblique
    | true, false => HelveticaBold
    | false, true => HelveticaOblique
    | false, false => Helvetica
    end in
  let size := TextItem.fontSize item in
  let cover :=
    drawRectangle (TextItem.x item - 1)
                  (TextItem.y item - actualHeight item * (2 # 10))
                  (Qmax (widthOfTextAtSize font (TextItem.str item) size)
                        (widthOfTextAtSize font newStr size) + 2)
                  (actualHeight item * (11 # 10))
                  (rgb 1 1 1) 1 in
  let replacement :=
    drawText newStr (TextItem.x item) (TextItem.y item) size font
             (originalColor item) in
  let edited :=
    {| getHeight := getHeight page;
       content := content page ++ [cover; replacement] |} :: rest in
  (exists (d' : DocState) (w' : World) (shownAt : Url),
      (handleSaveTextEditInline s newStr w = Returned (d', w')
       \/ (handleSaveTextEditInline s newStr w = Thrown (d', w')
           /\ getPage (save edited) 1 = None))
      /\ editedUrl d' = Some shownAt
      /\ fetch w' shownAt = Some (save edited)
      /\ editBlock d' = None)
  /\ (forall c : Controls,
        handleSaveTextEditInline (with_controls s c) newStr w
        = handleSaveTextEditInline s newStr w)
  /\ (unit_color (TextItem.color item) ->
        red (originalColor item) == red (TextItem.color item)
        /\ green (originalColor item) == green (TextItem.color item)
        /\ blue (originalColor item) == blue (TextItem.color item))
  /\ (~ TextItem.height item == 0 -> actualHeight item = TextItem.height item).
Proof.
  intros Hb He Hl Hold Hnew font size cover replacement edited.
  assert (Hfont : originalFont item = font).
  { unfold originalFont, font.
    destruct (TextItem.isBold item), (TextItem.isItalic item); reflexivity. }
  assert (Hdraw : draw 0 (replacementText item newStr)
                       (draw 0 (coverRectangle item newStr) (page :: rest))
                  = edited).
  { unfold edited, cover, replacement, replacementText, coverRectangle.
    rewrite Hfont. simpl. rewrite <- app_assoc. reflexivity. }
  repeat apply conj.
  - unfold handleSaveTextEditInline. rewrite Hb, He, Hl, Hold, Hnew.
    unfold getPageCount.
    replace (0 <? Z.of_nat (length (page :: rest)))%Z with true
      by (symmetry; apply Z.ltb_lt; simpl; lia).
    cbn [andb]. rewrite Hdraw.
    destruct (PublishFacts.publish_shown
                (props s) (historyIndex (doc s)) (save edited) d1 w)
      as (shownAt & Hu & Hf).
    destruct (publish _ _ _ _ _) as [d2 w2]. simpl in Hu, Hf.
    destruct (HistoryFacts.extractTextItems_keeps
                (save edited) 1 (setEditBlock None d2))
      as (_ & Hk & _ & _ & _ & Hblock).
    unfold extractTextItems in *.
    destruct (getPage (save edited) 1) as [pg|] eqn:Ex; simpl in Hk, Hblock.
    + eexists _, _, shownAt. split; [left; reflexivity|]. done.
    + eexists _, _, shownAt. split; [right; done|]. done.
  - intros c. reflexivity.
  - intros (Hr & Hg & Hbl). unfold originalColor. simpl.
    repeat split; by apply clamp01_unit.
  - intros Hh. unfold actualHeight, Js.truthy_num.
    destruct (Qeq_bool _ 0) eqn:E; [|reflexivity].
    apply Qeq_bool_iff in E. contradiction.
Qed.

End WithCodec.

#[local] Existing Instance Sample.codec.

Lemma inline_edit_witness :
  let s := Sample.session (Some Sample.original) ∅ ∅
             (setEditBlock (Some Sample.total) Sample.loaded) in
  exists (d' : DocState) (w' : World) (shownAt : Url),
    handleSaveTextEditInline s "Total: 42" Sample.online = Returned (d', w')
    /\ editedUrl d' = Some shownAt
    /\ option_map (map content) (fetch w' shownAt)
       = Some [[drawRectangle 99 (6976 # 10) (112 # 2) (132 # 10)
                              (rgb 1 1 1) 1;
                drawText "Total: 42" 100 700 12 HelveticaBold (rgb 1 0 0)]].
Proof.
  intros s.
  destruct (inline_edit_keeps_original_style
              s "Total: 42" Sample.online Sample.total Sample.onePage
              (setPdfBuffer (Some (Sample.onePage : @PdfBytes Sample.codec))
                            (doc s))
              {| getHeight := 842; content := [] |} []
              eq_refl eq_refl eq_refl eq_refl eq_refl)
    as ((d' & w' & u & [Hr | [_ Hx]] & Hu & Hf & _) & _); [|discriminate Hx].
  exists d', w', u. split; [exact Hr|]. split; [exact Hu|].
  rewrite Hf. vm_compute. reflexivity.
Defined.

End InlineEditFacts.

(** ** What a recomposition draws *)

Module RenderFacts.
Import Client Render.
Section WithCodec.
Context `{Codec : DocumentCodec}.

Lemma addOps_nil (pg : PDFPage) : addOps [] pg = pg.
Proof. destruct pg. unfold addOps. simpl. by rewrite app_nil_r. Qed.

Lemma addOps_app (ops1 ops2 : list DrawOp) (pg : PDFPage) :
  addOps ops2 (addOps ops1 pg) = addOps (ops1 ++ ops2) pg.
Proof. unfold addOps. simpl. by rewrite app_assoc. Qed.

Lemma alter_addOps_nil (i : nat) (doc : PDFDocument) :
  alter (addOps []) i doc = doc.
Proof. apply list_alter_id, addOps_nil. Qed.

Lemma alter_addOps_app (ops1 ops2 : list DrawOp) (i : nat) (doc : PDFDocument) :
  alter (addOps ops2) i (alter (addOps ops1) i doc)
  = alter (addOps (ops1 ++ ops2)) i doc.
Proof.
  apply list_eq. intros j. destruct (decide (i = j)) as [->|Hne].
  - rewrite !list_lookup_alter_eq. destruct (doc !! j); simpl; [|done].
    by rewrite addOps_app.
  - by rewrite !list_lookup_alter_ne.
Qed.

(** The inner loops: what the body does for one annotation adds up. *)
Lemma inner_loop {A : Type} (body : PDFDocument -> A -> option PDFDocument)
    (ops : list A -> list DrawOp) (i : nat) :
  ops [] = [] ->
  (forall a l, ops (a :: l) = ops [a] ++ ops l) ->
  (forall doc a doc', body doc a = Some doc' ->
                      doc' = alter (addOps (ops [a])) i doc) ->
  forall l doc doc', forEach body l doc = Some doc' ->
                     doc' = alter (addOps (ops l)) i doc.
Proof.
  intros Hnil Hcons Hbody. induction l as [|a l IH]; intros doc doc'; simpl.
  - intros [= <-]. by rewrite Hnil, alter_addOps_nil.
  - destruct (body doc a) as [doc1|] eqn:E; [|discriminate].
    intros H. apply IH in H. apply Hbody in E. subst doc1.
    by rewrite H, alter_addOps_app, <- Hcons.
Qed.

Lemma boxOps_cons (c : Controls) (h : Q) (b : Box.t) (l : list Box.t) :
  boxOps c h (b :: l) = boxOps c h [b] ++ boxOps c h l.
Proof. unfold boxOps. simpl. by destruct (skipBox b). Qed.

Lemma imageOps_cons (c : Controls) (h : Q) (img : Image.t) (l : list Image.t) :
  imageOps c h (img :: l) = imageOps c h [img] ++ imageOps c h l.
Proof. unfold imageOps. simpl. by rewrite app_nil_r. Qed.

Lemma embedBox_adds (c : Controls) (i : nat) (h : Q) (doc : PDFDocument)
    (b : Box.t) (doc' : PDFDocument) :
  embedBox c i h doc b = Some doc' ->
  doc' = alter (addOps (boxOps c h [b])) i doc.
Proof.
  unfold embedBox, boxOps. simpl. destruct (skipBox b); simpl.
  - intros [= <-]. by rewrite alter_addOps_nil.
  - destruct (encodes _); [|discriminate]. by intros [= <-].
Qed.

Lemma embedImageOn_adds (c : Controls) (i : nat) (h : Q) (doc : PDFDocument)
    (img : Image.t) (doc' : PDFDocument) :
  embedImageOn c i h doc img = Some doc' ->
  doc' = alter (addOps (imageOps c h [img])) i doc.
Proof.
  unfold embedImageOn, imageOps. simpl.
  destruct (embedImage img); [|discriminate]. by intros [= <-].
Qed.

(** The outer loops: after the pages [keys], each of them carries its
    instructions and the others are as they were. *)
(** Closes a goal whose hypotheses about membership in a list of page
    numbers contradict each other. *)
Ltac not_here :=
  repeat match goal with
         | H : _ ∈ [] |- _ => by apply elem_of_nil in H
         | H : _ ∈ _ :: _ |- _ => apply elem_of_cons in H as [H|H]
         | H : ¬ _ ∈ _ :: _ |- _ => rewrite not_elem_of_cons in H; destruct H
         end;
  solve [done | lia].

Lemma outer_loop {A : Type}
    (body : nat -> Q -> PDFDocument -> A -> option PDFDocument)
    (ops : Q -> list A -> list DrawOp) (byPage : gmap Z (list A)) :
  (forall h, ops h [] = []) ->
  (forall i h l doc doc', forEach (body i h) l doc = Some doc' ->
                          doc' = alter (addOps (ops h l)) i doc) ->
  forall keys doc doc',
    NoDup keys ->
    forEach (onPage body byPage) keys doc = Some doc' ->
    forall i : nat,
      doc' !! i
      = (fun pg =>
           addOps (if bool_decide ((Z.of_nat i + 1)%Z ∈ keys)
                   then ops (getHeight pg) (page_list byPage (Z.of_nat i + 1))
                   else []) pg) <$> doc !! i.
Proof.
  intros Hnil Hin. induction keys as [|k keys IH]; intros doc doc' Hnd.
  - intros [= <-] i. destruct (doc !! i) as [pg|]; [|done].
    cbn [fmap option_fmap option_map]. case_bool_decide; [not_here|].
    by rewrite addOps_nil.
  - apply NoDup_cons in Hnd as [Hk Hnd]. cbn [forEach].
    destruct (onPage body byPage doc k) as [doc1|] eqn:E; [|discriminate].
    intros H i. rewrite (IH doc1 doc' Hnd H i). clear H IH.
    unfold onPage, getPageCount in E.
    destruct (Z.leb_spec 0 (k - 1)); cbn [andb] in E;
      [destruct (Z.ltb_spec (k - 1) (Z.of_nat (length doc))); cbn [andb] in E|].
    + destruct (doc !! Z.to_nat (k - 1)) as [page|] eqn:Ep; [|discriminate].
      apply Hin in E. subst doc1.
      destruct (decide (Z.to_nat (k - 1) = i)) as [<-|Hne].
      * rewrite list_lookup_alter_eq, Ep. cbn [fmap option_fmap option_map].
        replace (Z.of_nat (Z.to_nat (k - 1)) + 1)%Z with k by lia.
        repeat case_bool_decide; try (exfalso; not_here).
        by rewrite addOps_nil.
      * rewrite list_lookup_alter_ne by exact Hne.
        destruct (doc !! i) as [pg|]; [|done].
        cbn [fmap option_fmap option_map].
        repeat case_bool_decide; try done; exfalso; not_here.
    + injection E as <-.
      destruct (doc !! i) as [pg|] eqn:Ei; [|done].
      apply lookup_lt_Some in Ei. cbn [fmap option_fmap option_map].
      repeat case_bool_decide; try done; exfalso; not_here.
    + injection E as <-.
      destruct (doc !! i) as [pg|] eqn:Ei; [|done].
      cbn [fmap option_fmap option_map].
      repeat case_bool_decide; try done; exfalso; not_here.
Qed.

Lemma Object_keys_NoDup {A} (o : gmap Z A) : NoDup (Object_keys o).
Proof.
  unfold Object_keys. rewrite merge_sort_Permutation.
  apply NoDup_fst_map_to_list.
Qed.

(** One loop of [drawAll], over all the pages an object has lists for. *)
Lemma whole_loop {A : Type}
    (body : nat -> Q -> PDFDocument -> A -> option PDFDocument)
    (ops : Q -> list A -> list DrawOp) (byPage : gmap Z (list A))
    (doc doc' : PDFDocument) :
  (forall h, ops h [] = []) ->
  (forall i h l doc doc', forEach (body i h) l doc = Some doc' ->
                          doc' = alter (addOps (ops h l)) i doc) ->
  forEach (onPage body byPage) (Object_keys byPage) doc = Some doc' ->
  doc' = imap (fun i pg =>
                 addOps (ops (getHeight pg)
                             (page_list byPage (Z.of_nat i + 1))) pg) doc.
Proof.
  intros Hnil Hin H. apply list_eq. intros i.
  rewrite (outer_loop body ops byPage Hnil Hin _ _ _ (Object_keys_NoDup byPage) H i).
  rewrite list_lookup_imap. destruct (doc !! i) as [pg|]; simpl; [|done].
  destruct (bool_decide_reflect ((Z.of_nat i + 1)%Z ∈ Object_keys byPage))
    as [Hk|Hk]; [done|].
  f_equal. unfold page_list.
  destruct (byPage !! (Z.of_nat i + 1)%Z) as [l|] eqn:E; simpl; [|by rewrite Hnil].
  exfalso. apply Hk. apply list_elem_of_In, RecomposeFacts.Object_keys_spec. eauto.
Qed.

(** When [drawAll] succeeds, each page keeps its height and what it had,
    followed by its text instructions and then its image instructions. *)
Lemma drawAll_is_recomposition (c : Controls) (boxesToEmbed : BoxMap)
    (imagesToEmbed : ImageMap) (pdfDoc drawn : PDFDocument) :
  drawAll c boxesToEmbed imagesToEmbed pdfDoc = Some drawn ->
  drawn = recomposition c boxesToEmbed imagesToEmbed pdfDoc.
Proof.
  unfold drawAll.
  destruct (forEach (onPage (embedBox c) boxesToEmbed) _ pdfDoc)
    as [withBoxes|] eqn:E1; [|discriminate].
  intros E2.
  apply (whole_loop (embedBox c) (boxOps c)) in E1;
    [|done|intros i h; apply (inner_loop _ (boxOps c h) i); auto using boxOps_cons, embedBox_adds].
  apply (whole_loop (embedImageOn c) (imageOps c)) in E2;
    [|done|intros i h; apply (inner_loop _ (imageOps c h) i); auto using imageOps_cons, embedImageOn_adds].
  subst. apply list_eq. intros i. unfold recomposition.
  rewrite !list_lookup_imap. destruct (pdfDoc !! i) as [pg|]; simpl; [|done].
  by rewrite addOps_app.
Qed.

(** A loop whose body succeeds at each of its elements succeeds. *)
Lemma forEach_succeeds {A S : Type} (inv : S -> Prop)
    (body : S -> A -> option S) (l : list A) (s : S) :
  (forall s a s', inv s -> body s a = Some s' -> inv s') ->
  (forall s a, inv s -> In a l -> is_Some (body s a)) ->
  inv s -> is_Some (forEach body l s).
Proof.
  intros Hstep. revert s. induction l as [|a l IH]; intros s Hok Hs; simpl.
  - eauto.
  - destruct (Hok s a Hs) as [s1 E]; [by left|]. rewrite E.
    apply IH; [|by eapply Hstep]. intros s2 a2 H2 Hin. apply Hok; [done|by right].
Qed.

Lemma loop_succeeds {A : Type}
    (body : nat -> Q -> PDFDocument -> A -> option PDFDocument)
    (byPage : gmap Z (list A)) (keys : list Z) (pdfDoc : PDFDocument) :
  (forall i h doc a doc', body i h doc a = Some doc' -> length doc' = length doc) ->
  (forall pageNum a i h doc,
      (1 <= pageNum <= getPageCount pdfDoc)%Z ->
      In a (page_list byPage pageNum) -> is_Some (body i h doc a)) ->
  exists doc', forEach (onPage body byPage) keys pdfDoc = Some doc'
               /\ length doc' = length pdfDoc.
Proof.
  intros Hlen Hok.
  destruct (forEach_succeeds (fun doc => length doc = length pdfDoc)
              (onPage body byPage) keys pdfDoc) as [doc' E]; [| |done|].
  - intros doc k doc1 Hl E. rewrite <- Hl.
    by eapply RecomposeFacts.onPage_length.
  - intros doc k Hl _. unfold onPage, getPageCount. rewrite Hl.
    destruct (Z.leb_spec 0 (k - 1)); cbn [andb]; [|eauto].
    destruct (Z.ltb_spec (k - 1) (Z.of_nat (length pdfDoc))); cbn [andb]; [|eauto].
    destruct (lookup_lt_is_Some_2 doc (Z.to_nat (k - 1))) as [pg ->]; [lia|].
    apply (forEach_succeeds (fun _ => True)); try done.
    intros doc0 a _ Ha. apply (Hok k); [unfold getPageCount; lia | done].
  - exists doc'. split; [done|].
    revert E. apply (RecomposeFacts.forEach_invariant
                       (fun doc => length doc = length pdfDoc)); [|done].
    intros doc k doc1 Hl E. rewrite <- Hl.
    by eapply RecomposeFacts.onPage_length.
Qed.

(** A box of an existing page whose text is not skipped and cannot be
    encoded makes the loop over the boxes throw. *)
Lemma drawBoxes_throw (c : Controls) (boxesToEmbed : BoxMap)
    (pdfDoc : PDFDocument) (pageNum : Z) (box : Box.t) :
  In box (page_list boxesToEmbed pageNum) ->
  (1 <= pageNum <= getPageCount pdfDoc)%Z ->
  skipBox box = false ->
  encodes (default ""%string (Box.text box)) = false ->
  forEach (onPage (embedBox c) boxesToEmbed) (Object_keys boxesToEmbed) pdfDoc
  = None.
Proof.
  intros Hin Hrange Hskip Henc.
  apply (RecomposeFacts.forEach_throws
           (fun doc => length doc = length pdfDoc)) with pageNum; [| | |done].
  - intros doc k doc' Hl E. rewrite <- Hl.
    eapply RecomposeFacts.onPage_length; [|exact E].
    apply RecomposeFacts.embedBox_length.
  - intros doc Hl. unfold onPage, getPageCount in *. rewrite Hl.
    replace (0 <=? pageNum - 1)%Z with true by lia.
    replace (pageNum - 1 <? _)%Z with true by lia. cbn [andb].
    destruct (lookup_lt_is_Some_2 doc (Z.to_nat (pageNum - 1))) as [pg ->];
      [lia|].
    apply (RecomposeFacts.forEach_throws (fun _ => True)) with box; try done.
    intros doc0 _. unfold embedBox. by rewrite Hskip, Henc.
  - apply RecomposeFacts.Object_keys_spec. unfold page_list in Hin.
    destruct (boxesToEmbed !! pageNum); [eauto | destruct Hin].
Qed.

Lemma drawAll_Some_drawable (c : Controls) (boxesToEmbed : BoxMap)
    (imagesToEmbed : ImageMap) (pdfDoc drawn : PDFDocument) :
  drawAll c boxesToEmbed imagesToEmbed pdfDoc = Some drawn ->
  drawable boxesToEmbed imagesToEmbed pdfDoc.
Proof.
  intros H pageNum Hrange. split.
  - intros box Hin Hskip.
    destruct (encodes _) eqn:Henc; [done|]. exfalso.
    unfold drawAll in H.
    by rewrite (drawBoxes_throw c _ _ _ _ Hin Hrange Hskip Henc) in H.
  - intros img Hin Hbad. unfold drawAll in H.
    destruct (forEach (onPage (embedBox c) boxesToEmbed) _ pdfDoc)
      as [withBoxes|] eqn:E; [|discriminate].
    assert (Hl : length withBoxes = length pdfDoc).
    { revert E. apply (RecomposeFacts.forEach_invariant
                         (fun doc => length doc = length pdfDoc)); [|done].
      intros doc k doc' Hl E. rewrite <- Hl.
      eapply RecomposeFacts.onPage_length; [|exact E].
      apply RecomposeFacts.embedBox_length. }
    rewrite (RecomposeFacts.drawImages_throw c imagesToEmbed withBoxes
               pageNum img Hin) in H; [discriminate| |done].
    unfold getPageCount in *. lia.
Qed.

Lemma drawable_drawAll (c : Controls) (boxesToEmbed : BoxMap)
    (imagesToEmbed : ImageMap) (pdfDoc : PDFDocument) :
  drawable boxesToEmbed imagesToEmbed pdfDoc ->
  is_Some (drawAll c boxesToEmbed imagesToEmbed pdfDoc).
Proof.
  intros Hd. unfold drawAll.
  destruct (loop_succeeds (embedBox c) boxesToEmbed (Object_keys boxesToEmbed)
              pdfDoc) as (withBoxes & -> & Hl).
  { apply RecomposeFacts.embedBox_length. }
  { intros pageNum box i h doc Hrange Hin. unfold embedBox.
    destruct (skipBox box) eqn:Hskip; [eauto|].
    rewrite (proj1 (Hd pageNum Hrange) box Hin Hskip). eauto. }
  destruct (loop_succeeds (embedImageOn c) imagesToEmbed
              (Object_keys imagesToEmbed) withBoxes) as (drawn & -> & _); [| |eauto].
  { apply RecomposeFacts.embedImageOn_length. }
  intros pageNum img i h doc Hrange Hin. unfold embedImageOn.
  unfold getPageCount in Hrange. rewrite Hl in Hrange.
  destruct (embedImage img) eqn:E; [eauto|].
  by destruct (proj2 (Hd pageNum Hrange) img Hin).
Qed.

(** X1.  [drawAll] succeeds exactly when every box of an existing page
    that is not skipped has encodable text and every image of an existing
    page decodes; each page then keeps its height and what it had,
    followed by one text instruction for each such box, in order, and
    then one image instruction for each image, in order.  Pages the
    document does not have are ignored. *)
Theorem drawAll_spec (c : Controls) (boxesToEmbed : BoxMap)
    (imagesToEmbed : ImageMap) (pdfDoc drawn : PDFDocument) :
  drawAll c boxesToEmbed imagesToEmbed pdfDoc = Some drawn
  <-> drawable boxesToEmbed imagesToEmbed pdfDoc
      /\ drawn = recomposition c boxesToEmbed imagesToEmbed pdfDoc.
Proof.
  split.
  - intros H. split; [by eapply drawAll_Some_drawable|].
    by apply drawAll_is_recomposition.
  - intros [Hd ->].
    destruct (drawable_drawAll c _ _ _ Hd) as [drawn E]. rewrite E.
    f_equal. by apply drawAll_is_recomposition.
Qed.

(** X2.  A box of an existing page whose text is not skipped and cannot
    be encoded by the font stops the whole recomposition, as an image that
    does not decode does: nothing is saved, the failure is logged and the
    session is left as it was. *)
Theorem unencodable_text_aborts_recomposition (s : Session)
    (pdfDoc : PDFDocument) (boxesToEmbed : BoxMap) (imagesToEmbed : ImageMap)
    (d : DocState) (w : World) (pageNum : Z) (box : Box.t) :
  In box (page_list boxesToEmbed pageNum) ->
  (1 <= pageNum <= getPageCount pdfDoc)%Z ->
  skipBox box = false ->
  encodes (default ""%string (Box.text box)) = false ->
  drawAll (controls s) boxesToEmbed imagesToEmbed pdfDoc = None
  /\ embedAllContent s pdfDoc boxesToEmbed imagesToEmbed d w
     = (d, console_error "Failed to embed all content:" w).
Proof.
  intros Hin Hrange Hskip Henc.
  assert (Hd : drawAll (controls s) boxesToEmbed imagesToEmbed pdfDoc = None).
  { unfold drawAll. by rewrite (drawBoxes_throw _ _ _ _ _ Hin Hrange Hskip Henc). }
  split; [exact Hd|]. unfold embedAllContent. by rewrite Hd.
Qed.

Lemma page_list_insert {A} (m : gmap Z (list A)) (k k' : Z) (l : list A) :
  page_list (<[k := l]> m) k' = if decide (k = k') then l else page_list m k'.
Proof.
  unfold page_list. destruct (decide (k = k')) as [->|Hne].
  - by rewrite lookup_insert_eq.
  - by rewrite lookup_insert_ne.
Qed.

Lemma boxOps_app (c : Controls) (h : Q) (l1 l2 : list Box.t) :
  boxOps c h (l1 ++ l2) = boxOps c h l1 ++ boxOps c h l2.
Proof. unfold boxOps. by rewrite List.filter_app, map_app. Qed.

Lemma skipBox_newTextBox (c : Controls) (uuid : string) (rect : Gesture.Rect)
    (e : Gesture.Click) :
  skipBox (Gesture.newTextBox c uuid rect e) = true.
Proof. reflexivity. Qed.

Lemma boxOps_newTextBox (c c' : Controls) (h : Q) (uuid : string)
    (rect : Gesture.Rect) (e : Gesture.Click) :
  boxOps c h [Gesture.newTextBox c' uuid rect e] = [].
Proof. reflexivity. Qed.

(** X3.  Placing a text box does not change what a recomposition draws:
    the box carries the placeholder text, which is skipped, until it is
    edited. *)
Theorem placed_box_is_not_drawn (tool : Gesture.Tool)
    (wrap : option Gesture.Rect) (uuid : string) (connected : bool)
    (pageNumber : Z) (e : Gesture.Click) (s : Session)
    (imagesToEmbed : ImageMap) (pdfDoc : PDFDocument) :
  let s' := fst (Gesture.addTextBox tool wrap uuid connected pageNumber e s) in
  drawAll (controls s') (boxes s') imagesToEmbed pdfDoc
  = drawAll (controls s) (boxes s) imagesToEmbed pdfDoc.
Proof.
  unfold Gesture.addTextBox.
  destruct tool; try reflexivity. destruct wrap as [rect|]; [|reflexivity].
  cbn [fst with_boxes controls boxes].
  set (nb := Gesture.newTextBox (controls s) uuid rect e).
  set (B' := <[pageNumber := page_list (boxes s) pageNumber ++ [nb]]> (boxes s)).
  assert (Hops : forall h k, boxOps (controls s) h (page_list B' k)
                             = boxOps (controls s) h (page_list (boxes s) k)).
  { intros h k. unfold B'. rewrite page_list_insert.
    destruct (decide (pageNumber = k)) as [->|]; [|done].
    rewrite boxOps_app. unfold nb.
    by rewrite boxOps_newTextBox, app_nil_r. }
  assert (Hrec : recomposition (controls s) B' imagesToEmbed pdfDoc
                 = recomposition (controls s) (boxes s) imagesToEmbed pdfDoc).
  { unfold recomposition. apply list_eq. intros i. rewrite !list_lookup_imap.
    destruct (pdfDoc !! i); simpl; [|done]. by rewrite Hops. }
  assert (Hdr : drawable B' imagesToEmbed pdfDoc
                <-> drawable (boxes s) imagesToEmbed pdfDoc).
  { unfold drawable. split; intros H k Hk; destruct (H k Hk) as [Hb Hi];
      (split; [|exact Hi]); intros box Hin Hskip.
    - apply Hb; [|done]. unfold B'. rewrite page_list_insert.
      destruct (decide (pageNumber = k)) as [->|]; [|done].
      apply in_or_app. by left.
    - unfold B' in Hin. rewrite page_list_insert in Hin.
      destruct (decide (pageNumber = k)) as [->|]; [|by apply Hb].
      apply in_app_or in Hin as [Hin|[<-|[]]]; [by apply Hb|].
      unfold nb in Hskip. by rewrite skipBox_newTextBox in Hskip. }
  destruct (drawAll (controls s) (boxes s) imagesToEmbed pdfDoc) as [drawn|] eqn:E.
  - pose proof (drawAll_Some_drawable _ _ _ _ _ E) as Hd.
    apply drawAll_is_recomposition in E. subst drawn.
    destruct (drawable_drawAll (controls s) _ _ _ (proj2 Hdr Hd)) as [drawn E'].
    rewrite E'. f_equal. apply drawAll_is_recomposition in E'. congruence.
  - destruct (drawAll (controls s) B' imagesToEmbed pdfDoc) as [drawn|] eqn:E';
      [|done].
    apply drawAll_Some_drawable, Hdr in E'.
    destruct (drawable_drawAll (controls s) _ _ _ E') as [x Hx]. congruence.
Qed.

End WithCodec.

#[local] Existing Instance Sample.codec.

Lemma drawAll_spec_witness :
  drawAll Sample.toolbar {[ 1%Z := [Sample.hello] ]} {[ 1%Z := [Sample.stamp] ]}
          Sample.onePage
  = Some (recomposition Sample.toolbar {[ 1%Z := [Sample.hello] ]}
                        {[ 1%Z := [Sample.stamp] ]} Sample.onePage).
Proof.
  apply (proj2 (drawAll_spec Sample.toolbar {[ 1%Z := [Sample.hello] ]}
                             {[ 1%Z := [Sample.stamp] ]} Sample.onePage _)).
  split; [|reflexivity].
  intros pageNum Hrange. unfold getPageCount in Hrange. simpl in Hrange.
  assert (pageNum = 1%Z) as -> by lia.
  split.
  - intros box [<-|[]] _. reflexivity.
  - intros img [<-|[]]. discriminate.
Defined.

Lemma unencodable_text_witness :
  let s := Sample.session (Some Sample.original)
                          {[ 1%Z := [Sample.hello; Fixture.twoLines] ]} ∅
                          Sample.fresh in
  drawAll (controls s) (boxes s) (images s) Sample.onePage = None
  /\ embedAllContent s Sample.onePage (boxes s) (images s) (doc s) Sample.online
     = (doc s, console_error "Failed to embed all content:" Sample.online).
Proof.
  intros s.
  apply (unencodable_text_aborts_recomposition
           s Sample.onePage (boxes s) (images s) (doc s) Sample.online
           1 Fixture.twoLines).
  - vm_compute. right. left. reflexivity.
  - vm_compute. split; discriminate.
  - reflexivity.
  - reflexivity.
Defined.

End RenderFacts.

(** ** Invariants of the document state *)

Module SessionFacts.
Import Client Render.
Section WithCodec.
Context `{Codec : DocumentCodec}.

Lemma slice0_prefix {A} (e : Z) (l : list A) (x : A) :
  (0 <= e <= Z.of_nat (length l))%Z ->
  Js.slice0 e (Js.slice0 e l ++ [x]) = Js.slice0 e l.
Proof.
  intros He. rewrite !HistoryFacts.slice0_firstn by lia.
  rewrite firstn_app, firstn_firstn, Nat.min_id.
  rewrite length_firstn.
  replace (Z.to_nat e - _)%nat with 0%nat by lia.
  simpl. by rewrite app_nil_r.
Qed.

Lemma index_last {A} (l : list A) (x : A) :
  Js.index (l ++ [x]) (Z.of_nat (length (l ++ [x])) - 1) = Some x.
Proof.
  unfold Js.index. rewrite length_app. simpl.
  destruct (Z.ltb_spec (Z.of_nat (length l + 1) - 1) 0); [lia|].
  replace (Z.to_nat _) with (length l) by lia.
  rewrite lookup_app_r by lia. by rewrite Nat.sub_diag.
Qed.

(** What [pushHistory] leaves, whatever cursor its caller closed over. *)
Lemma pushHistory_shape (historyIndex0 : Z) (b : PdfBytes) (u : option Url)
    (d : DocState) :
  history (pushHistory historyIndex0 b u d)
  = Js.slice0 (historyIndex0 + 1) (history d) ++ [{| bytes := b; url := u |}]
  /\ historyIndex (pushHistory historyIndex0 b u d)
     = (Z.of_nat (length (history (pushHistory historyIndex0 b u d))) - 1)%Z
  /\ pdfBuffer (pushHistory historyIndex0 b u d) = pdfBuffer d
  /\ editedUrl (pushHistory historyIndex0 b u d) = editedUrl d
  /\ docVersion (pushHistory historyIndex0 b u d) = docVersion d.
Proof. done. Qed.

(** What undo and redo do when they are enabled. *)
Lemma showEntry_valid (idx : Z) (d : DocState) (w : World) :
  (0 <= idx < Z.of_nat (length (history d)))%Z ->
  exists d' w', showEntry idx d w = Returned (d', w')
    /\ valid d' /\ history d' = history d /\ historyIndex d' = idx
    /\ showsEntry d' w' /\ pdfBuffer d' = Some detached.
Proof.
  intros Hi.
  destruct (HistoryFacts.index_lookup (history d) idx Hi) as [e He].
  destruct (HistoryFacts.showEntry_found idx d w e He)
    as (d' & w' & u & E & I & H & U & F & B).
  exists d', w'. split; [exact E|].
  split; [unfold valid; rewrite H, I; lia|].
  split; [exact H|]. split; [exact I|]. split; [|exact B].
  exists e, u. by rewrite H, I.
Qed.

(** X4.  A valid history stays valid.  A push, from whatever cursor
    within the history its handler closed over, leaves the cursor on the
    new entry, which is the last one.  Undo and redo never throw and never
    change the list of entries; when they are enabled they move the cursor
    by one, the document on screen is then the entry under the cursor,
    served at a new blob URL, and the buffer has gone to pdf.js; when they
    are not enabled they change nothing. *)
Theorem history_stays_valid (d : DocState) (w : World) (historyIndex0 : Z)
    (b : PdfBytes) (u : option Url) :
  valid d ->
  ((-1 <= historyIndex0 < Z.of_nat (length (history d)))%Z ->
     let d' := pushHistory historyIndex0 b u d in
     valid d'
     /\ historyIndex d' = (historyIndex0 + 1)%Z
     /\ historyIndex d' = (Z.of_nat (length (history d')) - 1)%Z
     /\ Js.index (history d') (historyIndex d')
        = Some {| bytes := b; url := u |})
  /\ (exists d' w',
        handleUndo d w = Returned (d', w')
        /\ valid d' /\ history d' = history d
        /\ (canUndo d = true ->
              historyIndex d' = (historyIndex d - 1)%Z
              /\ showsEntry d' w' /\ pdfBuffer d' = Some detached)
        /\ (canUndo d = false -> d' = d /\ w' = w))
  /\ (exists d' w',
        handleRedo d w = Returned (d', w')
        /\ valid d' /\ history d' = history d
        /\ (canRedo d = true ->
              historyIndex d' = (historyIndex d + 1)%Z
              /\ showsEntry d' w' /\ pdfBuffer d' = Some detached)
        /\ (canRedo d = false -> d' = d /\ w' = w)).
Proof.
  intros Hv. unfold valid in Hv. split; [|split].
  - intros Hi. cbv zeta.
    set (d' := pushHistory historyIndex0 b u d).
    assert (Hh : history d'
                 = firstn (Z.to_nat (historyIndex0 + 1)) (history d)
                   ++ [{| bytes := b; url := u |}])
      by (apply HistoryFacts.history_pushHistory; lia).
    assert (Hlen : length (history d') = (Z.to_nat (historyIndex0 + 1) + 1)%nat)
      by (rewrite Hh, length_app, length_firstn; simpl; lia).
    assert (Hc : historyIndex d' = (Z.of_nat (length (history d')) - 1)%Z)
      by reflexivity.
    split; [unfold valid; lia|]. split; [lia|]. split; [exact Hc|].
    rewrite Hc, Hh. apply index_last.
  - unfold handleUndo. destruct (canUndo d) eqn:Hu; simpl.
    + unfold canUndo in Hu. apply Z.ltb_lt in Hu.
      destruct (showEntry_valid (historyIndex d - 1) d w)
        as (d' & w' & E & V & H & I & S & B); [lia|].
      exists d', w'. split; [exact E|]. split; [exact V|]. split; [exact H|].
      split; [done | discriminate].
    + exists d, w. split; [done|]. split; [exact Hv|]. split; [done|].
      split; [discriminate | done].
  - unfold handleRedo. destruct (canRedo d) eqn:Hr; simpl.
    + unfold canRedo in Hr. apply andb_true_iff in Hr as [H0 H1].
      apply Z.leb_le in H0. apply Z.ltb_lt in H1.
      destruct (showEntry_valid (historyIndex d + 1) d w)
        as (d' & w' & E & V & H & I & S & B); [lia|].
      exists d', w'. split; [exact E|]. split; [exact V|]. split; [exact H|].
      split; [done | discriminate].
    + exists d, w. split; [done|]. split; [exact Hv|]. split; [done|].
      split; [discriminate | done].
Qed.

(** X5.  Publishing saved bytes from a handler whose cursor is within the
    history: the bytes become the buffer; the URL shown serves exactly
    these bytes, whether the upload succeeded or a blob URL stands in;
    the history keeps the entries up to the handler's cursor and gains
    one entry, also when the upload succeeds and persisting the session
    then fails; the cursor is on that entry. *)
Theorem publish_shows_saved_bytes (p : Props) (historyIndex0 : Z)
    (newBytes : PdfBytes) (d : DocState) (w : World) :
  (-1 <= historyIndex0 < Z.of_nat (length (history d)))%Z ->
  let d' := fst (publish p historyIndex0 newBytes d w) in
  let w' := snd (publish p historyIndex0 newBytes d w) in
  pdfBuffer d' = Some newBytes
  /\ (exists u, editedUrl d' = Some u
                /\ fetch w' u = Some newBytes
                /\ history d'
                   = firstn (Z.to_nat (historyIndex0 + 1)) (history d)
                     ++ [{| bytes := newBytes; url := Some u |}])
  /\ historyIndex d' = (historyIndex0 + 1)%Z
  /\ docVersion d' = N.succ (docVersion d)
  /\ showsCursor d'
  /\ console w' = console w.
Proof.
  intros Hi. cbv zeta.
  assert (Hs : forall x : HistoryEntry,
             Js.slice0 (historyIndex0 + 1)
                       (Js.slice0 (historyIndex0 + 1) (history d) ++ [x])
             = Js.slice0 (historyIndex0 + 1) (history d))
    by (intros x; apply slice0_prefix; lia).
  assert (Hf : Js.slice0 (historyIndex0 + 1) (history d)
               = firstn (Z.to_nat (historyIndex0 + 1)) (history d))
    by (apply HistoryFacts.slice0_firstn; lia).
  assert (Hlen : length (firstn (Z.to_nat (historyIndex0 + 1)) (history d))
                 = Z.to_nat (historyIndex0 + 1))
    by (rewrite length_firstn; lia).
  unfold publish, uploadPdfBlob, createObjectURL, showsCursor, fetch.
  destruct (uploadOk w); [destruct (_ && _)|]; simpl;
    rewrite ?Hs, ?Hf;
    (split; [done|]);
    (split; [eexists; split; [done|]; split; [|done];
             by rewrite decide_True by done|]);
    (split; [rewrite length_app, Hlen; simpl; lia|]);
    (split; [done|]);
    (split; [|done]);
    eexists; (split; [apply index_last|done]).
Qed.

(** X6.  A recomposition after an inline edit starts from the original
    again: when the session has [fileUrl], the document on screen after it
    is the original with the boxes and images drawn, without the cover and
    the replacement text the inline edit had added. *)
Theorem recomposition_forgets_inline_edit (s : Session) (newStr : string)
    (w w1 : World) (d1 : DocState) (name : string)
    (boxesToUse : option BoxMap) (imagesToUse : option ImageMap)
    (orig : PdfBytes) (pdfDoc drawn : PDFDocument) :
  fileUrl (props s) = Some (PropUrl name) ->
  handleSaveTextEditInline s newStr w = Returned (d1, w1) ->
  fetch w (PropUrl name) = Some orig ->
  load orig = Some pdfDoc ->
  drawAll (controls s) (default (boxes s) boxesToUse)
          (default (images s) imagesToUse) pdfDoc = Some drawn ->
  let r := rebuildPdfWithAllContent (with_doc s d1) boxesToUse imagesToUse w1 in
  shown (props s) (fst r) (snd r) = Some (save drawn).
Proof.
  intros Hf Hh Ho Hl Hd r.
  assert (Hw : fetch w1 (PropUrl name) = fetch w (PropUrl name)).
  { unfold handleSaveTextEditInline in Hh.
    destruct (editBlock (doc s)); [|by injection Hh as _ <-].
    destruct (ensurePdfBytes _ _ _) as [[b d0]|]; [|discriminate].
    destruct (load b); [|discriminate].
    destruct (_ && _); [|discriminate].
    match type of Hh with
    | context [publish ?p ?i ?nb ?d ?w] =>
        pose proof (PublishFacts.publish_fetch p i nb d w name) as Hp;
        destruct (publish p i nb d w) as [d2 w2]
    end.
    destruct (extractTextItems _ _ _) as [d4|d4]; [|discriminate].
    by injection Hh as _ <-. }
  destruct (IdempotenceFacts.rebuild_result
              (with_doc s d1) boxesToUse imagesToUse w1 (PropUrl name) name Hf)
    as [H _].
  fold r in H. unfold recomposed in H.
  rewrite Hw, Ho, Hl in H. simpl in H. rewrite Hd in H.
  destruct H as [(u & Hu & Hs) _]. unfold shown. by rewrite Hu.
Qed.

(** X7.  The text blocks extracted from a page that pdf.js can read are
    its text items in order; all of them carry one and the same colour,
    the fill colour the page's operator list ends with, whose components
    lie in 0..1; no font size is negative; and the array the text was
    read from is left without bytes. *)
Theorem extracted_blocks (b : PdfBytes) (pageNum : Z) (d : DocState)
    (pg : TextPage) :
  getPage b pageNum = Some pg ->
  exists d' : DocState,
    extractTextItems b pageNum d = Returned d'
    /\ pageSize d' = viewport pg
    /\ map TextItem.str (pdfTextItems d') = map raw_str (items pg)
    /\ (forall item, In item (pdfTextItems d') ->
          TextItem.color item = fold_left colorStep (operators pg) (rgb 0 0 0)
          /\ unit_color (TextItem.color item)
          /\ (0 <= TextItem.fontSize item)%Q)
    /\ pdfBuffer d' = Some detached.
Proof.
  intros H. eexists. split.
  { unfold extractTextItems. rewrite H. reflexivity. }
  simpl. split; [done|]. split; [by rewrite map_map|]. split; [|done].
  intros item Hin. split; [|split].
  - apply in_map_iff in Hin as [raw [<- _]]. done.
  - eapply (InlineEditFacts.extracted_colors_unit b pageNum d);
      [unfold extractTextItems; rewrite H; reflexivity | exact Hin].
  - apply in_map_iff in Hin as [raw [<- _]]. simpl. apply Qabs_nonneg.
Qed.

End WithCodec.

#[local] Existing Instance Sample.codec.

Lemma history_stays_valid_witness :
  let d := pushHistory 0 Sample.onePage None Sample.loaded in
  (let d' := pushHistory 0 (Sample.onePage ++ Sample.onePage) None d in
   valid d' /\ historyIndex d' = 1%Z
   /\ Js.index (history d') (historyIndex d')
      = Some {| bytes := Sample.onePage ++ Sample.onePage; url := None |})
  /\ exists d' w', handleUndo d Sample.online = Returned (d', w')
                   /\ valid d' /\ historyIndex d' = 0%Z
                   /\ showsEntry d' w'.
Proof.
  intros d.
  assert (Hv : valid d) by (unfold valid; simpl; lia).
  destruct (@history_stays_valid Sample.codec d Sample.online 0
              (Sample.onePage ++ Sample.onePage) None Hv)
    as (Hp & (d' & w' & E & Hv' & _ & Hc & _) & _).
  split.
  - destruct Hp as (V & I & _ & L); [simpl; lia|]. by repeat split.
  - exists d', w'. split; [exact E|]. split; [exact Hv'|].
    destruct (Hc eq_refl) as (I & S & _). by split.
Defined.

Lemma publish_witness :
  let r := publish {| fileUrl := Some Sample.original;
                      docId := Some "doc-1"%string |}
                   0 Sample.onePage Sample.fresh
                   {| resources := []; clock := 5; uploadOk := true;
                      saveDocOk := false; console := [] |} in
  pdfBuffer (fst r) = Some Sample.onePage
  /\ length (history (fst r)) = 2%nat
  /\ historyIndex (fst r) = 1%Z.
Proof.
  intros r.
  destruct (@publish_shows_saved_bytes Sample.codec
              {| fileUrl := Some Sample.original; docId := Some "doc-1"%string |}
              0 Sample.onePage Sample.fresh
              {| resources := []; clock := 5; uploadOk := true;
                 saveDocOk := false; console := [] |})
    as (Hb & (u & _ & _ & Hh) & Hi & _).
  { simpl. lia. }
  split; [exact Hb|]. split; [|exact Hi].
  fold r in Hh. rewrite Hh. reflexivity.
Defined.

Lemma recomposition_forgets_witness :
  let s := Sample.session (Some Sample.original) ∅ ∅
             (setEditBlock (Some Sample.total) Sample.loaded) in
  exists d1 w1,
    handleSaveTextEditInline s "Total: 42" Sample.online = Returned (d1, w1)
    /\ shown (props s) d1 w1 <> Some Sample.onePage
    /\ (let r := rebuildPdfWithAllContent (with_doc s d1) None None w1 in
        shown (props s) (fst r) (snd r) = Some Sample.onePage).
Proof.
  intros s. eexists _, _. split; [reflexivity|]. split; [discriminate|].
  apply (@recomposition_forgets_inline_edit Sample.codec
           s "Total: 42" Sample.online _ _ "/uploads/1-form.pdf" None None
           Sample.onePage Sample.onePage Sample.onePage
           eq_refl eq_refl eq_refl eq_refl).
  vm_compute. reflexivity.
Defined.

Lemma extracted_blocks_witness :
  let d := @mkDoc Fixture.reader None None [] (-1) 0 [] (0%Q, 0%Q) None in
  exists d',
    @extractTextItems Fixture.reader Sample.onePage 1 d = Returned d'
    /\ @pageSize Fixture.reader d' = (595%Q, 842%Q)
    /\ map TextItem.str (@pdfTextItems Fixture.reader d') = ["Total:"; "42"]%string
    /\ map TextItem.isBold (@pdfTextItems Fixture.reader d') = [true; false]
    /\ (forall item, In item (@pdfTextItems Fixture.reader d') ->
          unit_color (TextItem.color item)
          /\ (0 <= TextItem.fontSize item)%Q)
    /\ @pdfBuffer Fixture.reader d' = Some (@detached Fixture.reader).
Proof.
  intros d.
  destruct (@extracted_blocks Fixture.reader Sample.onePage 1 d Fixture.page1
              eq_refl)
    as (d' & E & Hsz & Hstr & Hall & Hb).
  exists d'. split; [exact E|]. split; [exact Hsz|]. split; [exact Hstr|].
  split.
  - injection E as <-. reflexivity.
  - split; [|exact Hb]. intros item Hin.
    destruct (Hall item Hin) as (_ & Hu & Hf). by split.
Defined.

End SessionFacts.

(** ** Zoom, image sizes and colours *)

Module GestureFacts.
Local Open Scope Q_scope.

Lemma zoom_in_range (s : Q) (z : Gesture.Zoom) :
  (5 # 10) <= s <= 2 -> (5 # 10) <= Gesture.zoom s z <= 2.
Proof.
  intros [Hl Hu]. destruct z; unfold Gesture.zoom, Js.Math_max, Js.Math_min.
  - split; [apply Q.le_max_l|]. apply Q.max_lub; [discriminate | lra].
  - split; [|apply Q.le_min_l]. apply Q.min_glb; [discriminate | lra].
Qed.

(** X8.  Whatever sequence of clicks on the zoom buttons, the scale stays
    between 0.5 and 2; in particular it is positive, so the divisions by
    the scale in the geometry are never by zero. *)
Theorem zoom_stays_in_range (clicks : list Gesture.Zoom) :
  (5 # 10) <= Gesture.zoomed clicks <= 2 /\ 0 < Gesture.zoomed clicks.
Proof.
  assert (H : forall s, (5 # 10) <= s <= 2 ->
                        (5 # 10) <= fold_left Gesture.zoom clicks s <= 2).
  { induction clicks as [|z clicks IH]; intros s Hs; simpl; [done|].
    apply IH, zoom_in_range, Hs. }
  destruct (H Gesture.initialScale) as [Hl Hu].
  { split; discriminate. }
  unfold Gesture.zoomed. split; [by split|]. lra.
Qed.


(** X10.  Dragging the resize handle of an image keeps its proportions
    and never makes it narrower than 50 pixels. *)
Theorem resized_keeps_proportions (startWidth startHeight dx : Q) :
  0 < startWidth -> 0 < startHeight ->
  let sz := Gesture.resized startWidth startHeight dx in
  50 <= fst sz
  /\ 0 < snd sz
  /\ fst sz * startHeight == snd sz * startWidth
  /\ (50 <= startWidth + dx -> fst sz == startWidth + dx).
Proof.
  intros Hw Hh. unfold Gesture.resized, Js.Math_max. cbn [fst snd].
  set (nw := Qmax 50 (startWidth + dx)).
  assert (Hnw : 50 <= nw) by apply Q.le_max_l.
  assert (Hsnd : nw / (startWidth / startHeight) * startWidth
                 == nw * startHeight) by (field; split; lra).
  repeat split.
  - exact Hnw.
  - assert (0 < nw / (startWidth / startHeight) * startWidth) by (rewrite Hsnd; nra).
    nra.
  - by rewrite Hsnd.
  - intros H. unfold nw. by apply Q.max_r.
Qed.


Lemma resized_witness :
  let sz := Gesture.resized 150 100 (-200) in
  50 <= fst sz /\ fst sz * 100 == snd sz * 150.
Proof.
  destruct (resized_keeps_proportions 150 100 (-200) eq_refl eq_refl)
    as (H1 & _ & H3 & _).
  split; [exact H1 | exact H3].
Defined.

End GestureFacts.

(** ** Colour conversions *)

Module ColourFacts.
Local Open Scope Q_scope.

Lemma hexDigit_range (c : ascii) (v : Z) :
  Js.hexDigit c = Some v -> (0 <= v <= 15)%Z.
Proof.
  unfold Js.hexDigit. cbv zeta.
  repeat match goal with
         | |- context [(?a <=? ?b)%Z] => destruct (Z.leb_spec a b)
         end; simpl; intros [= <-]; lia.
Qed.

Lemma hexPair_range (a b : ascii) (v : Z) :
  Js.hexPair a b = Some v -> (0 <= v <= 255)%Z.
Proof.
  unfold Js.hexPair.
  destruct (Js.hexDigit a) as [h|] eqn:Eh; [|discriminate].
  destruct (Js.hexDigit b) as [l|] eqn:El; [|discriminate].
  apply hexDigit_range in Eh, El. intros [= <-]. lia.
Qed.

Lemma byte_in_unit (v : Z) :
  (0 <= v <= 255)%Z -> Client.in_unit (inject_Z v / 255).
Proof.
  intros H. unfold Client.in_unit, Qle, Qdiv, Qmult, Qinv, inject_Z. simpl.
  lia.
Qed.

(** X11.  [hexToRgb01] never leaves the range of colours: for every
    string, each component it returns lies in 0..1; a non-empty string
    that has neither six nor seven characters gives black. *)
Theorem hexToRgb01_in_unit (hex : string) :
  Client.unit_color (hexToRgb01 hex)
  /\ (hex <> EmptyString -> String.length hex <> 6%nat ->
      String.length hex <> 7%nat -> hexToRgb01 hex = rgb 0 0 0).
Proof.
  assert (Hblack : Client.unit_color (rgb 0 0 0)) by (repeat split; discriminate).
  split.
  - unfold hexToRgb01. cbv zeta.
    match goal with |- context [match ?b with EmptyString => _ | String _ _ => _ end] =>
      destruct b as [|r1 [|r2 [|g1 [|g2 [|b1 [|b2 [|]]]]]]] end; try exact Hblack.
    destruct (Js.hexPair r1 r2) as [r|] eqn:Er; [|exact Hblack].
    destruct (Js.hexPair g1 g2) as [g|] eqn:Eg; [|exact Hblack].
    destruct (Js.hexPair b1 b2) as [b|] eqn:Eb; [|exact Hblack].
    apply hexPair_range in Er, Eg, Eb.
    repeat split; simpl; apply byte_in_unit; assumption.
  - intros Hne H6 H7. destruct hex as [|c r]; [done|].
    unfold hexToRgb01. cbv zeta.
    replace (Js.truthy_string (String c r)) with true by reflexivity.
    simpl in H6, H7.
    destruct c as [[] [] [] [] [] [] [] []];
      destruct r as [|r1 [|r2 [|g1 [|g2 [|b1 [|b2 [|b3 [|]]]]]]]];
      try reflexivity; simpl in H6, H7; congruence.
Qed.

Lemma hexToRgb01_witness :
  Client.unit_color (hexToRgb01 "#fff")
  /\ hexToRgb01 "#fff" = rgb 0 0 0.
Proof.
  split.
  - apply (proj1 (hexToRgb01_in_unit "#fff")).
  - apply (proj2 (hexToRgb01_in_unit "#fff")); simpl; [discriminate | lia | lia].
Defined.

Lemma bytes_read_back :
  forallb Colour.reads_back (map Z.of_nat (seq 0 256)) = true.
Proof. vm_compute. reflexivity. Qed.

Lemma toHex_hexPair (v : Z) :
  (0 <= v <= 255)%Z ->
  exists a b, Colour.toHex (v # 255) = String a (String b EmptyString)
              /\ Js.hexPair a b = Some v.
Proof.
  intros Hv.
  assert (Hin : In v (map Z.of_nat (seq 0 256))).
  { apply in_map_iff. exists (Z.to_nat v). split; [lia|].
    apply in_seq. lia. }
  pose proof (proj1 (forallb_forall _ _) bytes_read_back v Hin) as H.
  unfold Colour.reads_back in H.
  destruct (Colour.toHex (v # 255)) as [|a [|b [|]]]; try discriminate.
  destruct (Js.hexPair a b) as [v'|] eqn:E; [|discriminate].
  apply Z.eqb_eq in H. subst v'. eauto.
Qed.

(** X12.  Colours whose components are bytes over 255 survive the round
    trip through [rgbToHex] and [hexToRgb01]. *)
Theorem rgbToHex_hexToRgb01 (r g b : Z) :
  (0 <= r <= 255)%Z -> (0 <= g <= 255)%Z -> (0 <= b <= 255)%Z ->
  hexToRgb01 (Colour.rgbToHex (r # 255) (g # 255) (b # 255))
  = rgb (inject_Z r / 255) (inject_Z g / 255) (inject_Z b / 255)
  /\ String.length (Colour.rgbToHex (r # 255) (g # 255) (b # 255)) = 7%nat.
Proof.
  intros Hr Hg Hb.
  destruct (toHex_hexPair r Hr) as (r1 & r2 & Er & Pr).
  destruct (toHex_hexPair g Hg) as (g1 & g2 & Eg & Pg).
  destruct (toHex_hexPair b Hb) as (b1 & b2 & Eb & Pb).
  unfold Colour.rgbToHex. rewrite Er, Eg, Eb.
  split; [|reflexivity].
  unfold hexToRgb01. cbv -[Js.hexPair Qdiv inject_Z]. by rewrite Pr, Pg, Pb.
Qed.

Lemma rgbToHex_witness :
  hexToRgb01 (Colour.rgbToHex (255 # 255) (0 # 255) (128 # 255))
  = rgb (inject_Z 255 / 255) (inject_Z 0 / 255) (inject_Z 128 / 255)
  /\ Colour.rgbToHex (255 # 255) (0 # 255) (128 # 255) = "#ff0080"%string.
Proof.
  split; [|reflexivity].
  apply (rgbToHex_hexToRgb01 255 0 128); lia.
Defined.

Lemma white_shorter (s r : string) :
  Js.white s = Some r -> (String.length r < String.length s)%nat.
Proof.
  unfold Js.white. destruct s as [|a [|b [|c r3]]];
    repeat (match goal with
            | |- context [if ?x then _ else _] => destruct x
            end);
    intros [= <-]; simpl; lia.
Qed.

Lemma trimStart_from_blank (n : nat) (s : string) :
  (String.length s <= n)%nat ->
  Js.trimStart_from n s = EmptyString <-> Js.Blank s.
Proof.
  revert s. induction n as [|n IH]; intros s Hn.
  - destruct s; [|simpl in Hn; lia]. simpl. split; [constructor | done].
  - simpl. destruct (Js.white s) as [r|] eqn:E.
    + pose proof (white_shorter s r E) as Hlt. rewrite IH by lia. split.
      * intros Hr. by apply Js.Blank_cons with r.
      * intros Hb. inversion Hb as [Hs | s' r' E' Hr]; subst.
        -- discriminate E.
        -- rewrite E in E'. by injection E' as <-.
    + split.
      * intros ->. constructor.
      * intros Hb. inversion Hb as [Hs | s' r' E' Hr]; subst; [done|].
        rewrite E in E'. discriminate.
Qed.

Lemma trimStart_blank (s : string) :
  Js.trimStart s = EmptyString <-> Js.Blank s.
Proof. unfold Js.trimStart. by apply trimStart_from_blank. Qed.

(** What [trimStart] leaves does not start with white space. *)
Lemma trimStart_from_done (n : nat) (s : string) :
  (String.length s <= n)%nat -> Js.white (Js.trimStart_from n s) = None.
Proof.
  revert s. induction n as [|n IH]; intros s Hn.
  - destruct s; [done | simpl in Hn; lia].
  - simpl. destruct (Js.white s) as [r|] eqn:E; [|exact E].
    apply IH. pose proof (white_shorter s r E). lia.
Qed.

Lemma trimStart_fixed (s : string) :
  Js.white s = None -> Js.trimStart s = s.
Proof.
  intros H. unfold Js.trimStart. destruct (String.length s); simpl; [done|].
  by rewrite H.
Qed.

Lemma trimStart_idempotent (s : string) :
  Js.trimStart (Js.trimStart s) = Js.trimStart s.
Proof. apply trimStart_fixed. unfold Js.trimStart. by apply trimStart_from_done. Qed.

Lemma trimEnd_blank (s : string) :
  Js.trimEnd s = EmptyString <-> Js.Blank s.
Proof.
  destruct s as [|c r]; [split; [constructor | done]|].
  cbn [Js.trimEnd]. rewrite <- trimStart_blank.
  destruct (String.eqb_spec (Js.trimStart (String c r)) ""); split; try done.
Qed.

Lemma trim_empty (t : string) : Js.trim t = EmptyString <-> Js.Blank t.
Proof.
  unfold Js.trim. rewrite trimEnd_blank, <- trimStart_blank.
  rewrite trimStart_idempotent. apply trimStart_blank.
Qed.

Section WithCodec.
Context `{Codec : DocumentCodec}.

(** X13.  A box is left out of a recomposition exactly when it has no
    text, its text consists of white space only (the empty text included;
    white space is what [trim] strips: tab, line feed, vertical tab, form
    feed, carriage return, space, no-break space, the Unicode space
    separators, the line and paragraph separators and the byte order
    mark), or its text is the placeholder "Type...". *)
Theorem skipBox_spec (box : Box.t) :
  Client.skipBox box = true
  <-> match Box.text box with
      | None => True
      | Some t => Js.Blank t \/ t = "Type..."%string
      end.
Proof.
  unfold Client.skipBox. destruct (Box.text box) as [t|]; [|done].
  rewrite !orb_true_iff, String.eqb_eq, String.eqb_eq, trim_empty.
  unfold Js.truthy_string. rewrite negb_involutive, String.eqb_eq.
  split.
  - intros [[->|H]|H]; auto. left. constructor.
  - intros [H|H]; auto.
Qed.

End WithCodec.

(** A text of a tab, a no-break space, an ideographic space and a byte
    order mark. *)
Lemma skipBox_witness :
  Client.skipBox
    {| Box.id := "b4"; Box.left := 0; Box.top := 0; Box.width := 180;
       Box.height := 20;
       Box.text :=
         Some (String (ascii_of_nat 9)
                (String (ascii_of_nat 194) (String (ascii_of_nat 160)
                (String (ascii_of_nat 227) (String (ascii_of_nat 128)
                (String (ascii_of_nat 128)
                (String (ascii_of_nat 239) (String (ascii_of_nat 187)
                (String (ascii_of_nat 191) EmptyString)))))))));
       Box.fontSize := None; Box.color := None; Box.isBold := None;
       Box.locked := None |} = true.
Proof.
  apply (proj2 (skipBox_spec _)). left.
  repeat (eapply Js.Blank_cons; [reflexivity|]). constructor.
Defined.

End ColourFacts.

(** ** Cache, sender and peers *)

Module RelayFacts.
Import Rest.

Lemma state_of_insert (ds : gmap string Server.RoomState) (d d' : string)
    (st : Server.RoomState) :
  Server.state_of (<[d := st]> ds) d'
  = if decide (d = d') then st else Server.state_of ds d'.
Proof.
  unfold Server.state_of. destruct (decide (d = d')) as [->|Hne].
  - by rewrite lookup_insert_eq.
  - by rewrite lookup_insert_ne.
Qed.

Lemma relayed_to_room (d d' : string) (ev : Wire.ServerEvent) :
  relayed d [Server.to_room d' ev] = if decide (d' = d) then [ev] else [].
Proof.
  unfold relayed. simpl. destruct (String.eqb_spec d' d);
    destruct (decide (d' = d)); done.
Qed.

Section WithCodec.
Context `{Codec : DocumentCodec}.

(** The work of the next two theorems: one event, one peer. *)
Lemma handler_step (socket : nat) (ev : Wire.ClientEvent) (m : Wire.Payload)
    (sv : Server.t) (peer : Client.Session) (d : string) :
  ev <> Wire.lock_box -> ev <> Wire.unlock_box ->
  Client.boxes peer = cache d sv ->
  Client.boxes (hears d (snd (Server.handler socket ev m sv)) peer)
  = cache d (fst (Server.handler socket ev m sv)).
Proof.
  intros Hl Hu Hagree. unfold hears, cache in *.
  destruct ev; try done; simpl.
  - (* join *)
    destruct (Server.str (Wire.docId m)) as [d'|]; [|done]. simpl.
    destruct (Server.docs sv !! d') as [st|] eqn:E; [done|].
    rewrite state_of_insert. destruct (decide (d' = d)) as [->|]; [|done].
    rewrite Hagree. unfold Server.state_of. by rewrite E.
  - (* add_box *)
    destruct (Server.str (Wire.docId m)) as [d'|]; [|done].
    destruct (Server.num (Wire.pageNumber m)) as [pg|]; [|done].
    destruct (Wire.box m) as [box|]; [|done].
    cbn [fst snd Server.set_docs Server.docs]. rewrite state_of_insert, relayed_to_room.
    destruct (decide (d' = d)) as [->|]; [|done]. simpl. by rewrite Hagree.
  - (* update_box *)
    destruct (Server.str (Wire.docId m)) as [d'|]; [|done].
    destruct (Server.num (Wire.pageNumber m)) as [pg|]; [|done].
    destruct (Server.str (Wire.boxId m)) as [bid|]; [|done].
    destruct (Z.ltb_spec
                (Js.findIndex (has_id bid)
                   (page_list (Server.boxes (Server.state_of (Server.docs sv) d')) pg))
                0) as [Hlt|Hge]; [done|].
    cbn [fst snd Server.set_docs Server.docs]. rewrite state_of_insert, relayed_to_room.
    destruct (decide (d' = d)) as [->|]; [|done]. simpl.
    unfold Client.patchBox. rewrite Hagree.
    destruct (Z.ltb_spec
                (Js.findIndex (has_id bid)
                   (page_list (Server.boxes (Server.state_of (Server.docs sv) d)) pg))
                0); [lia|done].
  - (* delete_box *)
    destruct (Server.str (Wire.docId m)) as [d'|]; [|done].
    destruct (Server.num (Wire.pageNumber m)) as [pg|]; [|done].
    destruct (Server.str (Wire.boxId m)) as [bid|]; [|done].
    cbn [fst snd Server.set_docs Server.docs]. rewrite state_of_insert, relayed_to_room.
    destruct (decide (d' = d)) as [->|]; [|done]. simpl. by rewrite Hagree.
Qed.




Lemma truthy_str (v : string) :
  v <> EmptyString -> Server.str (Some v) = Some v.
Proof.
  intros H. unfold Server.str, Js.truthy_string.
  by rewrite (proj2 (String.eqb_neq v "") H).
Qed.

Lemma truthy_num (n : Z) : n <> 0%Z -> Server.num (Some n) = Some n.
Proof. intros H. unfold Server.num. by rewrite (proj2 (Z.eqb_neq n 0) H). Qed.

Ltac expose :=
  unfold Server.handler;
  cbn [fst snd Wire.docId Wire.pageNumber Wire.box Wire.boxId Wire.patch
       Client.boxes Client.with_boxes].

Ltac settle := cbn [fst snd Server.set_docs Server.docs].

(** X15.  A gesture reaches everyone: when the sender, the cache and a
    peer agree on the boxes of a document, then after the sender places a
    box, patches a box or deletes a box (on a page other than 0, with a
    non-empty identifier) and the server has handled the event and the
    peer what it relays, the three agree again. *)
Theorem gesture_reaches_everyone (s peer : Client.Session) (sv : Server.t)
    (socket : nat) (d : string) (pageNumber : Z) (boxId uuid : string)
    (patch : option Patch.t) (rect : Gesture.Rect) (e : Gesture.Click) :
  Client.docId (Client.props s) = Some d -> d <> EmptyString ->
  pageNumber <> 0%Z -> boxId <> EmptyString ->
  Client.boxes s = cache d sv -> Client.boxes peer = cache d sv ->
  forall g : Client.Session
             -> Client.Session * list (Wire.ClientEvent * Wire.Payload),
    g = Gesture.addTextBox Gesture.text (Some rect) uuid true pageNumber e
    \/ g = Client.updateBox true pageNumber boxId patch
    \/ g = Gesture.deleteBox true pageNumber boxId ->
    let sv' := fst (deliver socket (snd (g s)) sv) in
    let out := snd (deliver socket (snd (g s)) sv) in
    Client.boxes (fst (g s)) = cache d sv'
    /\ Client.boxes (hears d out peer) = cache d sv'.
Proof.
  intros Hd Hne Hpg Hid Hs Hp g Hg.
  pose proof (truthy_str d Hne) as Td.
  pose proof (truthy_num pageNumber Hpg) as Tp.
  pose proof (truthy_str boxId Hid) as Tb.
  destruct Hg as [->|[->| ->]]; cbv zeta;
    unfold Gesture.addTextBox, Client.updateBox, Gesture.deleteBox, deliver;
    cbn [fst snd fold_left app].
  - match goal with
    | |- context [Server.handler ?so ?ev ?m sv] =>
        pose proof (handler_step so ev m sv peer d) as H
    end.
    split; [|apply H; done]. clear H.
    expose. rewrite Hd, Td, Tp. settle.
    unfold cache. settle. rewrite state_of_insert, decide_True by done. simpl.
    by rewrite Hs.
  - match goal with
    | |- context [Server.handler ?so ?ev ?m sv] =>
        pose proof (handler_step so ev m sv peer d) as H
    end.
    split; [|apply H; done]. clear H.
    expose. rewrite Hd, Td, Tp, Tb. unfold Client.patchBox. rewrite Hs.
    unfold cache. settle.
    destruct (Z.ltb_spec
                (Js.findIndex (has_id boxId)
                   (page_list (Server.boxes (Server.state_of (Server.docs sv) d))
                              pageNumber)) 0); [done|].
    settle.
    by rewrite state_of_insert, decide_True by done.
  - match goal with
    | |- context [Server.handler ?so ?ev ?m sv] =>
        pose proof (handler_step so ev m sv peer d) as H
    end.
    split; [|apply H; done]. clear H.
    expose. rewrite Hd, Td, Tp, Tb. settle.
    unfold cache, Gesture.removeBox. settle.
    rewrite state_of_insert, decide_True by done. simpl. by rewrite Hs.
Qed.

End WithCodec.


Lemma gesture_witness :
  let g := @Gesture.deleteBox Sample.codec true 1 "b1" in
  let sv' := fst (deliver 1 (snd (g Fixture.editing)) Sample.after_add) in
  let out := snd (deliver 1 (snd (g Fixture.editing)) Sample.after_add) in
  Client.boxes (fst (g Fixture.editing)) = cache "doc-1" sv'
  /\ Client.boxes (hears "doc-1" out Fixture.editing) = cache "doc-1" sv'.
Proof.
  intros g.
  apply (@gesture_reaches_everyone Sample.codec Fixture.editing Fixture.editing
           Sample.after_add 1 "doc-1" 1 "b1" "u1" None Fixture.wrapper
           Fixture.click).
  - reflexivity.
  - discriminate.
  - discriminate.
  - discriminate.
  - vm_compute. reflexivity.
  - vm_compute. reflexivity.
  - right. right. reflexivity.
Defined.

End RelayFacts.

(** ** The boxes of a page *)

Module StoreFacts.
Import Rest.

Lemma findIndex_from_first {A} (p : A -> bool) (l1 l2 : list A) (b : A) (i : Z) :
  (forall a, In a l1 -> p a = false) -> p b = true ->
  Js.findIndex_from p (l1 ++ b :: l2) i = (i + Z.of_nat (length l1))%Z.
Proof.
  revert i. induction l1 as [|x l1 IH]; intros i H1 Hb; simpl.
  - rewrite Hb. lia.
  - rewrite (H1 x) by (left; done). rewrite IH; [lia| |done].
    intros a Ha. apply H1. by right.
Qed.

Lemma alter_first {A} (f : A -> A) (l1 l2 : list A) (b : A) :
  alter f (length l1) (l1 ++ b :: l2) = l1 ++ f b :: l2.
Proof. induction l1 as [|x l1 IH]; [done|]. simpl. f_equal. exact IH. Qed.

Lemma first_match (boxId : string) (l1 l2 : list Box.t) (b : Box.t) :
  (forall a, In a l1 -> Box.id a <> boxId) -> Box.id b = boxId ->
  Js.findIndex (has_id boxId) (l1 ++ b :: l2) = Z.of_nat (length l1).
Proof.
  intros H1 Hb. unfold Js.findIndex. rewrite findIndex_from_first; [lia| |].
  - intros a Ha. apply String.eqb_neq. by apply H1.
  - by apply String.eqb_eq.
Qed.

(** X16.  An update reaches one box: on a page where the first box named
    [boxId] is [b], the editor's update replaces [b] by [b] overlaid with
    the patch and leaves every other box of the page, later boxes of the
    same name included, and every other page as they were; the server
    does the same to its cache. *)
Theorem update_patches_first_match (pageNumber : Z) (boxId : string)
    (patch : option Patch.t) (prev : BoxMap) (l1 l2 : list Box.t) (b : Box.t) :
  page_list prev pageNumber = l1 ++ b :: l2 ->
  (forall a, In a l1 -> Box.id a <> boxId) -> Box.id b = boxId ->
  Client.patchBox pageNumber boxId patch prev
  = <[pageNumber := l1 ++ Patch.spread b patch :: l2]> prev
  /\ forall (socket : nat) (sv : Server.t) (d : string),
       d <> EmptyString -> pageNumber <> 0%Z -> boxId <> EmptyString ->
       cache d sv = prev ->
       cache d (fst (Server.handler socket Wire.update_box
                       (Server.update_box_msg (Some d) pageNumber boxId patch)
                       sv))
       = <[pageNumber := l1 ++ Patch.spread b patch :: l2]> prev.
Proof.
  intros Hpage H1 Hb.
  pose proof (first_match boxId l1 l2 b H1 Hb) as Hi.
  split.
  - unfold Client.patchBox. rewrite Hpage, Hi.
    destruct (Z.ltb_spec (Z.of_nat (length l1)) 0); [lia|].
    by rewrite Nat2Z.id, alter_first.
  - intros socket sv d Hd Hpg Hid Hc.
    unfold Server.handler, Server.update_box_msg.
    cbn [Wire.docId Wire.pageNumber Wire.boxId Wire.patch].
    rewrite (RelayFacts.truthy_str d Hd), (RelayFacts.truthy_num pageNumber Hpg),
            (RelayFacts.truthy_str boxId Hid).
    unfold cache in Hc. rewrite Hc, Hpage, Hi.
    destruct (Z.ltb_spec (Z.of_nat (length l1)) 0); [lia|].
    unfold cache. cbn [fst Server.set_docs Server.docs].
    rewrite RelayFacts.state_of_insert, decide_True by done.
    simpl. by rewrite Nat2Z.id, alter_first.
Qed.

Lemma update_witness :
  let prev : BoxMap := {[ 1%Z := [Sample.hello; Sample.note] ]} in
  let patch := Some (Fixture.moveTo 30 40) in
  Client.patchBox 1 "b1" patch prev
  = <[1%Z := [Patch.spread Sample.hello patch; Sample.note]]> prev.
Proof.
  intros prev patch.
  apply (proj1 (update_patches_first_match 1 "b1" patch prev [] [Sample.note]
                  Sample.hello eq_refl
                  (fun a (H : In a []) => match H with end) eq_refl)).
Defined.

(** X17.  A deletion removes every box of that name from the page, and
    nothing else: the boxes left on the page are those named otherwise,
    every other page is as before, deleting again changes nothing, and
    the page has an entry afterwards even when it had none. *)
Theorem delete_removes_every_match (pageNumber : Z) (boxId : string)
    (prev : BoxMap) :
  let next := Gesture.removeBox pageNumber boxId prev in
  (forall b, In b (page_list next pageNumber)
             <-> In b (page_list prev pageNumber) /\ Box.id b <> boxId)
  /\ (forall pg, pg <> pageNumber -> next !! pg = prev !! pg)
  /\ Gesture.removeBox pageNumber boxId next = next
  /\ is_Some (next !! pageNumber).
Proof.
  cbv zeta. unfold Gesture.removeBox. split; [|split; [|split]].
  - intros b. rewrite RenderFacts.page_list_insert, decide_True by done.
    rewrite List.filter_In. unfold has_id.
    rewrite negb_true_iff, String.eqb_neq. done.
  - intros pg Hpg. by rewrite lookup_insert_ne.
  - rewrite RenderFacts.page_list_insert, decide_True by done.
    rewrite insert_insert_eq. f_equal.
    induction (page_list prev pageNumber) as [|x l IH]; simpl; [done|].
    destruct (negb (has_id boxId x)) eqn:E; simpl; [rewrite E|]; by rewrite ?IH.
  - rewrite lookup_insert_eq. by eexists.
Qed.

Lemma lock_erases_lock (v w : bool) (b : Box.t) :
  Patch.lock v (Patch.lock w b) = Patch.lock v b.
Proof. reflexivity. Qed.

Lemma map_lock (boxId : string) (w : bool) (l : list Box.t) :
  map (Patch.lock false)
      (map (fun b => if has_id boxId b then Patch.lock w b else b) l)
  = map (Patch.lock false) l.
Proof.
  rewrite map_map. apply map_ext. intros b. by destruct (has_id boxId b).
Qed.

Section WithCodec.
Context `{Codec : DocumentCodec}.

Lemma hears_lock (w : bool) (boxId : string) (peer : Client.Session) (pg : Z) :
  page_list
    (fmap (M := gmap Z)
          (map (fun b => if has_id boxId b then Patch.lock w b else b))
          (Client.boxes peer)) pg
  = map (fun b => if has_id boxId b then Patch.lock w b else b)
        (page_list (Client.boxes peer) pg).
Proof.
  unfold page_list. rewrite lookup_fmap.
  by destruct (Client.boxes peer !! pg).
Qed.

(** X18.  Locks are relayed, never cached: a lock or unlock event, with
    any payload, leaves the server as it was, and a peer that hears what
    is relayed has the same boxes as before on every page apart from
    their lock flag, and the same images and document. *)
Theorem locks_are_relayed_not_cached (socket : nat) (ev : Wire.ClientEvent)
    (m : Wire.Payload) (sv : Server.t) (peer : Client.Session) (d : string) :
  ev = Wire.lock_box \/ ev = Wire.unlock_box ->
  let r := Server.handler socket ev m sv in
  fst r = sv
  /\ (forall pg,
        map (Patch.lock false) (page_list (Client.boxes (hears d (snd r) peer)) pg)
        = map (Patch.lock false) (page_list (Client.boxes peer) pg))
  /\ Client.images (hears d (snd r) peer) = Client.images peer
  /\ Client.doc (hears d (snd r) peer) = Client.doc peer.
Proof.
  intros [-> | ->]; cbv zeta; unfold Server.handler;
    destruct (Server.str (Wire.docId m)) as [d'|]; try done;
    destruct (Server.str (Wire.boxId m)) as [bid|]; try done;
    cbn [fst snd]; unfold hears; rewrite RelayFacts.relayed_to_room;
    destruct (decide (d' = d)); try done;
    (split; [done|]); (split; [|done]); intros pg; simpl;
    by rewrite hears_lock, map_lock.
Qed.

(** X19.  Closing and reopening keeps the boxes and loses the images:
    when a session posts its boxes and images on unload, a session that
    then loads the document gets exactly those boxes, its images are not
    touched by the answer, and the persisted address of the document is
    the one the server had before. *)
Theorem reload_restores_boxes_not_images (d SOCKET_URL : string)
    (s s0 : Client.Session) (sv : Server.t) :
  let sv' := post_doc d (unloadBody s) sv in
  let s' := opened SOCKET_URL (get_doc d sv') s0 in
  Client.boxes s' = Client.boxes s
  /\ Client.images s' = Client.images s0
  /\ Server.pdfUrl (get_doc d sv') = Server.pdfUrl (get_doc d sv)
  /\ (forall d', d' <> d -> get_doc d' sv' = get_doc d' sv).
Proof.
  cbv zeta. unfold get_doc, post_doc, unloadBody, opened.
  cbn [body_boxes body_pdfUrl Server.set_docs Server.docs].
  rewrite RelayFacts.state_of_insert, decide_True by done.
  cbn [Server.boxes Server.pdfUrl].
  repeat split.
  - by destruct (Server.str _).
  - by destruct (Server.str _).
  - intros d' Hd'. by rewrite RelayFacts.state_of_insert, decide_False.
Qed.

(** X20.  What is posted is what a joining client is sent: after a POST
    whose body has boxes, the document has these boxes, and a client that
    joins its room is sent them in [init_state], without images. *)
Theorem posted_boxes_are_replayed (d : string) (body : DocBody) (b : BoxMap)
    (sv : Server.t) (socket : nat) :
  d <> EmptyString -> body_boxes body = Some b ->
  Server.boxes (get_doc d (post_doc d body sv)) = b
  /\ snd (Server.handler socket Wire.join (Sample.msg d) (post_doc d body sv))
     = [Server.emit (Wire.init_state {| Wire.boxes := Some b;
                                        Wire.images := None |})].
Proof.
  intros Hd Hb. unfold get_doc, post_doc. rewrite Hb.
  cbn [Server.set_docs Server.docs]. split.
  - by rewrite RelayFacts.state_of_insert, decide_True.
  - unfold Server.handler, Sample.msg. cbn [Wire.docId].
    rewrite (RelayFacts.truthy_str d Hd). cbn [Server.docs Server.set_docs].
    rewrite lookup_insert_eq. cbn [snd].
    by rewrite RelayFacts.state_of_insert, decide_True.
Qed.

End WithCodec.

Lemma posted_boxes_witness :
  let body := {| body_boxes := Some {[ 1%Z := [Sample.note] ]};
                 body_images := Some {[ 1%Z := [Sample.stamp] ]};
                 body_pdfUrl := None |} in
  Server.boxes (get_doc "doc-2" (post_doc "doc-2" body Sample.after_add))
  = {[ 1%Z := [Sample.note] ]}
  /\ snd (Server.handler 3 Wire.join (Sample.msg "doc-2")
            (post_doc "doc-2" body Sample.after_add))
     = [Server.emit (Wire.init_state
                       {| Wire.boxes := Some {[ 1%Z := [Sample.note] ]};
                          Wire.images := None |})].
Proof.
  intros body.
  apply (posted_boxes_are_replayed "doc-2" body {[ 1%Z := [Sample.note] ]}
           Sample.after_add 3); [discriminate | reflexivity].
Defined.

Lemma locks_witness :
  let m := Server.update_box_msg (Some "doc-1"%string) 1 "b1" None in
  let r := Server.handler 2 Wire.lock_box m Sample.after_add in
  fst r = Sample.after_add
  /\ (forall pg,
        map (Patch.lock false)
            (page_list (Client.boxes (hears "doc-1" (snd r) Fixture.editing)) pg)
        = map (Patch.lock false) (page_list (Client.boxes Fixture.editing) pg))
  /\ Client.images (hears "doc-1" (snd r) Fixture.editing)
     = Client.images Fixture.editing
  /\ Client.doc (hears "doc-1" (snd r) Fixture.editing)
     = Client.doc Fixture.editing.
Proof.
  intros m.
  apply (@locks_are_relayed_not_cached Sample.codec 2 Wire.lock_box m
           Sample.after_add Fixture.editing "doc-1").
  left. reflexivity.
Defined.

Lemma map_alter_same {A B} (g : A -> B) (f : A -> A) (i : nat) (l : list A) :
  (forall x, g (f x) = g x) -> map g (alter f i l) = map g l.
Proof.
  intros H. revert i. induction l as [|x l IH]; intros [|i]; try done.
  - simpl. by rewrite H.
  - simpl. f_equal. apply IH.
Qed.

(** X21.  Moving or resizing an image never changes the picture: after
    an image update, with any patch and whether or not the image exists,
    every page has the same images in the same order as to their
    identifiers, bytes, declared types and addresses. *)
Theorem image_update_keeps_the_picture (pageNumber : Z) (imageId : string)
    (patch : Gesture.ImagePatch) (prev : ImageMap) (pg : Z) :
  let next := Gesture.patchImage pageNumber imageId patch prev in
  map Image.id (page_list next pg) = map Image.id (page_list prev pg)
  /\ map Image.imageBytes (page_list next pg)
     = map Image.imageBytes (page_list prev pg)
  /\ map Image.imageType (page_list next pg)
     = map Image.imageType (page_list prev pg)
  /\ map Image.imageUrl (page_list next pg)
     = map Image.imageUrl (page_list prev pg).
Proof.
  cbv zeta. unfold Gesture.patchImage.
  destruct (Z.ltb_spec
              (Js.findIndex (fun img => String.eqb (Image.id img) imageId)
                            (page_list prev pageNumber)) 0); [done|].
  rewrite RenderFacts.page_list_insert.
  destruct (decide (pageNumber = pg)) as [->|]; [|done].
  repeat split; by apply map_alter_same.
Qed.

End StoreFacts.

(** ** Names of uploads *)

Module NameFacts.
Import Server.

Lemma append_cons (c : ascii) (s t : string) :
  (String c s ++ t)%string = String c (s ++ t)%string.
Proof. reflexivity. Qed.

Lemma append_nil (t : string) : (EmptyString ++ t)%string = t.
Proof. reflexivity. Qed.

Lemma digits_prefix_inj (s1 s2 r1 r2 : string) :
  all_chars is_digit s1 = true -> all_chars is_digit s2 = true ->
  (s1 ++ String "-" r1)%string = (s2 ++ String "-" r2)%string ->
  s1 = s2 /\ r1 = r2.
Proof.
  revert s2. induction s1 as [|c s1 IH]; intros [|c2 s2] H1 H2 H.
  - rewrite !append_nil in H. by injection H.
  - rewrite append_nil, append_cons in H. injection H as <- _.
    simpl in H2. discriminate.
  - rewrite append_nil, append_cons in H. injection H as -> _.
    simpl in H1. discriminate.
  - rewrite !append_cons in H. injection H as -> H.
    simpl in H1, H2. apply andb_true_iff in H1 as [_ H1], H2 as [_ H2].
    destruct (IH s2 H1 H2 H) as [-> ->]. done.
Qed.

Lemma string_of_uint_inj (u v : uint) :
  NilEmpty.string_of_uint u = NilEmpty.string_of_uint v -> u = v.
Proof.
  intros H. pose proof (NilEmpty.usu u) as Hu. rewrite H, NilEmpty.usu in Hu.
  congruence.
Qed.

(** X22.  Two uploads are stored under the same name exactly when they
    arrive in the same millisecond with names that are alike once the
    unsafe characters are replaced; so uploads at different times never
    overwrite each other, and two documents saved by the editor (always
    named [edited.pdf]) in the same millisecond do. *)
Theorem stored_names_collide_only_at_same_time (ts1 ts2 : N) (f1 f2 : File) :
  filename ts1 f1 = filename ts2 f2
  <-> ts1 = ts2
      /\ replace_unsafe (originalname f1) = replace_unsafe (originalname f2).
Proof.
  unfold filename. cbv zeta. split.
  - intros H.
    change ("-" ++ ?s)%string with (String "-" s) in H.
    apply digits_prefix_inj in H as [Hs Hr];
      try apply UploadFacts.digits_of_uint.
    split; [|done].
    by apply DecimalN.Unsigned.to_uint_inj, string_of_uint_inj.
  - by intros [-> ->].
Qed.

End NameFacts.

(** ** Pages the document does not have *)

Module PageFacts.
Import Client Render.
Section WithCodec.
Context `{Codec : DocumentCodec}.

Lemma drawable_agree (B B' : BoxMap) (I I' : ImageMap) (pdfDoc : PDFDocument) :
  (forall pg, (1 <= pg <= getPageCount pdfDoc)%Z ->
              page_list B pg = page_list B' pg
              /\ page_list I pg = page_list I' pg) ->
  drawable B I pdfDoc -> drawable B' I' pdfDoc.
Proof.
  intros Hagree Hd pg Hpg. destruct (Hagree pg Hpg) as [<- <-]. by apply Hd.
Qed.

Lemma recomposition_agree (c : Controls) (B B' : BoxMap) (I I' : ImageMap)
    (pdfDoc : PDFDocument) :
  (forall pg, (1 <= pg <= getPageCount pdfDoc)%Z ->
              page_list B pg = page_list B' pg
              /\ page_list I pg = page_list I' pg) ->
  recomposition c B I pdfDoc = recomposition c B' I' pdfDoc.
Proof.
  intros Hagree. unfold recomposition. apply imap_ext. intros i pg Hi.
  apply lookup_lt_Some in Hi. cbv zeta.
  destruct (Hagree (Z.of_nat i + 1)%Z) as [-> ->]; [|done].
  unfold getPageCount. lia.
Qed.

(** X23.  Annotations on pages the document does not have are ignored:
    two sets of boxes and images that agree on the pages 1 to the number
    of pages of the document give the same recomposition, or both fail. *)
Theorem annotations_off_the_document_are_ignored (c : Controls) (B B' : BoxMap)
    (I I' : ImageMap) (pdfDoc : PDFDocument) :
  (forall pg, (1 <= pg <= getPageCount pdfDoc)%Z ->
              page_list B pg = page_list B' pg
              /\ page_list I pg = page_list I' pg) ->
  drawAll c B I pdfDoc = drawAll c B' I' pdfDoc.
Proof.
  intros Hagree.
  assert (Hback : forall pg, (1 <= pg <= getPageCount pdfDoc)%Z ->
                             page_list B' pg = page_list B pg
                             /\ page_list I' pg = page_list I pg).
  { intros pg Hpg. by destruct (Hagree pg Hpg) as [-> ->]. }
  destruct (drawAll c B I pdfDoc) as [drawn|] eqn:E.
  - pose proof (RenderFacts.drawAll_Some_drawable _ _ _ _ _ E) as Hd.
    apply RenderFacts.drawAll_is_recomposition in E as ->.
    apply (drawable_agree _ _ _ _ _ Hagree) in Hd.
    destruct (RenderFacts.drawable_drawAll c _ _ _ Hd) as [drawn' E'].
    rewrite E'. apply RenderFacts.drawAll_is_recomposition in E' as ->.
    f_equal. symmetry. by apply recomposition_agree.
  - destruct (drawAll c B' I' pdfDoc) as [drawn'|] eqn:E'; [|done].
    pose proof (RenderFacts.drawAll_Some_drawable _ _ _ _ _ E') as Hd.
    apply (drawable_agree _ _ _ _ _ Hback) in Hd.
    destruct (RenderFacts.drawable_drawAll c _ _ _ Hd) as [x Hx]. congruence.
Qed.

End WithCodec.

Lemma off_the_document_witness :
  @drawAll Sample.codec Sample.toolbar {[ 1%Z := [Sample.hello] ]} ∅
           Sample.onePage
  = @drawAll Sample.codec Sample.toolbar
             {[ 1%Z := [Sample.hello]; 5%Z := [Fixture.twoLines] ]}
             {[ 0%Z := [Sample.gif] ]} Sample.onePage.
Proof.
  apply (@annotations_off_the_document_are_ignored Sample.codec).
  intros pg Hpg. unfold getPageCount in Hpg. simpl in Hpg.
  assert (pg = 1%Z) as -> by lia. split; reflexivity.
Defined.

End PageFacts.
